(** * any-auth: the request-pipeline engine, embedded in Rocq

    A shallow embedding of the custom-provider engine of [globals/utils.ts],
    [server/utils.ts] and [client/utils.ts]: the value resolver
    ([getAllParams]), the request executor ([waitAndRetryRequest]), the
    projection of responses ([storeValuesToReturn]), the two pipeline
    runners and the redirect bridge over local storage; and, around it, the
    string helpers of OAuth 1.0a ([globals/oauth_1a_functions.ts]), the
    table of provider URLs ([globals/functionHelpers.ts]), the server's
    proxy ([server/handleOAuth.ts]) and the browser's call of the server.

    Conventions of the embedding.
    - JavaScript data is the untyped tree [value]; an object is the list of
      its own enumerable properties in insertion order, which is the order
      of enumeration for keys that are not array indices (the reordering of
      integer-like keys is not modelled).
    - Whatever a property read finds on the prototype chain is a parameter
      ([chain]) of the development: every statement holds for every chain.
    - Asynchronous code runs sequentially (one [await] after the other), so
      it is a computation in the monad [M] over a [World] that records the
      observable actions of the engine: handler and hook calls, requests,
      delays, the form of the redirect and local storage.
    - User callbacks that return a value (resolvers, validators, the retry
      predicate, the back-off strategy) are functions; callbacks called for
      their effect only (observability hooks) are recorded by their label.
      An error handler may return or throw.
    - The configuration is typed data: the provider descriptions are the
      own properties of [customProviders]. A provider name that is not one
      of them is read from the prototype chain, and the runners are
      followed on the value found there through [initGlobalParams] and
      their guards; the steps of a whole description found on the
      prototype chain are not typed data, and the run over them is not
      followed.
    - [log] only builds console text and is left out.
    - JavaScript numbers are restricted to integers ([Z]); strings are
      sequences of 8-bit characters, the domain on which [btoa] is defined. *)

From Stdlib Require Import String Ascii List ZArith Bool Lia DecimalString.
From Stdlib Require Import Sorted Permutation.
Import ListNotations.
Open Scope list_scope.
Open Scope string_scope.

#[local] Set Warnings "-register-all".

(** ** JavaScript values *)

Module Js.

Inductive value : Type :=
| Undefined
| Null
| Bool (b : bool)
| Num (n : Z)
| Str (s : string)
| Arr (xs : list value)
| Obj (props : list (string * value))
| Fun (name : string).

(** The own enumerable properties of an object, in enumeration order. *)
Definition object := list (string * value).

(** [typeof v]. *)
Definition typeof (v : value) : string :=
  match v with
  | Undefined => "undefined"
  | Null => "object"
  | Bool _ => "boolean"
  | Num _ => "number"
  | Str _ => "string"
  | Arr _ => "object"
  | Obj _ => "object"
  | Fun _ => "function"
  end.

(** A primitive value: neither an object, an array nor a function. *)
Definition primitive (v : value) : bool :=
  match v with
  | Arr _ | Obj _ | Fun _ => false
  | _ => true
  end.

(** [ToBoolean v]: what [if (v)] and [!v] test. *)
Definition truthy (v : value) : bool :=
  match v with
  | Undefined | Null => false
  | Bool b => b
  | Num n => negb (n =? 0)%Z
  | Str s => negb (s =? EmptyString)
  | Arr _ | Obj _ | Fun _ => true
  end.

Fixpoint lookup {A : Type} (k : string) (o : list (string * A)) : option A :=
  match o with
  | [] => None
  | (k', v) :: rest => if k =? k' then Some v else lookup k rest
  end.

Definition has (k : string) (o : object) : bool :=
  match lookup k o with Some _ => true | None => false end.

Definition keys {A : Type} (o : list (string * A)) : list string := map fst o.

(** [o[k] = v] on an object: an existing property keeps its place, a new one
    is enumerated last. *)
Fixpoint set (k : string) (v : value) (o : object) : object :=
  match o with
  | [] => [(k, v)]
  | (k', v') :: rest =>
      if k =? k' then (k, v) :: rest else (k', v') :: set k v rest
  end.

(** [Object.assign(o, src)] and the spread [{...o, ...src}] of two objects. *)
Definition assign (o src : object) : object :=
  fold_left (fun acc kv => set (fst kv) (snd kv) acc) src o.

(** [k] as a property key that may be missing from an array ([value[i]]
    used as a key reads ["undefined"] past the end). *)
Definition key_at (i : nat) (segments : list string) : string :=
  nth i segments "undefined".

(** [segments[i] === s]. *)
Definition segment_is (i : nat) (segments : list string) (s : string) : bool :=
  match nth_error segments i with
  | Some t => t =? s
  | None => false
  end.

(** Decimal digits of a canonical array index ([0], [17], not [017]). *)
Definition digit (c : ascii) : option nat :=
  let n := nat_of_ascii c in
  if ((48 <=? n) && (n <=? 57))%nat then Some (n - 48) else None.

Fixpoint digits (s : string) (acc : nat) : option nat :=
  match s with
  | EmptyString => Some acc
  | String c rest =>
      match digit c with
      | Some d => digits rest (10 * acc + d)
      | None => None
      end
  end.

Definition array_index (k : string) : option nat :=
  match k with
  | EmptyString => None
  | String c EmptyString => digit c
  | String c _ => if (c =? "0")%char then None else digits k 0
  end.

(** The own property [k] of a node, when it has one. *)
Definition own (v : value) (k : string) : option value :=
  match v with
  | Obj o => lookup k o
  | Arr xs =>
      if k =? "length" then Some (Num (Z.of_nat (length xs)))
      else match array_index k with
           | Some i => nth_error xs i
           | None => None
           end
  | Str s =>
      if k =? "length" then Some (Num (Z.of_nat (String.length s)))
      else match array_index k with
           | Some i =>
               match String.get i s with
               | Some c => Some (Str (String c EmptyString))
               | None => None
               end
           | None => None
           end
  | _ => None
  end.

Definition decimal (n : Z) : string := NilZero.string_of_int (Z.to_int n).

Fixpoint join (sep : string) (parts : list string) : string :=
  match parts with
  | [] => EmptyString
  | [p] => p
  | p :: rest => p ++ sep ++ join sep rest
  end.

(** [String(v)], the text a value contributes to a concatenation. A function
    prints as its source text, which its label stands for. *)
Fixpoint to_string (v : value) : string :=
  match v with
  | Undefined => "undefined"
  | Null => "null"
  | Bool true => "true"
  | Bool false => "false"
  | Num n => decimal n
  | Str s => s
  | Arr xs =>
      join ","
        (map (fun x => match x with
                       | Undefined | Null => EmptyString
                       | _ => to_string x
                       end) xs)
  | Obj _ => "[object Object]"
  | Fun name => name
  end.

(** The own enumerable properties a spread [{...v}] copies. *)
Definition entries (v : value) : object :=
  match v with
  | Obj o => o
  | Arr xs => combine (map (fun i => decimal (Z.of_nat i)) (seq 0 (length xs))) xs
  | Str s =>
      combine (map (fun i => decimal (Z.of_nat i)) (seq 0 (String.length s)))
              (map (fun c => Str (String c EmptyString)) (list_ascii_of_string s))
  | _ => []
  end.

(** [v === "s"]. *)
Definition is_string (v : value) (s : string) : bool :=
  match v with Str t => t =? s | _ => false end.

End Js.

Import Js.

(** ** Platform encoders: [JSON.stringify] and [btoa] *)

Module Codec.

Definition quote_char : ascii := ascii_of_nat 34.
Definition backslash : ascii := ascii_of_nat 92.

Definition hex_digit (n : nat) : ascii :=
  match String.get n "0123456789abcdef" with
  | Some c => c
  | None => "0"%char
  end.

(** One character inside a JSON string literal. *)
Definition escape (c : ascii) : string :=
  let n := nat_of_ascii c in
  if (n =? 34)%nat then String backslash (String quote_char EmptyString)
  else if (n =? 92)%nat then String backslash (String backslash EmptyString)
  else if (n =? 8)%nat then String backslash "b"
  else if (n =? 9)%nat then String backslash "t"
  else if (n =? 10)%nat then String backslash "n"
  else if (n =? 12)%nat then String backslash "f"
  else if (n =? 13)%nat then String backslash "r"
  else if (n <? 32)%nat then
    String backslash
      ("u00" ++ String (hex_digit (n / 16)) (String (hex_digit (n mod 16)) EmptyString))
  else String c EmptyString.

Definition quote (s : string) : string :=
  String quote_char
    (String.concat EmptyString (map escape (list_ascii_of_string s))
     ++ String quote_char EmptyString).

(** The JSON text of a value; [None] where [JSON.stringify] yields
    [undefined]. A member whose value has no JSON text is left out of an
    object and printed as [null] in an array. *)
Fixpoint json_text (v : value) : option string :=
  match v with
  | Undefined | Fun _ => None
  | Null => Some "null"
  | Bool true => Some "true"
  | Bool false => Some "false"
  | Num n => Some (decimal n)
  | Str s => Some (quote s)
  | Arr xs =>
      Some ("[" ++ join ","
                     (map (fun x => match json_text x with
                                    | Some t => t
                                    | None => "null"
                                    end) xs) ++ "]")
  | Obj o =>
      Some ("{" ++ join ","
                     (flat_map (fun kv => match json_text (snd kv) with
                                          | Some t => [quote (fst kv) ++ ":" ++ t]
                                          | None => []
                                          end) o) ++ "}")
  end.

(** [JSON.stringify(v)] as the engine uses it: the result is concatenated,
    sent as a body or handed to [btoa], so [undefined] reads as its text. *)
Definition JSON_stringify (v : value) : string :=
  match json_text v with
  | Some t => t
  | None => "undefined"
  end.

Definition alphabet : string :=
  "ABCDEFGHIJKLMNOPQRSTUVWXYZabcdefghijklmnopqrstuvwxyz0123456789+/".

Definition sextet (n : nat) : string :=
  match String.get n alphabet with
  | Some c => String c EmptyString
  | None => EmptyString
  end.

Fixpoint base64 (bytes : list nat) : string :=
  match bytes with
  | [] => EmptyString
  | [a] => sextet (a / 4) ++ sextet (a mod 4 * 16) ++ "=="
  | [a; b] =>
      sextet (a / 4) ++ sextet (a mod 4 * 16 + b / 16)
      ++ sextet (b mod 16 * 4) ++ "="
  | a :: b :: c :: rest =>
      sextet (a / 4) ++ sextet (a mod 4 * 16 + b / 16)
      ++ sextet (b mod 16 * 4 + c / 64) ++ sextet (c mod 64)
      ++ base64 rest
  end.

(** [btoa(s)] on a string of 8-bit characters. *)
Definition btoa (s : string) : string :=
  base64 (map nat_of_ascii (list_ascii_of_string s)).

End Codec.

Import Codec.

(** ** Errors, handlers and the observable world *)

Record Error : Type := mkError {
  err_name : string;
  err_message : string;
  err_cause : option string
}.

(** [new Error(message)]. *)
Definition new_Error (message : string) : Error :=
  mkError "Error" message None.

(** [String(e)] for an error object. *)
Definition error_text (e : Error) : string :=
  if err_name e =? EmptyString then err_message e
  else if err_message e =? EmptyString then err_name e
  else err_name e ++ ": " ++ err_message e.

(** An error handler [(error, details) => void]: it returns ([None]) or
    throws ([Some e]). The label tells the handlers of a configuration
    apart in the trace. *)
Record Handler : Type := mkHandler {
  h_label : string;
  h_react : Error -> string -> option Error
}.

(** A callback called for its effect only, known by its label. *)
Definition Hook := string.

(** The default [() => {}] of an omitted hook. *)
Definition noop : Hook := "() => {}".

Record RetryContext : Type := mkRetryContext {
  attemptNumber : Z;
  ctx_error : Error;
  totalElapsedTime : Z;
  ctx_lastAttemptTimeStamp : Z;
  retryDelay : Z;
  ctx_maxRetries : Z;
  ctx_previousFetchData : object
}.

(** What [fetch(url, init)] is given. *)
Record Request : Type := mkRequest {
  req_url : string;
  req_method : string;
  req_headers : object;
  req_body : option string
}.

Record Response : Type := mkResponse {
  status : Z;
  statusText : string;
  body_text : string
}.

(** [response.ok]. *)
Definition ok (r : Response) : bool :=
  ((200 <=? status r) && (status r <=? 299))%Z.

(** A [fetch] promise rejects (network failure, or [AbortError] when the
    timeout fires first) or resolves to a response. *)
Inductive FetchOutcome : Type :=
| Rejected (e : Error)
| Responded (r : Response).

Record Form : Type := mkForm {
  form_method : string;
  form_action : string;
  form_inputs : list (string * string)
}.

Inductive Event : Type :=
| HandlerCalled (h : string) (e : Error) (details : string)
| RequestStarted (h : Hook) (record : value)
| Fetched (r : Request)
| ValidatorCalled (index : nat)
| BackOffAsked (attempt : Z) (ctx : RetryContext)
| RetryOnAsked (e : Error) (statusCode : Z)
| Retried (h : Hook) (ctx : RetryContext)
| Slept (ms : Z)
| RequestEnded (h : Hook) (record : value)
| BeforeRedirectCalled (h : Hook) (ledger : object) (record : value)
| FormAppended (f : Form)
| FormSubmitted (f : Form).

Record World : Type := mkWorld {
  trace : list Event;
  storage : list (string * string);
  ticks : nat
}.

Inductive Outcome (A : Type) : Type :=
| Ret (a : A)
| Throw (e : Error)
| OutOfFuel.

Arguments Ret {A} a.
Arguments Throw {A} e.
Arguments OutOfFuel {A}.

Module Monad.

Definition M (A : Type) : Type := World -> Outcome A * World.

Definition ret {A} (a : A) : M A := fun w => (Ret a, w).

Definition throw {A} (e : Error) : M A := fun w => (Throw e, w).

Definition bind {A B} (m : M A) (k : A -> M B) : M B :=
  fun w =>
    match m w with
    | (Ret a, w') => k a w'
    | (Throw e, w') => (Throw e, w')
    | (OutOfFuel, w') => (OutOfFuel, w')
    end.

(** [try { body } catch (error) { handler }]. *)
Definition try_catch {A} (body : M A) (handler : Error -> M A) : M A :=
  fun w =>
    match body w with
    | (Throw e, w') => handler e w'
    | r => r
    end.

Definition emit (e : Event) : M unit :=
  fun w => (Ret tt, mkWorld (trace w ++ [e])%list (storage w) (ticks w)).

End Monad.

Import Monad.

Notation "x <- m ;; k" := (bind m (fun x => k))
  (at level 61, m at next level, right associativity).
Notation "m ;; k" := (bind m (fun _ => k))
  (at level 61, right associativity).

(** How many requests a trace holds. *)
Definition is_fetch (e : Event) : bool :=
  match e with Fetched _ => true | _ => false end.

Definition fetches (t : list Event) : nat := length (filter is_fetch t).

(** [throwError] of [globals/utils.ts]. *)
Definition throwError (errorMessage : string)
    (globalErrorHandler : option Handler)
    (customErrorMessage : option string) (useThrow : bool) : M unit :=
  let error := new_Error errorMessage in
  (match globalErrorHandler with
   | Some h =>
       let details := match customErrorMessage with
                      | Some c => c
                      | None => err_message error
                      end in
       emit (HandlerCalled (h_label h) error details) ;;
       match h_react h error details with
       | Some thrown => throw thrown
       | None => ret tt
       end
   | None => throw (mkError "Error" errorMessage customErrorMessage)
   end) ;;
  if useThrow then throw error else ret tt.

(** ** The configuration ([client/types.ts]) *)

(** A resolver function: [(paramsList, requestParamsTillNow,
    previousFetchData, currentFetchData) => unknown]. *)
Definition Resolver : Type := object -> object -> object -> value -> value.

(** The [generate] function of a library-call descriptor, which also gets
    the library functions it asked for. *)
Definition Generator : Type :=
  object -> object -> object -> object -> value -> value.

(** One entry of [urlParams], [headers] or [body]. [Unsupported] is any
    other runtime value (a number, a boolean). *)
Inductive ParamSpec : Type :=
| Literal (s : string)
| Reference (path : list string)
| Resolve (f : Resolver)
| Library (this : list string) (generate : Generator)
| Unsupported.

Definition requestParamsType : Type := list (string * ParamSpec).

Record retriesType : Type := mkRetries {
  r_maxRetries : option Z;
  r_backOffStrategy : option (Z -> RetryContext -> Z);
  r_onRetry : option Hook;
  r_retryOn : option (Error -> Z -> bool)
}.

Inductive bodyType : Type :=
| BodyText (s : string)
| BodyParams (p : requestParamsType).

Record requestType : Type := mkRequestType {
  rq_method : string;
  rq_percentEncode : option bool;
  rq_urlParams : option requestParamsType;
  rq_headers : option requestParamsType;
  rq_body : option bodyType;
  rq_bodyEncodingFormat : option string;
  rq_timeout : option Z;
  rq_onError : option Handler;
  rq_retries : option retriesType
}.

(** A [toReturn] entry: ["all"] or a path into the response. *)
Inductive toReturnValue : Type :=
| All
| Path (segments : list string).

Definition toReturnType : Type := list (string * toReturnValue).

(** A validator [(previousFetchData, currentFetchData) => boolean]. *)
Definition Validator : Type := object -> value -> bool.

Record responseType : Type := mkResponseType {
  rs_parseType : option string;
  rs_validate : option (list Validator);
  rs_toReturn : option toReturnType;
  rs_onError : option Handler
}.

Record UrlType : Type := mkUrl {
  u_name : option string;
  u_test : option bool;
  u_proxy : option string;
  u_beforeRedirect : option Hook;
  u_request : requestType;
  u_response : responseType
}.

Definition redirectUrlsObjectType : Type := list (string * UrlType).

Record observabilityType : Type := mkObservability {
  ob_onRequestStart : option Hook;
  ob_onRequestEnd : option Hook;
  ob_onError : option Handler;
  ob_onRetry : option Hook
}.

Record observingFuncsType : Type := mkObserving {
  onRequestStart : option Hook;
  onRequestEnd : option Hook;
  obs_onError : Handler;
  obs_onRetry : option Hook
}.

Record UrlsType : Type := mkUrls {
  urls_beforeRedirect : redirectUrlsObjectType;
  urls_afterRedirect : redirectUrlsObjectType
}.

Record customProviderType : Type := mkCustomProvider {
  cp_paramsList : option object;
  cp_serverEndPoint : string;
  cp_stepLogging : bool;
  cp_observability : option observabilityType;
  cp_mode : option string;
  cp_urls : UrlsType
}.

Record configType : Type := mkConfig {
  cfg_serverUrl : string;
  cfg_globalErrorHandler : option Handler;
  cfg_globalTimeout : option Z;
  cfg_customProviders : option (list (string * customProviderType))
}.

Record initializedParamsType : Type := mkInitialized {
  p_details : UrlType;
  p_currentFetchData : value;
  p_name : string;
  p_proxy : option string;
  p_beforeRedirect : Hook;
  p_method : string;
  p_percentEncode : bool;
  p_onError : Handler;
  p_bodyEncodingFormat : string;
  p_timeout : Z;
  p_retriesObject : retriesType;
  p_maxRetries : Z;
  p_backOffStrategy : Z -> RetryContext -> Z;
  p_retryOn : Error -> Z -> bool;
  p_onRetry : Hook;
  p_urlParams : object;
  p_headers : object;
  p_bodyParams : value;
  p_responseParseType : string;
  p_validateResponse : list Validator;
  p_returnAfterResponse : toReturnType;
  p_onErrorInResponse : Handler
}.

Record globalInitializedParamsType : Type := mkGlobals {
  storeFetchesAs : string;
  storeToReturnAs : string;
  g_serverUrl : string;
  g_globalTimeout : Z;
  givenParams : option object;
  g_serverEndPoint : string;
  g_mode : string;
  observingFuncs : observingFuncsType;
  reqUrls : redirectUrlsObjectType;
  previousFetchData : object;
  toReturnObject : object
}.

(** The extra parameters of a built-in provider, per URL. *)
Record extraParamsType : Type := mkExtraParams {
  xp_requestTokenUrl : option object;
  xp_authUrl : option object;
  xp_tokenUrl : option object;
  xp_profileUrl : option object
}.

(** A built-in provider. The hashing function is known by its label. *)
Record supportedProviderType : Type := mkSupportedProvider {
  sp_clientId : string;
  sp_clientSecret : string;
  sp_redirectUri : string;
  sp_serverEndPoint : string;
  sp_scope : option string;
  sp_tenant : option string;
  sp_responseType : option string;
  sp_requestTokenEndPoint : option string;
  sp_signatureEndPoint : option string;
  sp_state : option string;
  sp_flowType : option string;
  sp_requestTokenUrl : option string;
  sp_signatureMethod : option string;
  sp_version : option string;
  sp_authUrl : option string;
  sp_tokenUrl : option string;
  sp_profileUrl : option string;
  sp_extraUrlParams : option extraParamsType;
  sp_extraHeaderParams : option extraParamsType;
  sp_hashingFunction : option string
}.

(** What the server answers the browser: [{status: "success", data}] or
    [{status: "error", data: {error, data}}], the inner data being [null]
    or the error caught. *)
Inductive responseDataType : Type :=
| Success (data : value)
| Failure (error : string) (data : option Error).


(** [x ?? d]. *)
Definition nullish {A} (x : option A) (d : A) : A :=
  match x with Some a => a | None => d end.

(** A fetch record [{request: {...}, response}] as a value. *)
Definition fetchRecord (method url : string) (urlParams headers : object)
    (body response : value) : value :=
  Obj [("request",
        Obj [("method", Str method); ("url", Str url);
             ("urlParams", Obj urlParams); ("headers", Obj headers);
             ("body", body)]);
       ("response", response)].

(** The record [initParams] starts from. *)
Definition emptyFetchData : value :=
  fetchRecord EmptyString EmptyString [] [] (Obj []) (Obj []).

(** An own property of a record the engine built itself. *)
Definition prop (v : value) (k : string) : value :=
  nullish (own v k) Undefined.

(** [v[k] = x] on such a record. *)
Definition with_prop (v : value) (k : string) (x : value) : value :=
  match v with
  | Obj o => Obj (set k x o)
  | _ => v
  end.

(** The default [() => {}] of an omitted global error handler. *)
Definition silent : Handler := mkHandler noop (fun _ _ => None).

Inductive eventNameType : Type :=
| beforeRedirect
| afterRedirect.

Definition with_previousFetchData (g : globalInitializedParamsType)
    (ledger : object) : globalInitializedParamsType :=
  mkGlobals (storeFetchesAs g) (storeToReturnAs g) (g_serverUrl g)
    (g_globalTimeout g) (givenParams g) (g_serverEndPoint g) (g_mode g)
    (observingFuncs g) (reqUrls g) ledger (toReturnObject g).

Definition with_toReturnObject (g : globalInitializedParamsType)
    (acc : object) : globalInitializedParamsType :=
  mkGlobals (storeFetchesAs g) (storeToReturnAs g) (g_serverUrl g)
    (g_globalTimeout g) (givenParams g) (g_serverEndPoint g) (g_mode g)
    (observingFuncs g) (reqUrls g) (previousFetchData g) acc.

Definition initGlobalParams (config : configType)
    (configProvider : customProviderType) (globalErrorHandler : Handler)
    (eventName : eventNameType) : globalInitializedParamsType :=
  let observingFuncs :=
    match cp_observability configProvider with
    | Some ob =>
        mkObserving (ob_onRequestStart ob) (ob_onRequestEnd ob)
          (nullish (ob_onError ob) globalErrorHandler) (ob_onRetry ob)
    | None => mkObserving None None globalErrorHandler None
    end in
  let urls := cp_urls configProvider in
  mkGlobals "fetch data before redirect: " "values to return: "
    (cfg_serverUrl config) (nullish (cfg_globalTimeout config) 5000%Z)
    (cp_paramsList configProvider) (cp_serverEndPoint configProvider)
    (nullish (cp_mode configProvider) "url") observingFuncs
    (match eventName with
     | beforeRedirect => urls_beforeRedirect urls
     | afterRedirect => urls_afterRedirect urls
     end)
    [] [].

(** [createFormWithParams]: one hidden input per parameter. *)
Definition createFormWithParams (params : object) (action method : string)
  : Form :=
  mkForm method action (map (fun kv => (fst kv, to_string (snd kv))) params).

(** The record of the redirect step: for a [POST], the body is written
    into the request once more. *)
Definition redirectRecord (requestMethod : string)
    (params : initializedParamsType) : value :=
  if requestMethod =? "POST" then
    with_prop (p_currentFetchData params) "request"
      (with_prop (prop (p_currentFetchData params) "request") "body"
         (p_bodyParams params))
  else p_currentFetchData params.

(** The world after handler [h] was called with [new Error(message)], and
    the error that call leaves thrown: the handler's own if it throws, the
    new error if it returns. *)
Definition reported (h : Handler) (message details : string) (w : World)
  : World :=
  mkWorld (trace w ++ [HandlerCalled (h_label h) (new_Error message) details])%list
    (storage w) (ticks w).

Definition raised (h : Handler) (message details : string) : Error :=
  nullish (h_react h (new_Error message) details) (new_Error message).

(** The message of a failed step into the response. *)
Definition access_error (val : string) : string :=
  "Error while trying to access the response property, " ++ val.

(** What a computation adds to the trace: only events that satisfy [P]. *)
Definition adds {A} (P : Event -> Prop) (m : M A) : Prop :=
  forall w r w',
    m w = (r, w') ->
    exists added, trace w' = (trace w ++ added)%list /\ Forall P added.

(** A computation that ends, by returning or by throwing, from every
    world: the fuel of a loop was enough. *)
Definition finishes {A} (m : M A) : Prop :=
  forall w, fst (m w) <> OutOfFuel.

(** ** A concrete platform and concrete inputs, for closed instances *)

Module Sample.

(** The chain of plain objects and arrays: the functions of
    [Object.prototype]. *)
Definition chain (v : value) (k : string) : option value :=
  match v with
  | Obj _ | Arr _ =>
      if existsb (String.eqb k)
           ["constructor"; "hasOwnProperty"; "isPrototypeOf";
            "propertyIsEnumerable"; "toLocaleString"; "toString"; "valueOf"]
      then Some (Fun ("Object.prototype." ++ k))
      else None
  | _ => None
  end.

Definition type_error_message (v : value) (k : string) : string :=
  "Cannot read properties of " ++ to_string v ++ " (reading '" ++ k ++ "')".

(** Form encoding and URI encoding, on text without reserved characters. *)
Definition URLSearchParams_toString (v : value) : string :=
  join "&" (map (fun kv => fst kv ++ "=" ++ to_string (snd kv)) (entries v)).

Definition encodeURIComponent (s : string) : string := s.

(** A decoder given by the table of the texts it is asked about. *)
Definition decoder {A : Type} (table : list (string * A)) (text : string)
  : option A :=
  lookup text table.

Definition clock (n : nat) : Z := 1000 * Z.of_nat n.

Definition call (f : string) : value := Undefined.

Definition w0 : World := mkWorld [] [] 0.

(** A handler that logs and returns, and one that throws its own error. *)
Definition logging : Handler := mkHandler "onError" (fun _ _ => None).

Definition strict : Handler :=
  mkHandler "strict" (fun e _ => Some (mkError "Fatal" (err_message e) None)).

(** A server that always answers 500, and one that always answers 200 with
    an empty JSON object. *)
Definition always500 (n : nat) (r : Request) : FetchOutcome :=
  Responded (mkResponse 500 "Internal Server Error" "oops").

Definition always200 (n : nat) (r : Request) : FetchOutcome :=
  Responded (mkResponse 200 "OK" "{}").

Definition observing : observingFuncsType :=
  mkObserving (Some "onRequestStart") (Some "onRequestEnd") logging
    (Some "onRetry").

(** The ledger [{s: {request, response: {f: "v"}}}]. *)
Definition ledger : object :=
  [("s", fetchRecord "GET" "https://provider/s" [] [] (Obj [])
           (Obj [("f", Str "v")]))].

(** The response [{a: {b: "x"}}]. *)
Definition nested : value := Obj [("a", Obj [("b", Str "x")])].

(** A network on which every request is aborted by its timeout. *)
Definition alwaysAborted (n : nat) (r : Request) : FetchOutcome :=
  Rejected (mkError "AbortError" "The operation was aborted." None).

(** A step with a name, or named by its URL, and nothing else configured. *)
Definition step (name : option string) : UrlType :=
  mkUrl name None None None
    (mkRequestType "GET" None None None None None None None None)
    (mkResponseType None None None None).

Definition provider : customProviderType :=
  mkCustomProvider (Some [("clientId", Str "abc")]) "/auth" false None None
    (mkUrls
       [("https://provider/request", step (Some "request"));
        ("https://provider/authorize", step None)]
       [("https://provider/token", step (Some "token"));
        ("https://provider/profile", step None)]).

Definition config : configType :=
  mkConfig "https://app" (Some logging) None (Some [("acme", provider)]).

(** The initialized parameters of a redirect step, the ledger its redirect
    persists, and an accumulator. *)
Definition redirectParams : initializedParamsType :=
  mkInitialized (step (Some "authorize"))
    (fetchRecord "GET" "https://provider/authorize?client_id=abc"
       [("client_id", Str "abc")] [] (Obj []) (Obj []))
    "authorize" None noop "GET" false logging "json" 5000%Z
    (mkRetries None None None None) 2%Z (fun _ _ => 5000%Z)
    (fun _ _ => false) noop [("client_id", Str "abc")] [] (Obj []) "json" []
    [] logging.

Definition storedLedger : object :=
  set "authorize" (redirectRecord "GET" redirectParams) ledger.

Definition accumulator : object := [("token", Str "T")].

(** The decoders on the texts of the samples: [atob] inverts [btoa], and
    [JSON.parse] reads the text of the stored ledger, of the accumulator and
    of the empty object. *)
Definition atob : string -> option string :=
  decoder
    [(btoa (JSON_stringify (Obj storedLedger)), JSON_stringify (Obj storedLedger));
     (btoa (JSON_stringify (Obj accumulator)), JSON_stringify (Obj accumulator));
     (btoa "{}", "{}")].

Definition JSON_parse : string -> option value :=
  decoder
    [(JSON_stringify (Obj storedLedger), Obj storedLedger);
     (JSON_stringify (Obj accumulator), Obj accumulator);
     ("{}", Obj [])].

(** A server that answers 500 to the first request and 200 with an empty
    JSON object to the later ones. *)
Definition flaky (n : nat) (r : Request) : FetchOutcome :=
  match n with
  | O => always500 n r
  | S _ => always200 n r
  end.

(** A step that retries up to 0 times, as configured. *)
Definition impatient : UrlType :=
  mkUrl (Some "token") None None None
    (mkRequestType "GET" None None None None None None None
       (Some (mkRetries (Some 0%Z) None None None)))
    (mkResponseType None None None None).

(** A provider whose observability names a handler, with a step that has
    its own handler for failing responses. *)
Definition careful : Handler := mkHandler "onResponseError" (fun _ _ => None).

Definition guarded : customProviderType :=
  mkCustomProvider (Some []) "/auth" false
    (Some (mkObservability None None (Some strict) None)) None
    (mkUrls []
       [("https://provider/token",
         mkUrl (Some "token") None None None
           (mkRequestType "POST" None None None None None None None None)
           (mkResponseType None None None (Some careful)))]).

(** The answer of a proxy to a request it passed on, the proxy that gives
    it, and a [JSON.parse] that reads its text. *)
Definition proxyAnswer : object :=
  [("status", Str "success"); ("data", Obj [("id", Num 7)])].

Definition proxied (n : nat) (r : Request) : FetchOutcome :=
  Responded (mkResponse 200 "OK" (JSON_stringify (Obj proxyAnswer))).

Definition JSON_parse_proxy : string -> option value :=
  decoder [(JSON_stringify (Obj proxyAnswer), Obj proxyAnswer)].

(** [encodeURIComponent] on 8-bit text: letters, digits and
    [- _ . ! ~ * ' ( )] stay, every other character is written as [%] and
    its two hexadecimal digits. *)
Definition unreserved (c : ascii) : bool :=
  let n := N_of_ascii c in
  ((48 <=? n) && (n <=? 57) || (65 <=? n) && (n <=? 90)
   || (97 <=? n) && (n <=? 122))%N
  || existsb (Ascii.eqb c) ["-"; "_"; "."; "!"; "~"; "*"; "'"; "("; ")"]%char.

Definition hexDigit (n : N) : ascii :=
  nth (N.to_nat n)
    ["0"; "1"; "2"; "3"; "4"; "5"; "6"; "7"; "8"; "9"; "A"; "B"; "C"; "D";
     "E"; "F"]%char "0"%char.

Definition percentEncodeChar (c : ascii) : string :=
  if unreserved c then String c EmptyString
  else
    String "%"
      (String (hexDigit (N_of_ascii c / 16))
         (String (hexDigit (N_of_ascii c mod 16)) EmptyString)).

Fixpoint percentEncode (s : string) : string :=
  match s with
  | EmptyString => EmptyString
  | String c rest => percentEncodeChar c ++ percentEncode rest
  end.

(** [decodeURIComponent] on text without escapes. *)
Definition decodeURIComponent (s : string) : option string := Some s.

End Sample.

(** ** The engine *)

Section Engine.

(** *** The platform *)

(** What the prototype chain of a node yields for a key that is not one of
    its own properties ([constructor], [toString], ...). *)
Variable chain : value -> string -> option value.

(** The message of the [TypeError] the runtime raises on reading a property
    of [undefined] or [null]. *)
Variable type_error_message : value -> string -> string.

(** [new URLSearchParams(body).toString()], [encodeURIComponent(s)]. *)
Variable URLSearchParams_toString : value -> string.
Variable encodeURIComponent : string -> string.

(** The decoders: [JSON.parse] ([None]: it throws a [SyntaxError]) and
    [atob] ([None]: it throws an [InvalidCharacterError]). *)
Variable JSON_parse : string -> option value.
Variable atob : string -> option string.

(** [decodeURIComponent] ([None]: it throws a [URIError]). *)
Variable decodeURIComponent : string -> option string.

(** The network: the outcome of the [n]-th request the engine issues. *)
Variable network : nat -> Request -> FetchOutcome.

(** [Date.now()]: the [n]-th reading of the clock. *)
Variable clock : nat -> Z.

(** Calling a parameterless function of the params list. *)
Variable call : string -> value.

(** The configuration [setConfig] installed, if any. *)
Variable installed : option configType.

(** *** Property reads *)

(** [v[k]] on a node that is neither [undefined] nor [null]. *)
Definition member (v : value) (k : string) : value :=
  match own v k with
  | Some x => x
  | None => nullish (chain v k) Undefined
  end.

(** [v[k]]; [None] when the read throws a [TypeError]. *)
Definition get (v : value) (k : string) : option value :=
  match v with
  | Undefined | Null => None
  | _ => Some (member v k)
  end.

Definition TypeError (v : value) (k : string) : Error :=
  mkError "TypeError" (type_error_message v k) None.

Definition read (v : value) (k : string) : M value :=
  match get v k with
  | Some x => ret x
  | None => throw (TypeError v k)
  end.

(** *** Platform effects *)

Definition now : M Z :=
  fun w => (Ret (clock (ticks w)), mkWorld (trace w) (storage w) (S (ticks w))).

(** [await fetch(url, init)], the outcome in hand. *)
Definition fetch (r : Request) : M FetchOutcome :=
  fun w =>
    (Ret (network (fetches (trace w)) r),
     mkWorld (trace w ++ [Fetched r])%list (storage w) (ticks w)).

Definition remove (k : string) (l : list (string * string))
  : list (string * string) :=
  filter (fun kv => negb (fst kv =? k)) l.

Definition localStorage_getItem (k : string) : M (option string) :=
  fun w => (Ret (lookup k (storage w)), w).

Definition localStorage_setItem (k v : string) : M unit :=
  fun w => (Ret tt, mkWorld (trace w) ((k, v) :: remove k (storage w)) (ticks w)).

Definition localStorage_removeItem (k : string) : M unit :=
  fun w => (Ret tt, mkWorld (trace w) (remove k (storage w)) (ticks w)).

Definition getConfig : M configType :=
  match installed with
  | Some c => ret c
  | None => throw (new_Error "config not set")
  end.

Definition encodeToBase64 (text : string) : string := btoa text.

Definition decodeFromBase64 (text : string) : M string :=
  match atob text with
  | Some s => ret s
  | None => throw (mkError "InvalidCharacterError" EmptyString None)
  end.

Definition JSON_parse_or_throw (text : string) : M value :=
  match JSON_parse text with
  | Some v => ret v
  | None => throw (mkError "SyntaxError" EmptyString None)
  end.

(** *** [globals/utils.ts] *)

(** The body is the object or the string of the configuration. *)
Definition encodeBody (body : value) (bodyEncodingFormat : string)
    (onError : Handler) : M string :=
  if bodyEncodingFormat =? "json" then ret (JSON_stringify body)
  else if bodyEncodingFormat =? "url" then ret (URLSearchParams_toString body)
  else
    match bodyEncodingFormat =? "text", body with
    | true, Str s => ret s
    | _, _ =>
        throwError "Invalid body encoding format specified" (Some onError)
          (Some "The bodyEncodingFormat field have either one from 'json', 'url' or 'text' as its value")
          true ;;
        ret EmptyString
    end.

Definition parseRequest (response : Response) (responseParseType : string)
    (onErrorInResponse : Handler) : M value :=
  if responseParseType =? "json" then JSON_parse_or_throw (body_text response)
  else if responseParseType =? "text" then ret (Str (body_text response))
  else
    throwError "Invalid response parse type specified" (Some onErrorInResponse)
      (Some "The responseParseType field have either one from 'json' or 'text' as its value")
      true ;;
    ret (Str "Invalid response parse type specified").

Definition removeNestedObjects (obj : object) : object :=
  fold_left
    (fun finalObj kv =>
       if negb (typeof (snd kv) =? "object")
       then set (fst kv) (snd kv) finalObj
       else finalObj)
    obj [].

(** The catalogue of [getRequiredFunctions]. *)
Definition libraryFunctions (type : string) : object :=
  ("getSignature",
   Fun (if type =? "client" then "getSignatureWithoutCrypto" else "getSignature"))
  :: map (fun n => (n, Fun n))
       ["getNonce"; "getTimeStamp"; "parseToken"; "constructOAuthData";
        "baseString"; "baseUrl"; "mergeObjects"; "parameterString";
        "decodeQueryParams"; "sortObject"; "signingKey"; "pE";
        "convertToUrlParams"; "convertStringsToObject"; "cleanObject";
        "createFormWithParams"; "decodeAndGetParams";
        "decodeAllURIComponents"; "getConfig"].

Fixpoint requiredFunctions_from (type : string) (names : list string)
    (functionsToReturn : object) : M object :=
  match names with
  | [] => ret functionsToReturn
  | functionName :: rest =>
      let f := member (Obj (libraryFunctions type)) functionName in
      found <- (if truthy f then ret (set functionName f functionsToReturn)
                else config <- getConfig ;;
                     throwError "Function not found"
                       (cfg_globalErrorHandler config) None true ;;
                     ret functionsToReturn) ;;
      requiredFunctions_from type rest found
  end.

Definition getRequiredFunctions (requiredFunctions : list string)
    (type : string) : M object :=
  requiredFunctions_from type requiredFunctions [].

(** [pE]: [encodeURIComponent], then the five characters it leaves. *)
Definition pE_char (c : ascii) : string :=
  let n := nat_of_ascii c in
  if (n =? 33)%nat then "%21"
  else if (n =? 42)%nat then "%2A"
  else if (n =? 39)%nat then "%27"
  else if (n =? 40)%nat then "%28"
  else if (n =? 41)%nat then "%29"
  else String c EmptyString.

Definition pE (str : string) : string :=
  String.concat EmptyString
    (map pE_char (list_ascii_of_string (encodeURIComponent str))).

(** [s.slice(0, -1)]. *)
Fixpoint drop_last (s : string) : string :=
  match s with
  | EmptyString => EmptyString
  | String _ EmptyString => EmptyString
  | String c rest => String c (drop_last rest)
  end.

Definition convertToUrlParams (urlParams : object) (pe : bool) : string :=
  drop_last
    (fold_left
       (fun finalUrl kv =>
          finalUrl ++ fst kv ++ "="
          ++ (if pe then pE (to_string (snd kv))
              else encodeURIComponent (to_string (snd kv)))
          ++ "&")
       urlParams "?").

(** One segment of a [toReturn] path: the body of the inner [forEach]. *)
Definition descend (onErrorInResponse : Handler) (reqProperty : value)
    (val : string) : M value :=
  if (typeof reqProperty =? "string") || (typeof reqProperty =? "undefined")
  then
    throwError ("Error while trying to access the response property, " ++ val)
      (Some onErrorInResponse) None true ;;
    ret reqProperty
  else
    try_catch (read reqProperty val)
      (fun _ =>
         throwError
           ("Error while trying to access the response property, " ++ val)
           (Some onErrorInResponse) None true ;;
         ret reqProperty).

Fixpoint descend_all (onErrorInResponse : Handler) (reqProperty : value)
    (segments : list string) : M value :=
  match segments with
  | [] => ret reqProperty
  | val :: rest =>
      next <- descend onErrorInResponse reqProperty val ;;
      descend_all onErrorInResponse next rest
  end.

Fixpoint storeValues_from (returnAfterResponse : toReturnType)
    (providerResponse : value) (onErrorInResponse : Handler)
    (toReturnObject : object) : M object :=
  match returnAfterResponse with
  | [] => ret toReturnObject
  | (key, value) :: rest =>
      reqProperty <- match value with
                     | All => ret providerResponse
                     | Path segments =>
                         descend_all onErrorInResponse providerResponse segments
                     end ;;
      storeValues_from rest providerResponse onErrorInResponse
        (set key reqProperty toReturnObject)
  end.

Definition storeValuesToReturn (returnAfterResponse : toReturnType)
    (providerResponse : value) (onErrorInResponse : Handler) : M object :=
  storeValues_from returnAfterResponse providerResponse onErrorInResponse [].

(** The walk of a reference: [for (const v of value) { try { reqProperty =
    reqProperty[v] } catch (error) { throwError(...) } }]. *)
Fixpoint follow (errorHandler : Handler) (reqProperty : value)
    (segments : list string) : M value :=
  match segments with
  | [] => ret reqProperty
  | v :: rest =>
      next <- try_catch (read reqProperty v)
                (fun error =>
                   throwError
                     ("Parameter " ++ v ++ " not found in previous fetches: "
                      ++ JSON_stringify reqProperty ++ ", error: "
                      ++ error_text error)
                     (Some errorHandler) None true ;;
                   ret reqProperty) ;;
      follow errorHandler next rest
  end.

(** The [Array.isArray(value)] branch of [getAllParams]. *)
Definition resolveReference (key : string) (value : list string)
    (previousFetchData : object) (errorHandler : Handler)
    (specificParser : option object) (finalUrlParams : object) : M object :=
  (if (length value <? 2)%nat
      && match specificParser with Some _ => false | None => true end
   then
     throwError
       "Too less parameters given to access the previous request or response. minimum 2 are required"
       (Some errorHandler)
       (Some "The first parameter should always be the name of the fetch operation (url by default) and the second parameter should be either 'response' or 'request'")
       true
   else ret tt) ;;
  start <- match specificParser with
           | Some parser => ret (Obj parser)
           | None =>
               if segment_is 1 value "request" || segment_is 1 value "response"
               then
                 record <- read (Obj previousFetchData) (key_at 0 value) ;;
                 read record (key_at 1 value)
               else ret Null
           end ;;
  (if negb (truthy start) then
     throwError
       "The second Parameter of the array in the fromPreviousFetches should always be either 'request' or 'response'"
       (Some errorHandler) None true
   else ret tt) ;;
  reqProperty <- follow errorHandler start value ;;
  if truthy reqProperty then ret (set key reqProperty finalUrlParams)
  else
    record <- read (Obj previousFetchData) (key_at 0 value) ;;
    half <- read record (key_at 1 value) ;;
    throwError "Invalid key Found" (Some errorHandler)
      (Some ("Unknown Error occurred please check the array once again to ensure that "
             ++ last value EmptyString ++ " exists in " ++ to_string half))
      true ;;
    ret finalUrlParams.

(** One iteration of the [for (let key in params)] loop. *)
Definition resolveEntry (isServer : bool) (givenParams : object)
    (previousFetchData : object) (currentFetchData : value)
    (errorHandler : Handler) (specificParser : option object)
    (finalUrlParams : object) (key : string) (value : ParamSpec) : M object :=
  match value with
  | Literal s => ret (set key (Str s) finalUrlParams)
  | Reference path =>
      resolveReference key path previousFetchData errorHandler specificParser
        finalUrlParams
  | Resolve f =>
      let val := f givenParams finalUrlParams previousFetchData currentFetchData in
      (if negb (truthy val)
       then throwError "Function returned nothing" (Some errorHandler) None true
       else ret tt) ;;
      ret (set key val finalUrlParams)
  | Library this generate =>
      functionsToUse <- getRequiredFunctions this
                          (if isServer then "server" else "client") ;;
      let val := generate givenParams functionsToUse finalUrlParams
                   previousFetchData currentFetchData in
      (if negb (truthy val)
       then throwError "Function returned nothing" (Some errorHandler) None true
       else ret tt) ;;
      ret (set key val finalUrlParams)
  | Unsupported => ret finalUrlParams
  end.

Fixpoint resolveEntries (isServer : bool) (givenParams : object)
    (previousFetchData : object) (currentFetchData : value)
    (errorHandler : Handler) (specificParser : option object)
    (params : requestParamsType) (finalUrlParams : object) : M object :=
  match params with
  | [] => ret finalUrlParams
  | (key, value) :: rest =>
      next <- resolveEntry isServer givenParams previousFetchData
                currentFetchData errorHandler specificParser finalUrlParams
                key value ;;
      resolveEntries isServer givenParams previousFetchData currentFetchData
        errorHandler specificParser rest next
  end.

Definition getAllParams (isServer : bool) (paramName : string)
    (givenParams : object) (params : requestParamsType)
    (previousFetchData : object) (currentFetchData : value)
    (errorHandler : Handler) (specificParser : option object) : M object :=
  finalUrlParams <- resolveEntries isServer givenParams previousFetchData
                      currentFetchData errorHandler specificParser params [] ;;
  ret (removeNestedObjects finalUrlParams).

Definition initParams (isServer : bool) (reqUrls : redirectUrlsObjectType)
    (url : string) (observingFuncs : observingFuncsType) (globalTimeout : Z)
    (givenParams : object) (previousFetchData : object)
    (specificParser : option object) : M initializedParamsType :=
  match lookup url reqUrls with
  | None => throw (TypeError Undefined "name")
  | Some details =>
      let currentFetchData := emptyFetchData in
      let name := nullish (u_name details) url in
      let beforeRedirect := nullish (u_beforeRedirect details) noop in
      let proxy := u_proxy details in
      let request := u_request details in
      let method := rq_method request in
      let percentEncode := nullish (rq_percentEncode request) false in
      let onError := nullish (rq_onError request) (obs_onError observingFuncs) in
      let bodyEncodingFormat := nullish (rq_bodyEncodingFormat request) "json" in
      let timeout := nullish (rq_timeout request) globalTimeout in
      let retriesObject :=
        nullish (rq_retries request) (mkRetries None None None None) in
      let maxRetries :=
        match r_maxRetries retriesObject with
        | Some n => if (n =? 0)%Z then 2%Z else n
        | None => 2%Z
        end in
      let backOffStrategy :=
        match r_backOffStrategy retriesObject with
        | Some f => f
        | None => fun _ _ => timeout
        end in
      let retryOn :=
        match r_retryOn retriesObject with
        | Some f => f
        | None =>
            fun (_ : Error) (statusCode : Z) =>
              ((statusCode =? 429) || (statusCode =? 503))%Z
        end in
      let onRetry :=
        match r_onRetry retriesObject with
        | Some h => h
        | None => nullish (obs_onRetry observingFuncs) noop
        end in
      urlParams <- getAllParams isServer "urlParams" givenParams
                     (nullish (rq_urlParams request) []) previousFetchData
                     currentFetchData onError specificParser ;;
      headers <- getAllParams isServer "headers" givenParams
                   (nullish (rq_headers request) []) previousFetchData
                   currentFetchData onError specificParser ;;
      bodyParams <- match rq_body request with
                    | Some (BodyText s) => ret (Str s)
                    | Some (BodyParams p) =>
                        o <- getAllParams isServer "body" givenParams p
                               previousFetchData currentFetchData onError
                               specificParser ;;
                        ret (Obj o)
                    | None =>
                        o <- getAllParams isServer "body" givenParams []
                               previousFetchData currentFetchData onError
                               specificParser ;;
                        ret (Obj o)
                    end ;;
      let response := u_response details in
      let responseParseType := nullish (rs_parseType response) "json" in
      let validateResponse := nullish (rs_validate response) [] in
      let returnAfterResponse := nullish (rs_toReturn response) [] in
      let onErrorInResponse := nullish (rs_onError response) onError in
      ret (mkInitialized details currentFetchData name proxy beforeRedirect
             method percentEncode onError bodyEncodingFormat timeout
             retriesObject maxRetries backOffStrategy retryOn onRetry
             urlParams headers bodyParams responseParseType validateResponse
             returnAfterResponse onErrorInResponse)
  end.

(** *** The request executor *)

(** The variables of the retry loop. *)
Record RetryState : Type := mkRetryState {
  retries : Z;
  lastRetryDelay : Z;
  lastAttemptTimeStamp : Z;
  lastRequestStatusCode : Z
}.

(** A proxy is used when the string is given and not empty. *)
Definition in_use (proxy : option string) : option string :=
  match proxy with
  | Some p => if p =? EmptyString then None else Some p
  | None => None
  end.

(** The request an attempt sends: to the proxy, the envelope of the real
    request; or the request itself. A body of [{}] is sent as [null]. *)
Definition attemptRequest (requestUrl requestMethod : string)
    (requestHeaders : object) (requestBody responseParseType : string)
    (proxy : option string) : Request :=
  match in_use proxy with
  | Some p =>
      mkRequest p "POST" [("Content-Type", Str "application/json")]
        (Some (JSON_stringify
                 (Obj [("url", Str requestUrl); ("method", Str requestMethod);
                       ("headers", Obj requestHeaders);
                       ("body", if requestBody =? "{}" then Null
                                else Str requestBody);
                       ("parseResponseType", Str responseParseType)])))
  | None =>
      mkRequest requestUrl requestMethod requestHeaders
        (if requestBody =? "{}" then None else Some requestBody)
  end.

Fixpoint runValidators (index : nat) (validateResponse : list Validator)
    (previousFetchData : object) (onErrorInResponse : Handler) : M unit :=
  match validateResponse with
  | [] => ret tt
  | value :: rest =>
      emit (ValidatorCalled index) ;;
      (if negb (value previousFetchData Undefined)
       then throwError "Response failed user validation."
              (Some onErrorInResponse) None true
       else ret tt) ;;
      runValidators (S index) rest previousFetchData onErrorInResponse
  end.

(** The [try] block once [fetch] has settled: status check, parsing, the
    proxy envelope, the validators. *)
Definition settle (outcome : FetchOutcome) (onErrorInResponse : Handler)
    (validateResponse : list Validator) (previousFetchData : object)
    (responseParseType : string) (proxy : option string) : M value :=
  match outcome with
  | Rejected e => throw e
  | Responded providerResponse =>
      (if negb (ok providerResponse)
       then throwError "Response has some error:{}"
              (Some onErrorInResponse) None true
       else ret tt) ;;
      parsed <- parseRequest providerResponse
                  (match in_use proxy with
                   | Some _ => "json"
                   | None => responseParseType
                   end)
                  onErrorInResponse ;;
      unwrapped <- match in_use proxy with
                   | Some _ =>
                       if typeof parsed =? "object" then
                         match parsed with
                         | Null => throw (TypeError Null "status")
                         | _ =>
                             if match own parsed "status" with
                                | Some _ => true
                                | None => false
                                end
                                && is_string (member parsed "status") "success"
                             then ret (member parsed "data")
                             else
                               throwError
                                 "Proxy returned an object with status 'success' but no data. Please check the proxy response."
                                 (Some onErrorInResponse) None true ;;
                               ret parsed
                         end
                       else ret parsed
                   | None => ret parsed
                   end ;;
      runValidators 0 validateResponse previousFetchData onErrorInResponse ;;
      ret unwrapped
  end.

(** The [catch] block: it ends an attempt that failed, and yields the loop
    variables of the next one. *)
Definition afterFailure (error : Error) (st : RetryState)
    (timeAtFirstRequest : Z) (onErrorInResponse : Handler)
    (previousFetchData : object) (maxRetries : Z)
    (backOffStrategy : Z -> RetryContext -> Z) (onRetry : option Hook)
    (retryOn : Error -> Z -> bool) : M RetryState :=
  let retries' := (retries st + 1)%Z in
  current <- now ;;
  let retryContext :=
    mkRetryContext retries' error (current - timeAtFirstRequest)
      (lastAttemptTimeStamp st) (lastRetryDelay st) maxRetries
      previousFetchData in
  emit (BackOffAsked retries' retryContext) ;;
  let currentTimeDelay := backOffStrategy retries' retryContext in
  emit (RetryOnAsked error (lastRequestStatusCode st)) ;;
  let retryNeeded := retryOn error (lastRequestStatusCode st) in
  (if negb retryNeeded
   then throwError (error_text error) (Some onErrorInResponse) None true
   else ret tt) ;;
  match onRetry with
  | Some h => emit (Retried h retryContext)
  | None => ret tt
  end ;;
  currentTimeStamp <- now ;;
  emit (Slept currentTimeDelay) ;;
  ret (mkRetryState retries' currentTimeDelay currentTimeStamp
         (lastRequestStatusCode st)).

(** [while (retries < maxRetries) { ... }] and the [return] after it. The
    status code is assigned as soon as [fetch] resolves, so the [catch]
    block sees it. *)
Fixpoint retryLoop (fuel : nat) (st : RetryState) (timeAtFirstRequest : Z)
    (requestUrl requestMethod : string) (requestHeaders : object)
    (requestBody : string) (onErrorInResponse : Handler)
    (validateResponse : list Validator) (previousFetchData : object)
    (maxRetries : Z) (backOffStrategy : Z -> RetryContext -> Z)
    (onRetry : option Hook) (retryOn : Error -> Z -> bool)
    (observability : observingFuncsType) (currentFetchData : value)
    (responseParseType : string) (proxy : option string) : M value :=
  match fuel with
  | O => fun w => (OutOfFuel, w)
  | S fuel' =>
      if (retries st <? maxRetries)%Z then
        match onRequestStart observability with
        | Some h => emit (RequestStarted h currentFetchData)
        | None => ret tt
        end ;;
        outcome <- fetch (attemptRequest requestUrl requestMethod
                            requestHeaders requestBody responseParseType proxy) ;;
        let st1 :=
          match outcome with
          | Responded providerResponse =>
              mkRetryState (retries st) (lastRetryDelay st)
                (lastAttemptTimeStamp st) (status providerResponse)
          | Rejected _ => st
          end in
        result <- try_catch
                    (parsed <- settle outcome onErrorInResponse validateResponse
                                 previousFetchData responseParseType proxy ;;
                     ret (inl parsed))
                    (fun error =>
                       st2 <- afterFailure error st1 timeAtFirstRequest
                                onErrorInResponse previousFetchData maxRetries
                                backOffStrategy onRetry retryOn ;;
                       ret (inr st2)) ;;
        match result with
        | inl parsed => ret parsed
        | inr st2 =>
            retryLoop fuel' st2 timeAtFirstRequest requestUrl requestMethod
              requestHeaders requestBody onErrorInResponse validateResponse
              previousFetchData maxRetries backOffStrategy onRetry retryOn
              observability currentFetchData responseParseType proxy
        end
      else ret (Obj [("error", Str "Max Retries Reached")])
  end.

Definition waitAndRetryRequest (requestUrl requestMethod : string)
    (requestHeaders : object) (requestBody : string) (timeout : Z)
    (onErrorInResponse : Handler) (validateResponse : list Validator)
    (previousFetchData : object) (maxRetries : Z)
    (backOffStrategy : Z -> RetryContext -> Z) (onRetry : option Hook)
    (retryOn : Error -> Z -> bool) (observability : observingFuncsType)
    (currentFetchData : value) (responseParseType : string)
    (proxy : option string) : M value :=
  timeAtFirstRequest <- now ;;
  retryLoop (S (Z.to_nat maxRetries))
    (mkRetryState 0 0 timeAtFirstRequest 0) timeAtFirstRequest
    requestUrl requestMethod requestHeaders requestBody onErrorInResponse
    validateResponse previousFetchData maxRetries backOffStrategy onRetry
    retryOn observability currentFetchData responseParseType proxy.

(** *** The pipeline on the server ([server/utils.ts]) *)

(** The request half a runner saves before it sends. *)
Definition requestRecord (requestMethod requestUrl : string)
    (params : initializedParamsType) : value :=
  Obj [("method", Str requestMethod); ("url", Str requestUrl);
       ("urlParams", Obj (p_urlParams params));
       ("headers", Obj (p_headers params)); ("body", p_bodyParams params)].

(** The body of [for (const url in globals.reqUrls)] in
    [getCustomProviderUserInfo]. *)
Definition serverStep (globals : globalInitializedParamsType)
    (allParams : object) (url : string) : M globalInitializedParamsType :=
  params <- initParams true (reqUrls globals) url (observingFuncs globals)
              (g_globalTimeout globals)
              (assign (nullish (givenParams globals) [])
                 (match keys (reqUrls globals) with
                  | first :: _ => if first =? url then allParams else []
                  | [] => []
                  end))
              (previousFetchData globals) (Some allParams) ;;
  let requestUrl :=
    url ++ convertToUrlParams (p_urlParams params) (p_percentEncode params) in
  let requestMethod := p_method params in
  let requestHeaders := p_headers params in
  requestBody <- encodeBody (p_bodyParams params) (p_bodyEncodingFormat params)
                   (p_onError params) ;;
  let sent :=
    with_prop (p_currentFetchData params) "request"
      (requestRecord requestMethod requestUrl params) in
  providerResponse <- waitAndRetryRequest requestUrl requestMethod
                        requestHeaders requestBody (p_timeout params)
                        (p_onErrorInResponse params) (p_validateResponse params)
                        (previousFetchData globals) (p_maxRetries params)
                        (p_backOffStrategy params) (Some (p_onRetry params))
                        (p_retryOn params) (observingFuncs globals) sent
                        (p_responseParseType params) None ;;
  let currentFetchData :=
    with_prop sent "response"
      (match providerResponse with
       | Undefined | Null => Str "Error"
       | v => v
       end) in
  match onRequestEnd (observingFuncs globals) with
  | Some h => emit (RequestEnded h currentFetchData)
  | None => ret tt
  end ;;
  stored <- storeValuesToReturn (p_returnAfterResponse params) providerResponse
              (p_onErrorInResponse params) ;;
  emit (BeforeRedirectCalled (p_beforeRedirect params)
          (previousFetchData globals) currentFetchData) ;;
  ret (with_previousFetchData
         (with_toReturnObject globals (assign (toReturnObject globals) stored))
         (set (p_name params) currentFetchData (previousFetchData globals))).

Fixpoint serverSteps (globals : globalInitializedParamsType)
    (allParams : object) (urls : list string)
  : M globalInitializedParamsType :=
  match urls with
  | [] => ret globals
  | url :: rest =>
      next <- serverStep globals allParams url ;;
      serverSteps next allParams rest
  end.

(** *** A provider name that is not an own key *)

(** The object [config.customProviders] as its prototype chain is asked
    about it: a plain object with these own keys. *)
Definition providersObject (providers : list (string * customProviderType))
  : value :=
  Obj (map (fun kv => (fst kv, Obj [])) providers).

(** [config.customProviders[provider]] for a name that is not an own key
    of the object: what its prototype chain holds under that name
    ([toString], [constructor], ...), [undefined] when it holds nothing. *)
Definition inheritedProvider (config : configType) (provider : string)
  : value :=
  match cfg_customProviders config with
  | Some providers =>
      nullish (chain (providersObject providers) provider) Undefined
  | None => Undefined
  end.

Definition eventKey (eventName : eventNameType) : string :=
  match eventName with
  | beforeRedirect => "beforeRedirect"
  | afterRedirect => "afterRedirect"
  end.

(** [initGlobalParams] on a truthy value that the prototype chain gave in
    place of a provider description: its reads are those of the value, and
    [urls[eventName]] throws a [TypeError] when the value has no [urls].
    The result is what the runners go on to test: [givenParams],
    [serverEndPoint] and [reqUrls]. *)
Definition initGlobalParams_inherited (configProvider : value)
    (eventName : eventNameType) : M (value * value * value) :=
  let givenParams := member configProvider "paramsList" in
  let serverEndPoint := member configProvider "serverEndPoint" in
  let urls := member configProvider "urls" in
  reqUrls <- read urls (eventKey eventName) ;;
  ret (givenParams, serverEndPoint, reqUrls).

(** [reqUrls instanceof Object && Object.entries(reqUrls).length > 0]. *)
Definition has_entries (reqUrls : value) : bool :=
  match reqUrls with
  | Obj (_ :: _) | Arr (_ :: _) => true
  | _ => false
  end.

(** The steps of a whole provider description that sits on the prototype
    chain are no data of the configuration as it is typed here: the run
    over them is not followed, and has no outcome in this development. *)
Definition unfollowed {A : Type} : M A := fun w => (OutOfFuel, w).

(** [getCustomProviderUserInfo] from [initGlobalParams] on, for a truthy
    value that the prototype chain gave. *)
Definition getCustomProviderUserInfo_inherited (configProvider : value)
    (provider : string) (globalErrorHandler : Handler)
  : M (option (object * object)) :=
  globals <- initGlobalParams_inherited configProvider afterRedirect ;;
  let '(givenParams, serverEndPoint, reqUrls) := globals in
  if negb (truthy givenParams) then
    throwError ("Params list not found for custom provider: " ++ provider)
      (Some globalErrorHandler) None true ;;
    ret None
  else if negb (truthy serverEndPoint) then
    throwError ("Server End Point not found for custom provider: " ++ provider)
      (Some globalErrorHandler) None true ;;
    ret None
  else if negb (has_entries reqUrls) then
    throwError
      ("URLs to fetch before redirecting not found for custom provider: "
       ++ provider)
      (Some globalErrorHandler) None true ;;
    ret None
  else unfollowed.

(** [getCustomProviderUserInfo]. The guard reads
    [config.customProviders[provider]]: the description under an own key,
    or else what the prototype chain holds under the name. *)
Definition getCustomProviderUserInfo (config : configType) (provider : string)
    (allParams : object) : M (option (object * object)) :=
  let globalErrorHandler := nullish (cfg_globalErrorHandler config) silent in
  match match cfg_customProviders config with
        | Some providers => lookup provider providers
        | None => None
        end with
  | None =>
      let configProvider := inheritedProvider config provider in
      if negb (truthy configProvider) then
        throwError "Invalid Custom Provider!" (Some globalErrorHandler)
          (Some "Custom Provider Field empty or custom provider is not included in the list of custom providers")
          true ;;
        ret None
      else
        getCustomProviderUserInfo_inherited configProvider provider
          globalErrorHandler
  | Some configProvider =>
      let globals :=
        initGlobalParams config configProvider globalErrorHandler afterRedirect in
      match givenParams globals with
      | None =>
          throwError ("Params list not found for custom provider: " ++ provider)
            (Some globalErrorHandler) None true ;;
          ret None
      | Some _ =>
          if g_serverEndPoint globals =? EmptyString then
            throwError
              ("Server End Point not found for custom provider: " ++ provider)
              (Some globalErrorHandler) None true ;;
            ret None
          else
            match reqUrls globals with
            | [] =>
                throwError
                  ("URLs to fetch before redirecting not found for custom provider: "
                   ++ provider)
                  (Some globalErrorHandler) None true ;;
                ret None
            | _ :: _ =>
                final <- serverSteps globals allParams (keys (reqUrls globals)) ;;
                ret (Some (previousFetchData final,
                           set "name" (Str provider) (toReturnObject final)))
            end
      end
  end.

(** *** The pipeline in the browser and the redirect bridge
    ([client/utils.ts]) *)

Definition with_currentFetchData (params : initializedParamsType)
    (record : value) : initializedParamsType :=
  mkInitialized (p_details params) record (p_name params) (p_proxy params)
    (p_beforeRedirect params) (p_method params) (p_percentEncode params)
    (p_onError params) (p_bodyEncodingFormat params) (p_timeout params)
    (p_retriesObject params) (p_maxRetries params) (p_backOffStrategy params)
    (p_retryOn params) (p_onRetry params) (p_urlParams params)
    (p_headers params) (p_bodyParams params) (p_responseParseType params)
    (p_validateResponse params) (p_returnAfterResponse params)
    (p_onErrorInResponse params).

Definition redirectOnCustomProviderButtonClick (requestMethod : string)
    (params : initializedParamsType) (url : string)
    (previousFetchData : object) (storeFetchesAs storeToReturnAs : string)
    (toReturnObject : object) (storeState : bool) (state : value) : M unit :=
  let currentFetchData := redirectRecord requestMethod params in
  let saved := prop (prop currentFetchData "request") "body" in
  let redirectForm :=
    createFormWithParams
      (assign (p_urlParams params)
         (if typeof saved =? "string" then [("body", saved)] else entries saved))
      url (to_string (prop (prop currentFetchData "request") "method")) in
  emit (BeforeRedirectCalled (p_beforeRedirect params) previousFetchData
          currentFetchData) ;;
  let previousFetchData' :=
    set (p_name params) currentFetchData previousFetchData in
  localStorage_setItem storeFetchesAs
    (encodeToBase64 (JSON_stringify (Obj previousFetchData'))) ;;
  localStorage_setItem storeToReturnAs
    (encodeToBase64 (JSON_stringify (Obj toReturnObject))) ;;
  (if storeState && truthy state
   then localStorage_setItem "state" (encodeToBase64 (to_string state))
   else ret tt) ;;
  emit (FormAppended redirectForm) ;;
  if negb (truthy (match u_test (p_details params) with
                   | Some b => Bool b
                   | None => Undefined
                   end))
  then emit (FormSubmitted redirectForm)
  else ret tt.

(** The [state] argument of the redirect: [paramsList.state], called when it
    is a function. *)
Definition stateOf (configProvider : customProviderType) : M value :=
  match cp_paramsList configProvider with
  | Some paramsList =>
      let state := member (Obj paramsList) "state" in
      if truthy state then
        match state with
        | Str s => ret (Str s)
        | Fun f => ret (call f)
        | other => throw (mkError "TypeError" (type_error_message other "state") None)
        end
      else ret Null
  | None => ret Null
  end.

(** The body of [for (const url in globals.reqUrls)] in
    [handleCustomProvidersLoginButtonClick]; [inr tt] after the redirect,
    which ends the function. *)
Definition clientStep (configProvider : customProviderType)
    (globals : globalInitializedParamsType) (index : nat) (url : string)
  : M (globalInitializedParamsType + unit) :=
  let redirectThisTime := (index =? length (reqUrls globals) - 1)%nat in
  params <- initParams false (reqUrls globals) url (observingFuncs globals)
              (g_globalTimeout globals) (nullish (givenParams globals) [])
              (previousFetchData globals) None ;;
  let requestUrl :=
    url ++ convertToUrlParams (p_urlParams params) (p_percentEncode params) in
  let requestMethod := p_method params in
  let requestHeaders := p_headers params in
  requestBody <- encodeBody (p_bodyParams params) (p_bodyEncodingFormat params)
                   (p_onError params) ;;
  let sent :=
    with_prop (p_currentFetchData params) "request"
      (requestRecord requestMethod requestUrl params) in
  if redirectThisTime then
    state <- stateOf configProvider ;;
    redirectOnCustomProviderButtonClick requestMethod
      (with_currentFetchData params sent) url (previousFetchData globals)
      (storeFetchesAs globals) (storeToReturnAs globals)
      (toReturnObject globals) (g_mode globals =? "ls") state ;;
    ret (inr tt)
  else
    providerResponse <- waitAndRetryRequest requestUrl requestMethod
                          requestHeaders requestBody (p_timeout params)
                          (p_onErrorInResponse params)
                          (p_validateResponse params)
                          (previousFetchData globals) (p_maxRetries params)
                          (p_backOffStrategy params) (Some (p_onRetry params))
                          (p_retryOn params) (observingFuncs globals) sent
                          (p_responseParseType params) (p_proxy params) ;;
    let currentFetchData := with_prop sent "response" providerResponse in
    match onRequestEnd (observingFuncs globals) with
    | Some h => emit (RequestEnded h currentFetchData)
    | None => ret tt
    end ;;
    stored <- storeValuesToReturn (p_returnAfterResponse params)
                providerResponse (p_onErrorInResponse params) ;;
    emit (BeforeRedirectCalled (p_beforeRedirect params)
            (previousFetchData globals) currentFetchData) ;;
    ret (inl (with_previousFetchData
                (with_toReturnObject globals
                   (assign (toReturnObject globals) stored))
                (set (p_name params) currentFetchData
                   (previousFetchData globals)))).

Fixpoint clientSteps (configProvider : customProviderType)
    (globals : globalInitializedParamsType) (index : nat)
    (urls : list string) : M unit :=
  match urls with
  | [] => ret tt
  | url :: rest =>
      step <- clientStep configProvider globals index url ;;
      match step with
      | inl next => clientSteps configProvider next (S index) rest
      | inr _ => ret tt
      end
  end.

(** [handleCustomProvidersLoginButtonClick] from [initGlobalParams] on, for
    a truthy value that the prototype chain gave. *)
Definition handleCustomProvidersLoginButtonClick_inherited
    (configProvider : value) (provider : string)
    (globalErrorHandler : Handler) : M unit :=
  globals <- initGlobalParams_inherited configProvider beforeRedirect ;;
  let '(givenParams, serverEndPoint, reqUrls) := globals in
  if negb (truthy givenParams) then
    throwError ("Params list not found for custom provider: " ++ provider)
      (Some globalErrorHandler) None true
  else if negb (truthy serverEndPoint) then
    throwError ("Server End Point not found for custom provider: " ++ provider)
      (Some globalErrorHandler) None true
  else
    (if negb (has_entries reqUrls) then
       throwError
         ("URLs to fetch before redirecting not found for custom provider: "
          ++ provider)
         (Some globalErrorHandler) None true
     else ret tt) ;;
    unfollowed.

(** [handleCustomProvidersLoginButtonClick], with the same guard as the
    server runner. *)
Definition handleCustomProvidersLoginButtonClick (config : configType)
    (provider : string) : M unit :=
  let globalErrorHandler := nullish (cfg_globalErrorHandler config) silent in
  match match cfg_customProviders config with
        | Some providers => lookup provider providers
        | None => None
        end with
  | None =>
      let configProvider := inheritedProvider config provider in
      if negb (truthy configProvider) then
        throwError "Invalid Custom Provider!" (Some globalErrorHandler)
          (Some "Custom Provider Field empty or custom provider is not included in the list of custom providers")
          true
      else
        handleCustomProvidersLoginButtonClick_inherited configProvider
          provider globalErrorHandler
  | Some configProvider =>
      let globals :=
        initGlobalParams config configProvider globalErrorHandler beforeRedirect in
      match givenParams globals with
      | None =>
          throwError ("Params list not found for custom provider: " ++ provider)
            (Some globalErrorHandler) None true
      | Some _ =>
          if g_serverEndPoint globals =? EmptyString then
            throwError
              ("Server End Point not found for custom provider: " ++ provider)
              (Some globalErrorHandler) None true
          else
            match reqUrls globals with
            | [] =>
                throwError
                  ("URLs to fetch before redirecting not found for custom provider: "
                   ++ provider)
                  (Some globalErrorHandler) None true
            | _ :: _ => ret tt
            end ;;
            clientSteps configProvider globals 0 (keys (reqUrls globals))
      end
  end.

(** [handleAfterRedirectForCustomProviders], from its [try] to the two
    [removeItem] calls: the stored ledger and accumulator are read, decoded
    and merged into the fresh globals, then removed. [None]: the function
    returned inside the [try]. *)
Definition restoreStoredData (globals : globalInitializedParamsType)
    (globalErrorHandler : Handler)
  : M (option globalInitializedParamsType) :=
  restored <-
    try_catch
      (rawPreviousStoredFetchData <-
         localStorage_getItem (storeFetchesAs globals) ;;
       match rawPreviousStoredFetchData with
       | None | Some EmptyString =>
           throwError "Previously stored fetch data is unavailable"
             (Some globalErrorHandler) None true ;;
           ret (inr tt)
       | Some rawFetchData =>
           rawPreviousToReturnObject <-
             localStorage_getItem (storeToReturnAs globals) ;;
           match rawPreviousToReturnObject with
           | None | Some EmptyString =>
               throwError "Previously stored fetch data is unavailable"
                 (Some globalErrorHandler) None true ;;
               ret (inr tt)
           | Some rawToReturn =>
               fetchText <- decodeFromBase64 rawFetchData ;;
               previousStoredFetchData <- JSON_parse_or_throw fetchText ;;
               toReturnText <- decodeFromBase64 rawToReturn ;;
               previousToReturnObject <- JSON_parse_or_throw toReturnText ;;
               ret (inl (with_toReturnObject
                           (with_previousFetchData globals
                              (assign (previousFetchData globals)
                                 (entries previousStoredFetchData)))
                           (assign (toReturnObject globals)
                              (entries previousToReturnObject))))
           end
       end)
      (fun error =>
         throwError
           ("error loading previous fetchData or previous return values: "
            ++ error_text error)
           (Some globalErrorHandler) None true ;;
         ret (inl globals)) ;;
  match restored with
  | inr _ => ret None
  | inl globals' =>
      localStorage_removeItem (storeFetchesAs globals) ;;
      localStorage_removeItem (storeToReturnAs globals) ;;
      ret (Some globals')
  end.

(** *** More of [globals/utils.ts] *)

(** [decodeURIComponent(v)], the argument read as a string. *)
Definition decodeURIComponent_or_throw (v : value) : M string :=
  match decodeURIComponent (to_string v) with
  | Some s => ret s
  | None => throw (mkError "URIError" "URI malformed" None)
  end.

Definition cleanObject (obj : object) : object :=
  fold_left
    (fun result kv =>
       if truthy (snd kv) then set (fst kv) (snd kv) result else result)
    obj [].

(** [s.startsWith("{")] and [s.endsWith("}")]. *)
Definition startsWith (c : ascii) (s : string) : bool :=
  match s with
  | String x _ => (x =? c)%char
  | EmptyString => false
  end.

Fixpoint endsWith (c : ascii) (s : string) : bool :=
  match s with
  | EmptyString => false
  | String x EmptyString => (x =? c)%char
  | String _ rest => endsWith c rest
  end.

(** [convertStringsToObject]: a value that is not a string has no
    [startsWith] method, and the call throws. *)
Fixpoint convertStrings_from (entries : object) (convertedObject : object)
  : M object :=
  match entries with
  | [] => ret convertedObject
  | (key, value) :: rest =>
      match value with
      | Str text =>
          convertStrings_from rest
            (if startsWith "{" text && endsWith "}" text then
               match JSON_parse text with
               | Some parsed => set key parsed convertedObject
               | None => convertedObject
               end
             else convertedObject)
      | Undefined | Null => throw (TypeError value "startsWith")
      | _ =>
          throw (mkError "TypeError" "value.startsWith is not a function" None)
      end
  end.

Definition convertStringsToObject (obj : object) : M object :=
  convertStrings_from obj [].

(** *** OAuth 1.0a helpers ([globals/oauth_1a_functions.ts]) *)

(** [s.split(sep)] for a separator of one character: the pieces between
    its occurrences, at least one. *)
Fixpoint split (sep : ascii) (s : string) : list string :=
  match s with
  | EmptyString => [EmptyString]
  | String c rest =>
      if (c =? sep)%char then EmptyString :: split sep rest
      else
        match split sep rest with
        | piece :: pieces => String c piece :: pieces
        | [] => [String c EmptyString]
        end
  end.

(** [const [key, value] = param.split("=")]. *)
Definition pairOf (param : string) : string * value :=
  let parts := split "=" param in
  (nth 0 parts EmptyString,
   match nth_error parts 1 with
   | Some v => Str v
   | None => Undefined
   end).

Fixpoint parseToken_from (params : list string) (toSearch : string) : value :=
  match params with
  | [] => Null
  | param :: rest =>
      if fst (pairOf param) =? toSearch then snd (pairOf param)
      else parseToken_from rest toSearch
  end.

Definition parseToken (requestToken : string) (toSearch : option string)
  : value :=
  parseToken_from (split "&" requestToken) (nullish toSearch "request_token").

(** [keys.sort()]: ascending in the order of the code units. *)
Fixpoint insert_sorted (k : string) (sorted : list string) : list string :=
  match sorted with
  | [] => [k]
  | k' :: rest =>
      if String.leb k k' then k :: k' :: rest
      else k' :: insert_sorted k rest
  end.

Definition Array_sort (l : list string) : list string :=
  fold_right insert_sorted [] l.

Definition sortObject (obj : object) : object :=
  fold_left (fun sorted key => set key (member (Obj obj) key) sorted)
    (Array_sort (keys obj)) [].

(** [Object.assign(obj1, obj2)]: the merged object, which is [obj1] itself,
    updated in place. *)
Definition mergeObjects (obj1 obj2 : object) : object := assign obj1 obj2.

Fixpoint decodeQueryParams_from (params : list string) (result : object)
  : M object :=
  match params with
  | [] => ret result
  | param :: rest =>
      let key := fst (pairOf param) in
      let current := member (Obj result) key in
      decoded <- decodeURIComponent_or_throw (snd (pairOf param)) ;;
      decodeQueryParams_from rest
        (if truthy current then
           match current with
           | Arr xs => set key (Arr (xs ++ [Str decoded])) result
           | _ => set key (Arr [current; Str decoded]) result
           end
         else set key (Str decoded) result)
  end.

Definition decodeQueryParams (url : string) : M object :=
  let query := nth 1 (split "?" url) EmptyString in
  if query =? EmptyString then ret []
  else decodeQueryParams_from (split "&" query) [].

(** [signingKey]: [token_secret || ""] is the secret itself for a string. *)
Definition signingKey (token_secret oauth_consumer_secret : string) : string :=
  pE oauth_consumer_secret ++ "&" ++ pE token_secret.

Definition baseUrl (url : string) : string :=
  pE (nth 0 (split "?" url) EmptyString).

Definition parameterString (oauth_data : object) (url : string) : M string :=
  query <- decodeQueryParams url ;;
  let params := sortObject (mergeObjects oauth_data query) in
  ret (pE (drop_last
             (fold_left
                (fun result kv =>
                   result ++ fst kv ++ "=" ++ pE (to_string (snd kv)) ++ "&")
                params EmptyString))).

Definition baseString (method url : string) (oauth_data : object) : M string :=
  let base := baseUrl url in
  parameters <- parameterString oauth_data url ;;
  ret (method ++ "&" ++ base ++ "&" ++ parameters).

(** *** The URLs of the built-in providers ([globals/functionHelpers.ts]) *)

(** The table of [getProviderUrl]. Building it reads
    [configProvider.tenant], which throws when there is no
    [configProvider]. *)
Definition providerUrls (configProvider : option supportedProviderType)
  : M value :=
  match configProvider with
  | None => throw (TypeError Undefined "tenant")
  | Some provider =>
      ret (Obj
             [("auth",
               Obj [("google", Str "https://accounts.google.com/o/oauth2/v2/auth");
                    ("github", Str "https://github.com/login/oauth/authorize");
                    ("microsoft",
                     Str ("https://login.microsoftonline.com/"
                          ++ nullish (sp_tenant provider) "common"
                          ++ "/oauth2/authorize"));
                    ("linkedin", Str "https://www.linkedin.com/oauth/v2/authorization");
                    ("salesforce",
                     Str "https://login.salesforce.com/services/oauth2/authorize");
                    ("discord", Str "https://discord.com/oauth2/authorize");
                    ("spotify", Str "https://accounts.spotify.com/authorize");
                    ("amazon", Str "https://www.amazon.com/ap/oa");
                    ("slack", Str "https://slack.com/oauth/v2/authorize");
                    ("twitch", Str "https://id.twitch.tv/oauth2/authorize");
                    ("facebook", Str "https://www.facebook.com/v16.0/dialog/oauth");
                    ("x", Str "https://api.twitter.com/oauth/authenticate");
                    ("twitter", Str "https://api.twitter.com/oauth/authenticate")]);
              ("token",
               Obj [("github", Str "https://github.com/login/oauth/access_token");
                    ("microsoft",
                     Str "https://login.microsoftonline.com/organizations/oauth2/v2.0/token");
                    ("linkedin", Str "https://www.linkedin.com/oauth/v2/accessToken");
                    ("salesforce",
                     Str "https://login.salesforce.com/services/oauth2/token");
                    ("discord", Str "https://discord.com/api/oauth2/token");
                    ("spotify", Str "https://accounts.spotify.com/api/token");
                    ("amazon", Str "https://api.amazon.co.uk/auth/o2/token");
                    ("slack", Str "https://slack.com/api/oauth.v2.access");
                    ("twitch", Str "https://id.twitch.tv/oauth2/token");
                    ("facebook",
                     Str "https://graph.facebook.com/v16.0/oauth/access_token");
                    ("x", Str "https://api.twitter.com/oauth/access_token");
                    ("twitter", Str "https://api.twitter.com/oauth/access_token")]);
              ("profile",
               Obj [("google", Str "https://www.googleapis.com/oauth2/v3/userinfo");
                    ("github", Str "https://api.github.com/user/emails");
                    ("microsoft", Str "https://graph.microsoft.com/v1.0/me");
                    ("linkedin", Str "https://api.linkedin.com/v2/userinfo");
                    ("salesforce",
                     Str "https://login.salesforce.com/services/oauth2/userinfo");
                    ("discord", Str "https://discord.com/api/users/@me");
                    ("spotify", Str "https://api.spotify.com/v1/me");
                    ("amazon", Str "https://api.amazon.com/user/profile");
                    ("slack", Str "https://slack.com/api/users.info");
                    ("twitch", Str "https://api.twitch.tv/helix/users");
                    ("facebook", Str "https://graph.facebook.com/v16.0/me");
                    ("x",
                     Str "https://api.twitter.com/1.1/account/verify_credentials.json");
                    ("twitter",
                     Str "https://api.twitter.com/1.1/account/verify_credentials.json")]);
              ("requestToken",
               Obj [("x", Str "https://api.twitter.com/oauth/request_token");
                    ("twitter", Str "https://api.twitter.com/oauth/request_token")])])
  end.

Definition getProviderUrl (provider : string) (urlType : option string)
    (configProvider : option supportedProviderType) : M value :=
  let urlType := nullish urlType "auth" in
  config <- getConfig ;;
  let globalErrorHandler := cfg_globalErrorHandler config in
  (if provider =? EmptyString then
     throwError "Provider not found!" globalErrorHandler
       (Some "Specify a provider name existing in the config file!") true
   else ret tt) ;;
  match configProvider, provider =? "microsoft" with
  | None, true =>
      throwError "Tenant not found!" globalErrorHandler
        (Some "A tenant name is required for microsoft oauth!") true ;;
      ret (Str "Error")
  | _, _ =>
      urls <- providerUrls configProvider ;;
      let ofType := member urls urlType in
      (if negb (truthy ofType) then
         throwError "Invalid url type!" globalErrorHandler
           (Some "The url type specified is invalid!") true
       else ret tt) ;;
      found <- read ofType provider ;;
      (if negb (truthy found) then
         throwError "Provider not implemented!" globalErrorHandler
           (Some "The provider specified is not implemented!") true
       else ret tt) ;;
      ret found
  end.

(** *** The server's proxy ([server/handleOAuth.ts]) *)



(** *** More of [client/utils.ts] *)

(** [handleRedirect]: the code (or the OAuth 1.0a token and verifier) is
    posted to the server. *)
Definition handleRedirect (provider serverUrl : string) (extraParams : object)
  : M responseDataType :=
  match extraParams with
  | _ :: _ =>
      outcome <- fetch (mkRequest serverUrl "POST"
                          [("Content-Type", Str "application/json")]
                          (Some (JSON_stringify
                                   (Obj (assign [("provider", Str provider)]
                                           extraParams))))) ;;
      match outcome with
      | Rejected e => ret (Failure "Error response from server:" (Some e))
      | Responded r =>
          match JSON_parse (body_text r) with
          | Some response => ret (Success response)
          | None =>
              ret (Failure "Error response from server:"
                     (Some (mkError "SyntaxError" EmptyString None)))
          end
      end
  | [] => ret (Failure "Access token not found" None)
  end.

(** *** Specification-level definitions *)

(** A nested-property lookup along a path: it ends at the node reached, or
    has no result when a segment is asked of a string, of [undefined] or of
    [null]. *)
Fixpoint walk (node : value) (segments : list string) : option value :=
  match segments with
  | [] => Some node
  | k :: rest =>
      match node with
      | Undefined | Null | Str _ => None
      | _ => walk (member node k) rest
      end
  end.

(** The projection a [toReturn] specification asks for: ["all"] is the
    response, a path is its walk. *)
Fixpoint project (response : value) (spec : toReturnType) (acc : object)
  : option object :=
  match spec with
  | [] => Some acc
  | (key, All) :: rest => project response rest (set key response acc)
  | (key, Path segments) :: rest =>
      match walk response segments with
      | Some v => project response rest (set key v acc)
      | None => None
      end
  end.

(** An attempt that got [outcome] from the network fails: the [try] block
    throws (rejected request, status that is not 2xx, unreadable body,
    proxy envelope, validator), whatever the world it runs in. *)
Definition fails (outcome : FetchOutcome) (onErrorInResponse : Handler)
    (validateResponse : list Validator) (previousFetchData : object)
    (responseParseType : string) (proxy : option string) : Prop :=
  forall w,
    exists e w',
      settle outcome onErrorInResponse validateResponse previousFetchData
        responseParseType proxy w = (Throw e, w').

(** The events of a report: a handler call or a validator call. *)
Definition is_report (e : Event) : Prop :=
  match e with
  | HandlerCalled _ _ _ | ValidatorCalled _ => True
  | _ => False
  end.

(** The events of one attempt: the start hook, the request, and the
    reports of its [try] block. *)
Definition is_attempt (e : Event) : Prop :=
  match e with
  | RequestStarted _ _ | Fetched _ | HandlerCalled _ _ _ | ValidatorCalled _ =>
      True
  | _ => False
  end.


(** An attempt that got [outcome] from the network succeeds with [v]: the
    [try] block returns it, whatever the world it runs in. *)
Definition succeeds (outcome : FetchOutcome) (onErrorInResponse : Handler)
    (validateResponse : list Validator) (previousFetchData : object)
    (responseParseType : string) (proxy : option string) (v : value) : Prop :=
  forall w,
    exists w',
      settle outcome onErrorInResponse validateResponse previousFetchData
        responseParseType proxy w = (Ret v, w').

(** What the start of an attempt adds to the trace: the call of
    [onRequestStart], when there is one. *)
Definition startEvents (observability : observingFuncsType)
    (currentFetchData : value) : list Event :=
  match onRequestStart observability with
  | Some h => [RequestStarted h currentFetchData]
  | None => []
  end.

(** The delays a trace awaited, in order. *)
Definition delays (t : list Event) : list Z :=
  flat_map (fun e => match e with Slept ms => [ms] | _ => [] end) t.

(** The requests a trace sent, in order. *)
Definition requests (t : list Event) : list Request :=
  flat_map (fun e => match e with Fetched r => [r] | _ => [] end) t.

(** The loop variables once [fetch] has settled: the status code is the
    response's. *)
Definition settled (st : RetryState) (outcome : FetchOutcome) : RetryState :=
  match outcome with
  | Responded providerResponse =>
      mkRetryState (retries st) (lastRetryDelay st) (lastAttemptTimeStamp st)
        (status providerResponse)
  | Rejected _ => st
  end.

(** The retry contexts of consecutive retries, from attempt number
    [attempt] on: each carries its attempt number, the delay awaited before
    it ([previous]), the retry budget and the ledger; the delay it is given
    is the [previous] one of the next. *)
Fixpoint chained (backOffStrategy : Z -> RetryContext -> Z) (maxRetries : Z)
    (previousFetchData : object) (attempt previous : Z)
    (contexts : list RetryContext) : Prop :=
  match contexts with
  | [] => True
  | context :: rest =>
      attemptNumber context = attempt
      /\ retryDelay context = previous
      /\ ctx_maxRetries context = maxRetries
      /\ ctx_previousFetchData context = previousFetchData
      /\ chained backOffStrategy maxRetries previousFetchData (attempt + 1)
           (backOffStrategy attempt context) rest
  end.

(** A custom provider a runner refuses: [config.customProviders[provider]]
    is falsy (the name is no own key, and the prototype chain holds nothing
    truthy under it), or the description has no params list, an empty
    server end point, or no step for the stage. *)
Definition misconfigured (config : configType) (provider : string)
    (eventName : eventNameType) : Prop :=
  match match cfg_customProviders config with
        | Some providers => lookup provider providers
        | None => None
        end with
  | None => truthy (inheritedProvider config provider) = false
  | Some configProvider =>
      cp_paramsList configProvider = None
      \/ cp_serverEndPoint configProvider = EmptyString
      \/ match eventName with
         | beforeRedirect => urls_beforeRedirect (cp_urls configProvider)
         | afterRedirect => urls_afterRedirect (cp_urls configProvider)
         end = []
  end.

(** An entry of local storage that is there and not empty. *)
Definition present (k : string) (stored : list (string * string)) : bool :=
  match lookup k stored with
  | Some (String _ _) => true
  | _ => false
  end.


(** A string in which the character [c] does not occur. *)
Definition free (c : ascii) (s : string) : Prop :=
  ~ In c (list_ascii_of_string s).

(** A key or a value of a query: none of [?], [&] and [=] occurs in it. *)
Definition plain (s : string) : Prop :=
  free "?" s /\ free "&" s /\ free "=" s.

(** The pair [key=value] of a form-encoded text. *)
Definition formPair (kv : string * string) : string :=
  fst kv ++ "=" ++ snd kv.

(** ** Verification *)

(** *** The monad *)

Lemma bind_Ret {A B} (m : M A) (k : A -> M B) w a w1 :
  m w = (Ret a, w1) -> bind m k w = k a w1.
Proof. intros H. unfold bind. now rewrite H. Qed.

Lemma bind_Throw {A B} (m : M A) (k : A -> M B) w e w1 :
  m w = (Throw e, w1) -> bind m k w = (Throw e, w1).
Proof. intros H. unfold bind. now rewrite H. Qed.

Lemma bind_inv_Ret {A B} (m : M A) (k : A -> M B) w b w' :
  bind m k w = (Ret b, w') ->
  exists a w1, m w = (Ret a, w1) /\ k a w1 = (Ret b, w').
Proof.
  unfold bind. destruct (m w) as [[a | e | ] w1]; intros H;
    try discriminate.
  now exists a, w1.
Qed.

(** Splits a hypothesis [x <- m ;; k = (Ret _, _)] into its two runs. *)
Ltac bind_inv H :=
  let a := fresh "a" in
  let w1 := fresh "w" in
  let H1 := fresh "Hrun" in
  apply bind_inv_Ret in H; destruct H as (a & w1 & H1 & H).

Lemma throwError_reports (message : string) (h : Handler)
    (custom : option string) (w : World) :
  throwError message (Some h) custom true w =
  (Throw (raised h message (nullish custom message)),
   reported h message (nullish custom message) w).
Proof.
  unfold throwError, raised, reported, bind, emit. cbn.
  destruct custom as [c | ]; cbn;
    destruct (h_react h (new_Error message) _); reflexivity.
Qed.


(** *** Objects *)

Lemma lookup_set (k k' : string) (v : value) (o : object) :
  lookup k (set k' v o) = if k =? k' then Some v else lookup k o.
Proof.
  induction o as [ | [k0 v0] o IH]; cbn.
  - reflexivity.
  - destruct (k' =? k0) eqn:E0; cbn.
    + apply String.eqb_eq in E0. subst k0.
      destruct (k =? k'); reflexivity.
    + destruct (k =? k0) eqn:E1.
      * apply String.eqb_eq in E1. subst k0.
        rewrite String.eqb_sym, E0. reflexivity.
      * apply IH.
Qed.

Lemma lookup_None_keys {A} (k : string) (o : list (string * A)) :
  lookup k o = None <-> ~ In k (keys o).
Proof.
  induction o as [ | [k0 v0] o IH]; cbn.
  - split; [intros _ [] | reflexivity].
  - destruct (k =? k0) eqn:E.
    + apply String.eqb_eq in E. subst. split; [discriminate | ].
      intros H. exfalso. apply H. now left.
    + apply String.eqb_neq in E. rewrite IH. split.
      * intros H [H0 | H0]; [congruence | exact (H H0)].
      * intros H H0. apply H. now right.
Qed.

Lemma set_new (k : string) (v : value) (o : object) :
  ~ In k (keys o) -> set k v o = (o ++ [(k, v)])%list.
Proof.
  induction o as [ | [k0 v0] o IH]; cbn; intros H.
  - reflexivity.
  - destruct (k =? k0) eqn:E.
    + apply String.eqb_eq in E. subst. exfalso. apply H. now left.
    + rewrite IH by (intros H0; apply H; now right). reflexivity.
Qed.

Lemma keys_set (k : string) (v : value) (o : object) :
  keys (set k v o) = if has k o then keys o else (keys o ++ [k])%list.
Proof.
  unfold has, keys. induction o as [ | [k0 v0] o IH]; cbn.
  - reflexivity.
  - destruct (k =? k0) eqn:E; cbn.
    + apply String.eqb_eq in E. now subst.
    + rewrite IH. destruct (lookup k o); reflexivity.
Qed.

Lemma NoDup_keys_set (k : string) (v : value) (o : object) :
  NoDup (keys o) -> NoDup (keys (set k v o)).
Proof.
  intros H. rewrite keys_set. unfold has.
  destruct (lookup k o) eqn:E; [assumption | ].
  apply lookup_None_keys in E.
  apply NoDup_app; [assumption | repeat constructor; intros [] | ].
  intros x Hx [Hk | []]. now subst.
Qed.

(** *** [encodeBody] *)

(** C8. [encodeBody] returns the JSON serialization for ["json"], the
    form-url-encoded string for ["url"] and the body itself for ["text"]
    with a string body. ["text"] with a body that is not a string, and any
    other format, is reported to the error handler and thrown: no body is
    returned. *)
Theorem encodeBody_by_format (body : value) (format : string)
    (onError : Handler) (w : World) :
  encodeBody body "json" onError w = (Ret (JSON_stringify body), w)
  /\ encodeBody body "url" onError w = (Ret (URLSearchParams_toString body), w)
  /\ (forall s, encodeBody (Str s) "text" onError w = (Ret s, w))
  /\ ((format = "text" /\ typeof body <> "string")
       \/ (format <> "json" /\ format <> "url" /\ format <> "text") ->
      encodeBody body format onError w =
      (Throw (raised onError "Invalid body encoding format specified"
                "The bodyEncodingFormat field have either one from 'json', 'url' or 'text' as its value"),
       reported onError "Invalid body encoding format specified"
         "The bodyEncodingFormat field have either one from 'json', 'url' or 'text' as its value"
         w)).
Proof.
  repeat split; try reflexivity.
  intros H. unfold encodeBody.
  assert (Hj : (format =? "json") = false).
  { apply String.eqb_neq. destruct H as [[-> _] | (H & _ & _)];
      [discriminate | exact H]. }
  assert (Hu : (format =? "url") = false).
  { apply String.eqb_neq. destruct H as [[-> _] | (_ & H & _)];
      [discriminate | exact H]. }
  rewrite Hj, Hu.
  assert (Hthrow :
            (throwError "Invalid body encoding format specified" (Some onError)
               (Some "The bodyEncodingFormat field have either one from 'json', 'url' or 'text' as its value")
               true ;; ret EmptyString) w =
            (Throw (raised onError "Invalid body encoding format specified"
                      "The bodyEncodingFormat field have either one from 'json', 'url' or 'text' as its value"),
             reported onError "Invalid body encoding format specified"
               "The bodyEncodingFormat field have either one from 'json', 'url' or 'text' as its value"
               w)).
  { erewrite bind_Throw by apply throwError_reports. reflexivity. }
  destruct H as [[-> Hb] | (_ & _ & Ht)].
  - destruct body; try exact Hthrow. now contradiction Hb.
  - apply String.eqb_neq in Ht. rewrite Ht.
    destruct body; exact Hthrow.
Qed.

(** *** [storeValuesToReturn] *)

Lemma descend_walks (h : Handler) (node : value) (val : string) (w : World) :
  match node with
  | Undefined | Null | Str _ =>
      descend h node val w =
      (Throw (raised h (access_error val) (access_error val)),
       reported h (access_error val) (access_error val) w)
  | _ => descend h node val w = (Ret (member node val), w)
  end.
Proof.
  unfold descend, access_error.
  destruct node; cbn; try reflexivity;
    try (erewrite bind_Throw by apply throwError_reports; reflexivity).
Qed.

Lemma descend_all_walk (h : Handler) (segments : list string) (node : value)
    (w : World) :
  match walk node segments with
  | Some v => descend_all h node segments w = (Ret v, w)
  | None =>
      exists val,
        descend_all h node segments w =
        (Throw (raised h (access_error val) (access_error val)),
         reported h (access_error val) (access_error val) w)
  end.
Proof.
  revert node. induction segments as [ | k rest IH]; intros node; cbn.
  - reflexivity.
  - pose proof (descend_walks h node k w) as Hd.
    destruct node;
      try (exists k; erewrite bind_Throw by exact Hd; reflexivity);
      (erewrite bind_Ret by exact Hd; apply IH).
Qed.

Lemma descend_all_dead_end (h : Handler) (before : list string)
    (val : string) (after : list string) (node reached : value) (w : World) :
  walk node before = Some reached ->
  typeof reached = "string" \/ typeof reached = "undefined" ->
  descend_all h node (before ++ val :: after)%list w =
  (Throw (raised h (access_error val) (access_error val)),
   reported h (access_error val) (access_error val) w).
Proof.
  revert node. induction before as [ | k rest IH]; intros node Hw Ht; cbn in *.
  - injection Hw as ->. pose proof (descend_walks h reached val w) as Hd.
    destruct reached; try (destruct Ht; discriminate);
      now erewrite bind_Throw by exact Hd.
  - pose proof (descend_walks h node k w) as Hd.
    destruct node; try discriminate;
      (erewrite bind_Ret by exact Hd; now apply IH).
Qed.

Lemma storeValues_from_project (h : Handler) (response : value)
    (spec : toReturnType) (acc : object) (w : World) :
  match project response spec acc with
  | Some result => storeValues_from spec response h acc w = (Ret result, w)
  | None =>
      exists val,
        storeValues_from spec response h acc w =
        (Throw (raised h (access_error val) (access_error val)),
         reported h (access_error val) (access_error val) w)
  end.
Proof.
  revert acc. induction spec as [ | [key [ | segments]] rest IH]; intros acc;
    cbn.
  - reflexivity.
  - apply IH.
  - pose proof (descend_all_walk h segments response w) as Hd.
    destruct (walk response segments) as [v | ].
    + erewrite bind_Ret by exact Hd. apply IH.
    + destruct Hd as [val Hd]. exists val.
      now erewrite bind_Throw by exact Hd.
Qed.

(** C5. [storeValuesToReturn] binds an ["all"] key to the whole response
    and a path key to the value its nested-property walk reaches; a walk
    that asks a segment of a string or of [undefined] is reported to the
    response error handler and thrown, and yields no accumulator. The first
    three parts are the one-key cases, the last two the general ones for any
    extraction specification. *)
Theorem storeValuesToReturn_projects (response : value) (h : Handler)
    (w : World) :
  (forall key,
      storeValuesToReturn [(key, All)] response h w = (Ret [(key, response)], w))
  /\ (forall key segments v,
        walk response segments = Some v ->
        storeValuesToReturn [(key, Path segments)] response h w =
        (Ret [(key, v)], w))
  /\ (forall key before val after node,
        walk response before = Some node ->
        typeof node = "string" \/ typeof node = "undefined" ->
        storeValuesToReturn [(key, Path (before ++ val :: after)%list)]
          response h w =
        (Throw (raised h (access_error val) (access_error val)),
         reported h (access_error val) (access_error val) w))
  /\ (forall spec acc,
        project response spec [] = Some acc ->
        storeValuesToReturn spec response h w = (Ret acc, w))
  /\ (forall spec,
        project response spec [] = None ->
        exists val,
          storeValuesToReturn spec response h w =
          (Throw (raised h (access_error val) (access_error val)),
           reported h (access_error val) (access_error val) w)).
Proof.
  unfold storeValuesToReturn. repeat split.
  - intros key segments v Hw. cbn.
    pose proof (descend_all_walk h segments response w) as Hd.
    rewrite Hw in Hd. now erewrite bind_Ret by exact Hd.
  - intros key before val after node Hw Ht. cbn.
    now erewrite bind_Throw by (eapply descend_all_dead_end; eassumption).
  - intros spec acc Hp.
    pose proof (storeValues_from_project h response spec [] w) as Hs.
    now rewrite Hp in Hs.
  - intros spec Hp.
    pose proof (storeValues_from_project h response spec [] w) as Hs.
    now rewrite Hp in Hs.
Qed.

(** *** [removeNestedObjects] and the map [getAllParams] returns *)

Lemma removeNestedObjects_from (k : string) (o acc : object) :
  NoDup (keys o) ->
  (forall x, In x (keys o) -> ~ In x (keys acc)) ->
  lookup k
    (fold_left
       (fun finalObj kv =>
          if negb (typeof (snd kv) =? "object")
          then set (fst kv) (snd kv) finalObj
          else finalObj) o acc) =
  match lookup k acc with
  | Some v => Some v
  | None =>
      match lookup k o with
      | Some v => if typeof v =? "object" then None else Some v
      | None => None
      end
  end.
Proof.
  revert acc. induction o as [ | [k0 v0] o IH]; intros acc Hnd Hdisj; cbn.
  - destruct (lookup k acc); reflexivity.
  - inversion Hnd as [ | ? ? Hk0 Hnd']; subst.
    assert (Hacc : lookup k0 acc = None).
    { apply lookup_None_keys. apply Hdisj. now left. }
    destruct (typeof v0 =? "object") eqn:Et; cbn.
    + rewrite IH; [ | assumption | intros x Hx; apply Hdisj; now right].
      destruct (lookup k acc) eqn:Ea; [reflexivity | ].
      destruct (k =? k0) eqn:E; [ | reflexivity].
      apply String.eqb_eq in E. subst k0.
      apply lookup_None_keys in Hk0. now rewrite Hk0, Et.
    + rewrite IH; [ | assumption | ].
      * rewrite lookup_set. destruct (k =? k0) eqn:E.
        -- apply String.eqb_eq in E. subst k0. now rewrite Hacc, Et.
        -- reflexivity.
      * intros x Hx. rewrite keys_set. unfold has. rewrite Hacc.
        intros Hin. apply in_app_or in Hin. destruct Hin as [Hin | [<- | []]].
        -- apply (Hdisj x); [now right | assumption].
        -- now apply Hk0.
Qed.

Lemma removeNestedObjects_lookup (k : string) (o : object) :
  NoDup (keys o) ->
  lookup k (removeNestedObjects o) =
  match lookup k o with
  | Some v => if typeof v =? "object" then None else Some v
  | None => None
  end.
Proof.
  intros Hnd. unfold removeNestedObjects.
  rewrite removeNestedObjects_from; [reflexivity | assumption | ].
  intros x _ [].
Qed.

(** Each entry leaves the map as it was or sets its own key. *)
Lemma resolveEntry_sets (isServer : bool) (givenParams ledger : object)
    (record : value) (h : Handler) (parser : option object) (acc : object)
    (key : string) (spec : ParamSpec) (w : World) (acc' : object)
    (w' : World) :
  resolveEntry isServer givenParams ledger record h parser acc key spec w =
  (Ret acc', w') ->
  acc' = acc \/ exists v, acc' = set key v acc.
Proof.
  destruct spec as [s | path | f | this generate | ]; cbn; intros H.
  - injection H as <- _. right. now eexists.
  - unfold resolveReference in H. do 4 bind_inv H.
    destruct (truthy a2).
    + injection H as <- _. right. now eexists.
    + do 3 bind_inv H. injection H as <- _. now left.
  - bind_inv H. injection H as <- _. right. now eexists.
  - do 2 bind_inv H. injection H as <- _. right. now eexists.
  - injection H as <- _. now left.
Qed.

Lemma resolveEntries_NoDup (isServer : bool) (givenParams ledger : object)
    (record : value) (h : Handler) (parser : option object)
    (params : requestParamsType) (acc : object) (w : World) (acc' : object)
    (w' : World) :
  resolveEntries isServer givenParams ledger record h parser params acc w =
  (Ret acc', w') ->
  NoDup (keys acc) -> NoDup (keys acc').
Proof.
  revert acc w. induction params as [ | [key spec] rest IH];
    intros acc w H Hnd; cbn in H.
  - now injection H as <- _.
  - bind_inv H. apply (IH _ _ H).
    apply resolveEntry_sets in Hrun. destruct Hrun as [-> | [v ->]].
    + assumption.
    + now apply NoDup_keys_set.
Qed.

(** What [getAllParams] does keep: the map it returns holds exactly the
    resolved keys whose values are not of type object, by the test the
    code makes ([typeof], which is ["object"] for plain objects and
    arrays). A key is bound in it if and only if it resolved to that value
    and the test lets the value pass; a function passes it. *)
Theorem getAllParams_drops_objects (isServer : bool) (paramName : string)
    (givenParams : object) (params : requestParamsType) (ledger : object)
    (record : value) (h : Handler) (parser : option object) (w : World)
    (result : object) (w' : World) :
  getAllParams isServer paramName givenParams params ledger record h parser w =
  (Ret result, w') ->
  exists resolved,
    resolveEntries isServer givenParams ledger record h parser params [] w =
    (Ret resolved, w')
    /\ result = removeNestedObjects resolved
    /\ (forall k v,
          lookup k result = Some v <->
          lookup k resolved = Some v /\ typeof v <> "object")
    /\ (forall k v, lookup k result = Some v -> typeof v <> "object").
Proof.
  unfold getAllParams. intros H. bind_inv H. injection H as <- <-.
  exists a. split; [assumption | ]. split; [reflexivity | ].
  assert (Hnd : NoDup (keys a)).
  { eapply resolveEntries_NoDup; [eassumption | constructor]. }
  assert (Hiff : forall k v,
             lookup k (removeNestedObjects a) = Some v <->
             lookup k a = Some v /\ typeof v <> "object").
  { intros k v. rewrite removeNestedObjects_lookup by assumption.
    destruct (lookup k a) as [x | ]; [ | split; [discriminate | intros [? _]; discriminate]].
    destruct (typeof x =? "object") eqn:Et.
    - apply String.eqb_eq in Et. split; [discriminate | ].
      intros [Hx Hv]. injection Hx as ->. contradiction.
    - apply String.eqb_neq in Et. split.
      + intros Hx. injection Hx as ->. now split.
      + now intros [Hx _]. }
  split; [exact Hiff | ].
  intros k v Hk. now apply Hiff in Hk.
Qed.

(** *** [initParams] *)

(** C3. For a step that [initParams] initializes, the timeout is the step's
    own or else the global one, and every retry field the step leaves out
    gets its default: [maxRetries] is 2, the retry predicate holds exactly
    for the status codes 429 and 503, and the back-off function returns the
    timeout for every attempt number and retry context. A step with no
    retry policy at all gets the three of them. *)
Theorem initParams_retry_defaults (isServer : bool)
    (reqUrls : redirectUrlsObjectType) (url : string)
    (observing : observingFuncsType) (globalTimeout : Z)
    (givenParams ledger : object) (parser : option object) (w : World)
    (details : UrlType) (params : initializedParamsType) (w' : World) :
  lookup url reqUrls = Some details ->
  initParams isServer reqUrls url observing globalTimeout givenParams ledger
    parser w = (Ret params, w') ->
  let retriesObject :=
    nullish (rq_retries (u_request details)) (mkRetries None None None None) in
  let defaults (maxRetries retryOn backOff : Prop) :=
    (r_maxRetries retriesObject = None -> maxRetries)
    /\ (r_retryOn retriesObject = None -> retryOn)
    /\ (r_backOffStrategy retriesObject = None -> backOff) in
  p_timeout params = nullish (rq_timeout (u_request details)) globalTimeout
  /\ defaults
       (p_maxRetries params = 2%Z)
       (forall error statusCode,
           p_retryOn params error statusCode = true <->
           statusCode = 429%Z \/ statusCode = 503%Z)
       (forall attempt context,
           p_backOffStrategy params attempt context = p_timeout params)
  /\ (rq_retries (u_request details) = None ->
      p_maxRetries params = 2%Z
      /\ (forall error statusCode,
            p_retryOn params error statusCode = true <->
            statusCode = 429%Z \/ statusCode = 503%Z)
      /\ (forall attempt context,
            p_backOffStrategy params attempt context = p_timeout params)).
Proof.
  intros Hd H. unfold initParams in H. rewrite Hd in H.
  do 3 bind_inv H. injection H as <- _. cbn.
  assert (Hcodes : forall statusCode : Z,
             ((statusCode =? 429) || (statusCode =? 503))%Z = true <->
             statusCode = 429%Z \/ statusCode = 503%Z).
  { intros c. rewrite orb_true_iff, !Z.eqb_eq. reflexivity. }
  split; [reflexivity | ]. split; [split; [ | split] | ].
  - intros E. now rewrite E.
  - intros E error statusCode. rewrite E. apply Hcodes.
  - intros E attempt context. now rewrite E.
  - intros E. rewrite E. cbn.
    split; [reflexivity | ]. split; [ | reflexivity].
    intros error statusCode. apply Hcodes.
Qed.

(** *** What a computation adds to the trace *)

Lemma adds_nothing {A} (P : Event -> Prop) (m : M A) :
  (forall w r w', m w = (r, w') -> trace w' = trace w) -> adds P m.
Proof.
  intros H w r w' Hm. exists []. rewrite app_nil_r. split.
  - now apply H in Hm.
  - constructor.
Qed.

Lemma adds_ret {A} (P : Event -> Prop) (a : A) : adds P (ret a).
Proof. apply adds_nothing. unfold ret. intros w r w' H. now injection H as _ <-. Qed.

Lemma adds_throw {A} (P : Event -> Prop) (e : Error) : adds P (@throw A e).
Proof. apply adds_nothing. unfold throw. intros w r w' H. now injection H as _ <-. Qed.

Lemma adds_now (P : Event -> Prop) : adds P now.
Proof. apply adds_nothing. unfold now. intros w r w' H. now injection H as _ <-. Qed.

Lemma adds_emit (P : Event -> Prop) (e : Event) : P e -> adds P (emit e).
Proof.
  intros He w r w' H. unfold emit in H. injection H as _ <-. cbn.
  exists [e]. split; [reflexivity | now repeat constructor].
Qed.

Lemma adds_bind {A B} (P : Event -> Prop) (m : M A) (k : A -> M B) :
  adds P m -> (forall a, adds P (k a)) -> adds P (bind m k).
Proof.
  intros Hm Hk w r w' H. unfold bind in H.
  destruct (m w) as [[a | e | ] w1] eqn:E.
  - destruct (Hm _ _ _ E) as (added1 & H1 & F1).
    destruct (Hk a _ _ _ H) as (added2 & H2 & F2).
    exists (added1 ++ added2)%list. rewrite H2, H1, app_assoc.
    split; [reflexivity | now apply Forall_app].
  - injection H as _ <-. exact (Hm _ _ _ E).
  - injection H as _ <-. exact (Hm _ _ _ E).
Qed.


Lemma adds_throwError (P : Event -> Prop) (message : string)
    (h : option Handler) (custom : option string) (useThrow : bool) :
  (forall l e d, P (HandlerCalled l e d)) ->
  adds P (throwError message h custom useThrow).
Proof.
  intros HP. unfold throwError. apply adds_bind.
  - destruct h as [h | ]; [ | apply adds_throw].
    apply adds_bind; [apply adds_emit, HP | ].
    intros _. destruct (h_react h _ _); [apply adds_throw | apply adds_ret].
  - intros _. destruct useThrow; [apply adds_throw | apply adds_ret].
Qed.

Lemma adds_weaken {A} (P Q : Event -> Prop) (m : M A) :
  (forall e, P e -> Q e) -> adds P m -> adds Q m.
Proof.
  intros HPQ Hm w r w' H. destruct (Hm _ _ _ H) as (added & Ht & F).
  exists added. split; [assumption | ].
  eapply Forall_impl; [ | exact F]. exact HPQ.
Qed.

Lemma fetches_app (t added : list Event) :
  fetches (t ++ added) = (fetches t + fetches added)%nat.
Proof. unfold fetches. now rewrite filter_app, length_app. Qed.

Lemma fetches_reports (added : list Event) :
  Forall is_report added -> fetches added = 0%nat.
Proof.
  induction 1 as [ | e rest He _ IH]; [reflexivity | ].
  unfold fetches in *. cbn. destruct e; cbn in *; try contradiction; exact IH.
Qed.

(** *** The request executor *)

(** *** Termination *)

Lemma finishes_ret {A} (a : A) : finishes (ret a).
Proof. intros w. discriminate. Qed.

Lemma finishes_throw {A} (e : Error) : finishes (@throw A e).
Proof. intros w. discriminate. Qed.

Lemma finishes_emit (e : Event) : finishes (emit e).
Proof. intros w. discriminate. Qed.

Lemma finishes_now : finishes now.
Proof. intros w. discriminate. Qed.

Lemma finishes_fetch (r : Request) : finishes (fetch r).
Proof. intros w. discriminate. Qed.

Lemma finishes_bind {A B} (m : M A) (k : A -> M B) :
  finishes m -> (forall a, finishes (k a)) -> finishes (bind m k).
Proof.
  intros Hm Hk w. unfold bind. specialize (Hm w).
  destruct (m w) as [[a | e | ] w1]; cbn in *.
  - apply Hk.
  - discriminate.
  - now contradiction Hm.
Qed.

Lemma finishes_try_catch {A} (body : M A) (handler : Error -> M A) :
  finishes body -> (forall e, finishes (handler e)) ->
  finishes (try_catch body handler).
Proof.
  intros Hb Hh w. unfold try_catch. specialize (Hb w).
  destruct (body w) as [[a | e | ] w1]; cbn in *.
  - discriminate.
  - apply Hh.
  - now contradiction Hb.
Qed.

Lemma finishes_throwError (message : string) (h : option Handler)
    (custom : option string) (useThrow : bool) :
  finishes (throwError message h custom useThrow).
Proof.
  unfold throwError. apply finishes_bind.
  - destruct h as [h | ].
    + apply finishes_bind; [apply finishes_emit | intros _].
      destruct (h_react h _ _); [apply finishes_throw | apply finishes_ret].
    + apply finishes_throw.
  - intros _. destruct useThrow; [apply finishes_throw | apply finishes_ret].
Qed.

Lemma finishes_parseRequest (response : Response) (parseType : string)
    (h : Handler) :
  finishes (parseRequest response parseType h).
Proof.
  unfold parseRequest, JSON_parse_or_throw.
  destruct (parseType =? "json").
  - destruct (JSON_parse _); [apply finishes_ret | apply finishes_throw].
  - destruct (parseType =? "text"); [apply finishes_ret | ].
    apply finishes_bind; [apply finishes_throwError | intros _; apply finishes_ret].
Qed.

Lemma finishes_runValidators (validators : list Validator) :
  forall (index : nat) (ledger : object) (h : Handler),
    finishes (runValidators index validators ledger h).
Proof.
  induction validators as [ | v rest IH]; intros index ledger h;
    cbn [runValidators].
  - apply finishes_ret.
  - apply finishes_bind; [apply finishes_emit | intros _].
    apply finishes_bind; [ | intros _; apply IH].
    destruct (negb _); [apply finishes_throwError | apply finishes_ret].
Qed.

Lemma finishes_settle (outcome : FetchOutcome) (h : Handler)
    (validators : list Validator) (ledger : object) (parseType : string)
    (proxy : option string) :
  finishes (settle outcome h validators ledger parseType proxy).
Proof.
  unfold settle. destruct outcome as [e | response];
    [apply finishes_throw | ].
  apply finishes_bind.
  { destruct (negb _); [apply finishes_throwError | apply finishes_ret]. }
  intros _. apply finishes_bind; [apply finishes_parseRequest | intros parsed].
  apply finishes_bind.
  - destruct (in_use proxy); [ | apply finishes_ret].
    destruct (typeof parsed =? "object"); [ | apply finishes_ret].
    destruct parsed; try apply finishes_throw;
      (destruct (_ && _);
       [apply finishes_ret
       | apply finishes_bind;
         [apply finishes_throwError | intros _; apply finishes_ret]]).
  - intros unwrapped. apply finishes_bind;
      [apply finishes_runValidators | intros _; apply finishes_ret].
Qed.

Lemma finishes_afterFailure (error : Error) (st : RetryState) (t0 : Z)
    (h : Handler) (ledger : object) (maxRetries : Z)
    (backOff : Z -> RetryContext -> Z) (onRetry : option Hook)
    (retryOn : Error -> Z -> bool) :
  finishes (afterFailure error st t0 h ledger maxRetries backOff onRetry
              retryOn).
Proof.
  unfold afterFailure.
  apply finishes_bind; [apply finishes_now | intros current].
  apply finishes_bind; [apply finishes_emit | intros _].
  apply finishes_bind; [apply finishes_emit | intros _].
  apply finishes_bind.
  { destruct (negb _); [apply finishes_throwError | apply finishes_ret]. }
  intros _. apply finishes_bind.
  { destruct onRetry; [apply finishes_emit | apply finishes_ret]. }
  intros _. apply finishes_bind; [apply finishes_now | intros stamp].
  apply finishes_bind; [apply finishes_emit | intros _; apply finishes_ret].
Qed.

(** The [catch] block counts the attempt it ends. *)
Lemma afterFailure_counts (error : Error) (st st' : RetryState) (t0 : Z)
    (h : Handler) (ledger : object) (maxRetries : Z)
    (backOff : Z -> RetryContext -> Z) (onRetry : option Hook)
    (retryOn : Error -> Z -> bool) (w w' : World) :
  afterFailure error st t0 h ledger maxRetries backOff onRetry retryOn w
  = (Ret st', w') ->
  retries st' = (retries st + 1)%Z.
Proof.
  unfold afterFailure. intros H. do 7 bind_inv H.
  inversion H. reflexivity.
Qed.

Section Executor.

Variables (requestUrl requestMethod : string) (requestHeaders : object)
  (requestBody : string) (timeout : Z) (onErrorInResponse : Handler)
  (validateResponse : list Validator) (previousFetchData : object)
  (maxRetries : Z) (backOffStrategy : Z -> RetryContext -> Z)
  (onRetry : option Hook) (retryOn : Error -> Z -> bool)
  (observability : observingFuncsType) (currentFetchData : value)
  (responseParseType : string) (proxy : option string).

Lemma runValidators_reports (index : nat) (validators : list Validator) :
  adds is_report
    (runValidators index validators previousFetchData onErrorInResponse).
Proof.
  revert index. induction validators as [ | v rest IH]; intros index; cbn.
  - apply adds_ret.
  - apply adds_bind; [now apply adds_emit | intros _].
    apply adds_bind; [ | intros _; apply IH].
    destruct (negb _); [now apply adds_throwError | apply adds_ret].
Qed.

Lemma settle_reports (outcome : FetchOutcome) :
  adds is_report
    (settle outcome onErrorInResponse validateResponse previousFetchData
       responseParseType proxy).
Proof.
  unfold settle. destruct outcome as [e | providerResponse];
    [apply adds_throw | ].
  apply adds_bind.
  { destruct (negb _); [now apply adds_throwError | apply adds_ret]. }
  intros _. apply adds_bind.
  { unfold parseRequest, JSON_parse_or_throw.
    repeat match goal with
           | |- adds _ (if ?c then _ else _) => destruct c
           | |- adds _ (match ?c with Some _ => _ | None => _ end) => destruct c
           | |- adds _ (bind _ _) => apply adds_bind; [ | intros ?]
           | |- adds _ (ret _) => apply adds_ret
           | |- adds _ (throw _) => apply adds_throw
           | |- adds _ (throwError _ _ _ _) => now apply adds_throwError
           end. }
  intros parsed. apply adds_bind.
  { destruct (in_use proxy); [ | apply adds_ret].
    destruct (typeof parsed =? "object"); [ | apply adds_ret].
    destruct parsed; try apply adds_throw;
      repeat match goal with
             | |- adds _ (if ?c then _ else _) => destruct c
             | |- adds _ (bind _ _) => apply adds_bind; [ | intros ?]
             | |- adds _ (ret _) => apply adds_ret
             | |- adds _ (throwError _ _ _ _) => now apply adds_throwError
             end. }
  intros unwrapped. apply adds_bind; [apply runValidators_reports | ].
  intros _. apply adds_ret.
Qed.

(** A failed attempt that may be retried: the [catch] block counts it and
    sends no request. *)
Lemma afterFailure_retry (error : Error) (st : RetryState) (t0 : Z)
    (w : World) :
  retryOn error (lastRequestStatusCode st) = true ->
  exists st' w',
    afterFailure error st t0 onErrorInResponse previousFetchData maxRetries
      backOffStrategy onRetry retryOn w = (Ret st', w')
    /\ retries st' = (retries st + 1)%Z
    /\ fetches (trace w') = fetches (trace w).
Proof.
  intros Hr. unfold afterFailure, bind, now, emit. cbn. rewrite Hr. cbn.
  destruct onRetry as [hook | ]; cbn; do 2 eexists;
    (split; [reflexivity | ]); cbn; (split; [reflexivity | ]);
    unfold fetches; rewrite !filter_app, !length_app; cbn; lia.
Qed.

(** A failed attempt that may not be retried: the [catch] block reports the
    failure to the handler and throws, without waiting. *)
Lemma afterFailure_fatal (error : Error) (st : RetryState) (t0 : Z)
    (w : World) :
  retryOn error (lastRequestStatusCode st) = false ->
  exists context,
    afterFailure error st t0 onErrorInResponse previousFetchData maxRetries
      backOffStrategy onRetry retryOn w =
    (Throw (raised onErrorInResponse (error_text error) (error_text error)),
     mkWorld
       (trace w
        ++ [BackOffAsked (retries st + 1) context;
            RetryOnAsked error (lastRequestStatusCode st);
            HandlerCalled (h_label onErrorInResponse)
              (new_Error (error_text error)) (error_text error)])%list
       (storage w) (S (ticks w))).
Proof.
  intros Hr. eexists. unfold afterFailure, bind, now, emit. cbn.
  rewrite Hr. cbn. rewrite throwError_reports.
  unfold reported. cbn. rewrite <- !app_assoc. reflexivity.
Qed.

#[local] Abbreviation request :=
  (attemptRequest requestUrl requestMethod requestHeaders requestBody
     responseParseType proxy).

#[local] Abbreviation loop fuel st t0 :=
  (retryLoop fuel st t0 requestUrl requestMethod requestHeaders requestBody
     onErrorInResponse validateResponse previousFetchData maxRetries
     backOffStrategy onRetry retryOn observability currentFetchData
     responseParseType proxy).

#[local] Abbreviation failure_of e st t0 :=
  (afterFailure e st t0 onErrorInResponse previousFetchData maxRetries
     backOffStrategy onRetry retryOn).

(** One turn of the loop whose attempt fails: the start hook and one request,
    the reports of the [try] block, then the [catch] block. *)
Lemma loop_failed_attempt (fuel : nat) (st : RetryState) (t0 : Z)
    (w : World) :
  (retries st <? maxRetries)%Z = true ->
  fails (network (fetches (trace w)) request) onErrorInResponse
    validateResponse previousFetchData responseParseType proxy ->
  exists e st1 w2 prefix,
    loop (S fuel) st t0 w =
    bind (failure_of e st1 t0) (fun st2 => loop fuel st2 t0) w2
    /\ retries st1 = retries st
    /\ trace w2 = (trace w ++ prefix)%list
    /\ fetches prefix = 1%nat
    /\ Forall is_attempt prefix.
Proof.
  intros Hlt Hfail. cbn [retryLoop]. rewrite Hlt.
  set (started :=
         match onRequestStart observability with
         | Some h => [RequestStarted h currentFetchData]
         | None => []
         end).
  set (ws := mkWorld (trace w ++ started)%list (storage w) (ticks w)).
  assert (Hstart :
            match onRequestStart observability with
            | Some h => emit (RequestStarted h currentFetchData)
            | None => ret tt
            end w = (Ret tt, ws)).
  { subst ws started. destruct (onRequestStart observability); cbn.
    - reflexivity.
    - rewrite app_nil_r. now destruct w. }
  assert (Hcount : fetches (trace ws) = fetches (trace w)).
  { subst ws started. cbn [trace]. rewrite fetches_app.
    destruct (onRequestStart observability); cbn; lia. }
  erewrite bind_Ret by exact Hstart.
  unfold bind at 1. unfold fetch at 1. rewrite Hcount.
  set (outcome := network (fetches (trace w)) request) in *.
  set (wf := mkWorld (trace ws ++ [Fetched request])%list (storage ws) (ticks ws)).
  destruct (Hfail wf) as (e & w2 & Hsettle).
  destruct (settle_reports outcome _ _ _ Hsettle) as (added & Ht & Hrep).
  set (st1 :=
         match outcome with
         | Responded providerResponse =>
             mkRetryState (retries st) (lastRetryDelay st)
               (lastAttemptTimeStamp st) (status providerResponse)
         | Rejected _ => st
         end).
  exists e, st1, w2, (started ++ Fetched request :: added)%list.
  split.
  - unfold bind at 1. unfold try_catch.
    erewrite bind_Throw by exact Hsettle.
    unfold bind.
    destruct (failure_of e st1 t0 w2) as [[st2 | e2 | ] w3]; reflexivity.
  - split; [subst st1; now destruct outcome | ].
    split.
    + rewrite Ht. subst wf ws. cbn. now rewrite <- !app_assoc.
    + split.
      * rewrite fetches_app. change (Fetched request :: added)
          with ([Fetched request] ++ added)%list.
        rewrite fetches_app, (fetches_reports _ Hrep).
        subst started. destruct (onRequestStart observability); reflexivity.
      * apply Forall_app. split.
        -- subst started. destruct (onRequestStart observability);
             repeat constructor.
        -- constructor; [exact I | ].
           eapply Forall_impl; [ | exact Hrep].
           intros ev. destruct ev; cbn; trivial.
Qed.

(** With a predicate that always retries and attempts that always fail, the
    loop sends one request per remaining retry and returns the payload. *)
Lemma loop_exhausts (n : nat) :
  forall (fuel : nat) (st : RetryState) (t0 : Z) (w : World),
    (retries st + Z.of_nat n = maxRetries)%Z ->
    (n < fuel)%nat ->
    (forall e statusCode, retryOn e statusCode = true) ->
    (forall k, fails (network k request) onErrorInResponse validateResponse
                 previousFetchData responseParseType proxy) ->
    exists w',
      loop fuel st t0 w = (Ret (Obj [("error", Str "Max Retries Reached")]), w')
      /\ fetches (trace w') = (fetches (trace w) + n)%nat.
Proof.
  induction n as [ | n IH]; intros fuel st t0 w Hn Hfuel Hretry Hfail;
    (destruct fuel as [ | fuel]; [lia | ]).
  - exists w. cbn [retryLoop].
    replace (retries st <? maxRetries)%Z with false
      by (symmetry; apply Z.ltb_ge; lia).
    split; [reflexivity | lia].
  - destruct (loop_failed_attempt fuel st t0 w) as
      (e & st1 & w2 & prefix & Hloop & Hst1 & Ht & Hone & _).
    { apply Z.ltb_lt. lia. }
    { apply Hfail. }
    destruct (afterFailure_retry e st1 t0 w2 (Hretry _ _))
      as (st2 & w3 & Hcatch & Hst2 & Hsame).
    destruct (IH fuel st2 t0 w3) as (w' & Hrest & Hcount);
      [lia | lia | assumption | assumption | ].
    exists w'. split.
    + rewrite Hloop. erewrite bind_Ret by exact Hcatch. exact Hrest.
    + rewrite Hcount, Hsame, Ht, fetches_app, Hone. lia.
Qed.

(** The fuel [waitAndRetryRequest] gives its loop is enough: each turn of
    the loop that goes on has counted one more retry. *)
Lemma loop_finishes (fuel : nat) :
  forall (st : RetryState) (t0 : Z),
    (Z.to_nat (maxRetries - retries st) < fuel)%nat ->
    finishes (loop fuel st t0).
Proof.
  induction fuel as [ | fuel IH]; intros st t0 Hfuel w; [lia | ].
  cbn [retryLoop].
  destruct (retries st <? maxRetries)%Z eqn:Hgo; [ | discriminate].
  apply Z.ltb_lt in Hgo.
  unfold bind at 1.
  destruct (match onRequestStart observability with
            | Some h => emit (RequestStarted h currentFetchData)
            | None => ret tt
            end w) as [[[] | e | ] w1] eqn:Hstart;
    [ | discriminate
      | destruct (onRequestStart observability); discriminate].
  unfold bind at 1, fetch at 1.
  set (outcome := network (fetches (trace w1)) request).
  set (w2 := mkWorld _ _ _).
  set (st1 := match outcome with
              | Responded providerResponse =>
                  mkRetryState (retries st) (lastRetryDelay st)
                    (lastAttemptTimeStamp st) (status providerResponse)
              | Rejected _ => st
              end).
  assert (Hst1 : retries st1 = retries st)
    by (unfold st1; destruct outcome; reflexivity).
  unfold bind at 1, try_catch.
  destruct (bind (settle outcome onErrorInResponse validateResponse
                    previousFetchData responseParseType proxy)
              (fun parsed => ret (inl parsed)) w2)
    as [[result | e | ] w3] eqn:Htry.
  - apply bind_inv_Ret in Htry. destruct Htry as (parsed & w4 & _ & Hret).
    inversion Hret. discriminate.
  - destruct (bind (afterFailure e st1 t0 onErrorInResponse previousFetchData
                      maxRetries backOffStrategy onRetry retryOn)
                (fun st2 => ret (inr st2)) w3)
      as [[result | e' | ] w4] eqn:Hcatch.
    + apply bind_inv_Ret in Hcatch.
      destruct Hcatch as (st2 & w5 & Hafter & Hret).
      inversion Hret; subst result w5.
      apply afterFailure_counts in Hafter.
      apply IH. lia.
    + discriminate.
    + exfalso.
      refine (finishes_bind _ _ (finishes_afterFailure e st1 t0
                onErrorInResponse previousFetchData maxRetries
                backOffStrategy onRetry retryOn) _ w3 _).
      * intros st2. apply finishes_ret.
      * rewrite Hcatch. reflexivity.
  - exfalso.
    refine (finishes_bind _ _ (finishes_settle outcome onErrorInResponse
              validateResponse previousFetchData responseParseType proxy)
              _ w2 _).
    + intros parsed. apply finishes_ret.
    + rewrite Htry. reflexivity.
Qed.

(** [waitAndRetryRequest] always ends: it returns or it throws. *)
Lemma waitAndRetryRequest_finishes :
  finishes (waitAndRetryRequest requestUrl requestMethod requestHeaders
              requestBody timeout onErrorInResponse validateResponse
              previousFetchData maxRetries backOffStrategy onRetry retryOn
              observability currentFetchData responseParseType proxy).
Proof.
  unfold waitAndRetryRequest.
  apply finishes_bind; [apply finishes_now | intros t0].
  apply loop_finishes. cbn [retries]. lia.
Qed.

(** C2. With [maxRetries = 3] and a retry predicate that always returns
    true, when every attempt fails the executor performs exactly three
    requests and returns [{error: "Max Retries Reached"}]: it does not
    throw. *)
Theorem waitAndRetryRequest_gives_up_after_three (w : World) :
  maxRetries = 3%Z ->
  (forall e statusCode, retryOn e statusCode = true) ->
  (forall k, fails (network k request) onErrorInResponse validateResponse
               previousFetchData responseParseType proxy) ->
  exists w',
    waitAndRetryRequest requestUrl requestMethod requestHeaders requestBody
      timeout onErrorInResponse validateResponse previousFetchData maxRetries
      backOffStrategy onRetry retryOn observability currentFetchData
      responseParseType proxy w =
    (Ret (Obj [("error", Str "Max Retries Reached")]), w')
    /\ fetches (trace w') = (fetches (trace w) + 3)%nat.
Proof.
  intros Hmax Hretry Hfail. unfold waitAndRetryRequest.
  unfold bind at 1. unfold now at 1.
  destruct (loop_exhausts 3 (S (Z.to_nat maxRetries))
              (mkRetryState 0 0 (clock (ticks w)) 0) (clock (ticks w))
              (mkWorld (trace w) (storage w) (S (ticks w))))
    as (w' & Hrun & Hcount); cbn; try assumption; try lia.
  exists w'. split; [exact Hrun | exact Hcount].
Qed.

(** C10. With [maxRetries <= 0] the executor returns
    [{error: "Max Retries Reached"}] at once: the trace is left as it was,
    so no request is sent and neither [onRequestStart], a validator, the
    back-off function, [onRetry] nor an error handler is called; local
    storage is untouched, and the ledger, which only those callbacks receive,
    reaches no one. The only effect is the reading of the clock. *)
Theorem waitAndRetryRequest_without_attempts (w : World) :
  (maxRetries <= 0)%Z ->
  waitAndRetryRequest requestUrl requestMethod requestHeaders requestBody
    timeout onErrorInResponse validateResponse previousFetchData maxRetries
    backOffStrategy onRetry retryOn observability currentFetchData
    responseParseType proxy w =
  (Ret (Obj [("error", Str "Max Retries Reached")]),
   mkWorld (trace w) (storage w) (S (ticks w))).
Proof.
  intros Hmax. unfold waitAndRetryRequest.
  unfold bind at 1. unfold now at 1. cbn [retryLoop retries].
  replace (0 <? maxRetries)%Z with false by (symmetry; apply Z.ltb_ge; lia).
  reflexivity.
Qed.

(** C7. With a retry predicate that always returns false, a first attempt
    that fails is fatal: one request was sent, the failure is reported to
    the error handler as the last action and thrown, and neither a delay
    nor a call of [onRetry] took place. *)
Theorem waitAndRetryRequest_fatal_without_retry (w : World) :
  (0 < maxRetries)%Z ->
  (forall e statusCode, retryOn e statusCode = false) ->
  fails (network (fetches (trace w)) request) onErrorInResponse
    validateResponse previousFetchData responseParseType proxy ->
  exists failure w' before,
    waitAndRetryRequest requestUrl requestMethod requestHeaders requestBody
      timeout onErrorInResponse validateResponse previousFetchData maxRetries
      backOffStrategy onRetry retryOn observability currentFetchData
      responseParseType proxy w =
    (Throw (raised onErrorInResponse (error_text failure) (error_text failure)),
     w')
    /\ trace w' =
       (trace w ++ before
        ++ [HandlerCalled (h_label onErrorInResponse)
              (new_Error (error_text failure)) (error_text failure)])%list
    /\ fetches before = 1%nat
    /\ (forall ms, ~ In (Slept ms) before)
    /\ (forall hook context, ~ In (Retried hook context) before).
Proof.
  intros Hmax Hnever Hfail. unfold waitAndRetryRequest.
  unfold bind at 1. unfold now at 1.
  set (w0 := mkWorld (trace w) (storage w) (S (ticks w))).
  destruct (loop_failed_attempt (Z.to_nat maxRetries)
              (mkRetryState 0 0 (clock (ticks w)) 0) (clock (ticks w)) w0)
    as (e & st1 & w2 & prefix & Hloop & Hst1 & Ht & Hone & Hattempt).
  { apply Z.ltb_lt. exact Hmax. }
  { exact Hfail. }
  destruct (afterFailure_fatal e st1 (clock (ticks w)) w2 (Hnever _ _))
    as (context & Hcatch).
  exists e. eexists.
  exists (prefix ++ [BackOffAsked (retries st1 + 1) context;
                     RetryOnAsked e (lastRequestStatusCode st1)])%list.
  split; [ | split; [ | split; [ | split]]].
  - rewrite Hloop. erewrite bind_Throw by exact Hcatch. reflexivity.
  - cbn. rewrite Ht. cbn. now rewrite <- !app_assoc.
  - rewrite fetches_app, Hone. reflexivity.
  - intros ms Hin. apply in_app_or in Hin. destruct Hin as [Hin | Hin].
    + rewrite Forall_forall in Hattempt. exact (Hattempt _ Hin).
    + destruct Hin as [Hin | [Hin | []]]; discriminate.
  - intros hook ctx Hin. apply in_app_or in Hin. destruct Hin as [Hin | Hin].
    + rewrite Forall_forall in Hattempt. exact (Hattempt _ Hin).
    + destruct Hin as [Hin | [Hin | []]]; discriminate.
Qed.

(** *** One turn of the loop *)

Lemma loop_turn (fuel : nat) (st : RetryState) (t0 : Z) (w : World) :
  (retries st <? maxRetries)%Z = true ->
  loop (S fuel) st t0 w =
  match settle (network (fetches (trace w)) request) onErrorInResponse
          validateResponse previousFetchData responseParseType proxy
          (mkWorld
             (trace w ++ startEvents observability currentFetchData
              ++ [Fetched request])%list
             (storage w) (ticks w)) with
  | (Ret parsed, w3) => (Ret parsed, w3)
  | (Throw e, w3) =>
      bind (failure_of e (settled st (network (fetches (trace w)) request)) t0)
        (fun st2 => loop fuel st2 t0) w3
  | (OutOfFuel, w3) => (OutOfFuel, w3)
  end.
Proof.
  intros Hgo. cbn [retryLoop]. rewrite Hgo.
  unfold startEvents, settled.
  assert (Hcount : forall h,
             fetches (trace w ++ [RequestStarted h currentFetchData]) =
             fetches (trace w)).
  { intros h. rewrite fetches_app. cbn. lia. }
  destruct (onRequestStart observability) as [h | ];
    unfold bind at 1; cbn [emit ret];
    unfold bind at 1, fetch at 1; cbn [trace storage ticks];
    rewrite ?Hcount, <- ?app_assoc; cbn [app];
    unfold bind at 1, try_catch, bind at 1;
    match goal with
    | |- context [settle ?o ?h ?v ?l ?p ?x ?w0] =>
        destruct (settle o h v l p x w0) as [[parsed | e | ] w3]
    end; cbn [ret]; try reflexivity;
    unfold bind;
    match goal with
    | |- context [afterFailure ?a ?b ?c ?d ?e ?f ?g ?h ?i ?w0] =>
        destruct (afterFailure a b c d e f g h i w0) as [[st2 | e2 | ] w4]
    end; reflexivity.
Qed.

(** *** Requests and delays of a trace *)

Lemma requests_app (t added : list Event) :
  requests (t ++ added) = (requests t ++ requests added)%list.
Proof. unfold requests. apply flat_map_app. Qed.

Lemma delays_app (t added : list Event) :
  delays (t ++ added) = (delays t ++ delays added)%list.
Proof. unfold delays. apply flat_map_app. Qed.

Lemma requests_quiet (added : list Event) :
  Forall (fun e => is_fetch e = false) added -> requests added = [].
Proof.
  induction 1 as [ | e rest He _ IH]; [reflexivity | ].
  unfold requests in *. cbn [flat_map]. rewrite IH.
  destruct e; try reflexivity. discriminate.
Qed.

Lemma delays_reports (added : list Event) :
  Forall is_report added -> delays added = [].
Proof.
  induction 1 as [ | e rest He _ IH]; [reflexivity | ].
  unfold delays in *. cbn [flat_map]. rewrite IH.
  destruct e; try reflexivity; contradiction.
Qed.

Lemma report_quiet (e : Event) : is_report e -> is_fetch e = false.
Proof. destruct e; cbn; trivial; contradiction. Qed.

Lemma afterFailure_quiet (error : Error) (st : RetryState) (t0 : Z) :
  adds (fun e => is_fetch e = false) (failure_of error st t0).
Proof.
  unfold afterFailure.
  apply adds_bind; [apply adds_now | intros current].
  apply adds_bind; [now apply adds_emit | intros _].
  apply adds_bind; [now apply adds_emit | intros _].
  apply adds_bind.
  { destruct (negb _); [now apply adds_throwError | apply adds_ret]. }
  intros _. apply adds_bind.
  { destruct onRetry; [now apply adds_emit | apply adds_ret]. }
  intros _. apply adds_bind; [apply adds_now | intros stamp].
  apply adds_bind; [now apply adds_emit | intros _; apply adds_ret].
Qed.

(** The requests of the loop: one per turn, each the same, and no more
    turns than retries are left. *)
Lemma loop_requests (fuel : nat) :
  forall (st : RetryState) (t0 : Z) (w : World),
    exists added n,
      trace (snd (loop fuel st t0 w)) = (trace w ++ added)%list
      /\ requests added = repeat request n
      /\ (Z.of_nat n <= Z.max 0 (maxRetries - retries st))%Z.
Proof.
  induction fuel as [ | fuel IH]; intros st t0 w.
  - exists [], 0%nat. cbn. rewrite app_nil_r. repeat split. lia.
  - destruct (retries st <? maxRetries)%Z eqn:Hgo.
    + rewrite (loop_turn fuel st t0 w Hgo).
      apply Z.ltb_lt in Hgo.
      match goal with
      | |- context [settle ?o ?h ?v ?l ?p ?x ?w0] =>
          destruct (settle o h v l p x w0) as [[parsed | e | ] w3] eqn:Hsettle
      end.
      1, 3: apply settle_reports in Hsettle;
        destruct Hsettle as (added & Ht & Hrep);
        exists ((startEvents observability currentFetchData
                 ++ [Fetched request]) ++ added)%list, 1%nat;
        cbn [snd trace] in *; rewrite Ht, <- !app_assoc;
        (split; [reflexivity | ]);
        (split; [ | lia]);
        rewrite !requests_app,
          (requests_quiet added
             (Forall_impl _ report_quiet Hrep));
        unfold startEvents; destruct (onRequestStart observability);
        reflexivity.
      apply settle_reports in Hsettle.
      destruct Hsettle as (added & Ht & Hrep). cbn [trace] in Ht.
      unfold bind.
      destruct (failure_of e _ t0 w3) as [[st2 | e2 | ] w4] eqn:Hcatch.
      * pose proof (afterFailure_counts _ _ _ _ _ _ _ _ _ _ _ _ Hcatch)
          as Hnext.
        apply afterFailure_quiet in Hcatch.
        destruct Hcatch as (added2 & Ht2 & Hq2).
        destruct (IH st2 t0 w4) as (added3 & n & Ht3 & Hreq & Hn).
        exists ((startEvents observability currentFetchData
                 ++ [Fetched request]) ++ added ++ added2 ++ added3)%list,
          (S n).
        rewrite Ht3, Ht2, Ht, <- !app_assoc. split; [reflexivity | ].
        split.
        -- rewrite !requests_app, Hreq, (requests_quiet added2 Hq2),
             (requests_quiet added (Forall_impl _ report_quiet Hrep)).
           unfold startEvents; destruct (onRequestStart observability);
             reflexivity.
        -- assert (retries (settled st (network (fetches (trace w)) request))
                   = retries st)
             by (unfold settled; now destruct (network _ _)).
           lia.
      * apply afterFailure_quiet in Hcatch.
        destruct Hcatch as (added2 & Ht2 & Hq2).
        exists ((startEvents observability currentFetchData
                 ++ [Fetched request]) ++ added ++ added2)%list, 1%nat.
        cbn [snd]. rewrite Ht2, Ht, <- !app_assoc. split; [reflexivity | ].
        split; [ | lia].
        rewrite !requests_app, (requests_quiet added2 Hq2),
          (requests_quiet added (Forall_impl _ report_quiet Hrep)).
        unfold startEvents; destruct (onRequestStart observability);
          reflexivity.
      * apply afterFailure_quiet in Hcatch.
        destruct Hcatch as (added2 & Ht2 & Hq2).
        exists ((startEvents observability currentFetchData
                 ++ [Fetched request]) ++ added ++ added2)%list, 1%nat.
        cbn [snd]. rewrite Ht2, Ht, <- !app_assoc. split; [reflexivity | ].
        split; [ | lia].
        rewrite !requests_app, (requests_quiet added2 Hq2),
          (requests_quiet added (Forall_impl _ report_quiet Hrep)).
        unfold startEvents; destruct (onRequestStart observability);
          reflexivity.
    + exists [], 0%nat. cbn [retryLoop]. rewrite Hgo. cbn.
      rewrite app_nil_r. repeat split. lia.
Qed.

(** X1. The executor ends, by returning or by throwing, and never sends more
    than [maxRetries] requests (none when [maxRetries <= 0]), whatever the
    network answers and whatever the callbacks decide. Every request is the
    same one: to the proxy when one is in use, to [requestUrl] otherwise. *)
Theorem waitAndRetryRequest_bounded_attempts (w : World) :
  let run :=
    waitAndRetryRequest requestUrl requestMethod requestHeaders requestBody
      timeout onErrorInResponse validateResponse previousFetchData maxRetries
      backOffStrategy onRetry retryOn observability currentFetchData
      responseParseType proxy w in
  fst run <> OutOfFuel
  /\ exists added n,
       trace (snd run) = (trace w ++ added)%list
       /\ requests added =
          repeat (attemptRequest requestUrl requestMethod requestHeaders
                    requestBody responseParseType proxy) n
       /\ (n <= Z.to_nat maxRetries)%nat.
Proof.
  intros run. split; [apply waitAndRetryRequest_finishes | ].
  subst run. unfold waitAndRetryRequest, bind at 1, now at 1.
  destruct (loop_requests (S (Z.to_nat maxRetries))
              (mkRetryState 0 0 (clock (ticks w)) 0) (clock (ticks w))
              (mkWorld (trace w) (storage w) (S (ticks w))))
    as (added & n & Ht & Hreq & Hn).
  exists added, n. cbn [retries trace] in *.
  split; [exact Ht | ]. split; [exact Hreq | lia].
Qed.

(** *** Retries *)

(** The [catch] block when the predicate asks for a retry. *)
Lemma afterFailure_waits (error : Error) (st : RetryState) (t0 : Z)
    (w : World) :
  retryOn error (lastRequestStatusCode st) = true ->
  let context :=
    mkRetryContext (retries st + 1) error (clock (ticks w) - t0)
      (lastAttemptTimeStamp st) (lastRetryDelay st) maxRetries
      previousFetchData in
  let delay := backOffStrategy (retries st + 1) context in
  failure_of error st t0 w =
  (Ret (mkRetryState (retries st + 1) delay (clock (S (ticks w)))
          (lastRequestStatusCode st)),
   mkWorld
     (trace w
      ++ [BackOffAsked (retries st + 1) context;
          RetryOnAsked error (lastRequestStatusCode st)]
      ++ match onRetry with
         | Some h => [Retried h context]
         | None => []
         end
      ++ [Slept delay])%list
     (storage w) (S (S (ticks w)))).
Proof.
  intros Hr context delay. subst context delay.
  unfold afterFailure, bind, now, emit. cbn. rewrite Hr. cbn.
  destruct onRetry as [hook | ]; cbn; rewrite <- !app_assoc; reflexivity.
Qed.

(** One turn of the loop whose attempt fails and is retried. *)
Lemma loop_retry_turn (fuel : nat) (st : RetryState) (t0 : Z) (w : World) :
  (retries st < maxRetries)%Z ->
  (forall e statusCode, retryOn e statusCode = true) ->
  fails (network (fetches (trace w)) request) onErrorInResponse
    validateResponse previousFetchData responseParseType proxy ->
  exists context st2 w4 added,
    loop (S fuel) st t0 w = loop fuel st2 t0 w4
    /\ trace w4 = (trace w ++ added)%list
    /\ requests added = [request]
    /\ delays added = [backOffStrategy (retries st + 1) context]
    /\ attemptNumber context = (retries st + 1)%Z
    /\ retryDelay context = lastRetryDelay st
    /\ ctx_maxRetries context = maxRetries
    /\ ctx_previousFetchData context = previousFetchData
    /\ retries st2 = (retries st + 1)%Z
    /\ lastRetryDelay st2 = backOffStrategy (retries st + 1) context.
Proof.
  intros Hgo Hretry Hfail.
  rewrite (loop_turn fuel st t0 w) by (apply Z.ltb_lt; exact Hgo).
  match goal with
  | |- context [settle _ _ _ _ _ _ ?w0] =>
      destruct (Hfail w0) as (e & w3 & Hsettle)
  end.
  rewrite Hsettle.
  apply settle_reports in Hsettle. destruct Hsettle as (added & Ht & Hrep).
  cbn [trace] in Ht.
  set (st1 := settled st (network (fetches (trace w)) request)).
  assert (Hst1 : retries st1 = retries st
                 /\ lastRetryDelay st1 = lastRetryDelay st).
  { subst st1. unfold settled. now destruct (network _ _). }
  destruct Hst1 as (Hr1 & Hd1).
  unfold bind. rewrite (afterFailure_waits e st1 t0 w3 (Hretry _ _)).
  rewrite Hr1, Hd1.
  do 4 eexists. split; [reflexivity | ].
  cbn [trace attemptNumber retryDelay ctx_maxRetries ctx_previousFetchData
       retries lastRetryDelay].
  split; [rewrite Ht, <- !app_assoc; reflexivity | ].
  assert (Hq : requests added = [])
    by (apply requests_quiet; eapply Forall_impl; [ | exact Hrep];
        exact report_quiet).
  split.
  { rewrite !requests_app, Hq. unfold startEvents.
    destruct (onRequestStart observability), onRetry; reflexivity. }
  split.
  { rewrite !delays_app, (delays_reports added Hrep). unfold startEvents.
    destruct (onRequestStart observability), onRetry; reflexivity. }
  repeat split; reflexivity.
Qed.

(** [n] turns of the loop whose attempts fail and are retried. *)
Lemma loop_retries (n : nat) :
  forall (fuel : nat) (st : RetryState) (t0 : Z) (w : World),
    (retries st + Z.of_nat n <= maxRetries)%Z ->
    (forall e statusCode, retryOn e statusCode = true) ->
    (forall k, (k < n)%nat ->
               fails (network (fetches (trace w) + k) request)
                 onErrorInResponse validateResponse previousFetchData
                 responseParseType proxy) ->
    exists contexts st' w' added,
      loop (n + fuel) st t0 w = loop fuel st' t0 w'
      /\ trace w' = (trace w ++ added)%list
      /\ requests added = repeat request n
      /\ delays added =
         map (fun context => backOffStrategy (attemptNumber context) context)
           contexts
      /\ length contexts = n
      /\ chained backOffStrategy maxRetries previousFetchData
           (retries st + 1) (lastRetryDelay st) contexts
      /\ retries st' = (retries st + Z.of_nat n)%Z.
Proof.
  induction n as [ | n IH]; intros fuel st t0 w Hn Hretry Hfail.
  - exists [], st, w, []. cbn. rewrite app_nil_r.
    repeat split. lia.
  - destruct (loop_retry_turn (n + fuel) st t0 w)
      as (context & st2 & w4 & added & Hloop & Ht & Hreq & Hdel & Ha & Hd
          & Hm & Hl & Hr2 & Hd2); try assumption; [lia | | ].
    { specialize (Hfail 0%nat). rewrite Nat.add_0_r in Hfail.
      apply Hfail. lia. }
    destruct (IH fuel st2 t0 w4)
      as (contexts & st' & w' & added' & Hloop' & Ht' & Hreq' & Hdel' & Hlen
          & Hchain & Hr'); try assumption; [lia | | ].
    { intros k Hk. rewrite Ht.
      replace (fetches (trace w ++ added))
        with (S (fetches (trace w))).
      - replace (S (fetches (trace w)) + k)%nat
          with (fetches (trace w) + S k)%nat by lia.
        apply Hfail. lia.
      - rewrite fetches_app. unfold fetches.
        assert (Hcount : forall t, length (filter is_fetch t)
                                   = length (requests t)).
        { induction t as [ | ev t IHt]; [reflexivity | ].
          unfold requests in *. cbn [filter flat_map].
          destruct ev; cbn; rewrite ?IHt; reflexivity. }
        rewrite (Hcount added), Hreq. cbn. lia. }
    exists (context :: contexts), st', w', (added ++ added')%list.
    split; [cbn [Nat.add]; rewrite Hloop; exact Hloop' | ].
    split; [rewrite Ht', Ht, <- app_assoc; reflexivity | ].
    split; [rewrite requests_app, Hreq, Hreq'; reflexivity | ].
    split; [rewrite delays_app, Hdel, Hdel'; cbn; now rewrite Ha | ].
    split; [cbn; now rewrite Hlen | ].
    split.
    + cbn [chained]. rewrite Hr2, Hd2 in Hchain. repeat split; assumption.
    + lia.
Qed.

(** X2. When the retry predicate accepts every failure and the first [n]
    attempts fail, an attempt that then succeeds with [v] ends the call: it
    returns [v], having sent [n + 1] requests and awaited [n] delays. *)
Theorem waitAndRetryRequest_succeeds_after_retries (n : nat) (v : value)
    (w : World) :
  (Z.of_nat n < maxRetries)%Z ->
  (forall e statusCode, retryOn e statusCode = true) ->
  (forall k, (k < n)%nat ->
             fails (network (fetches (trace w) + k) request)
               onErrorInResponse validateResponse previousFetchData
               responseParseType proxy) ->
  succeeds (network (fetches (trace w) + n) request) onErrorInResponse
    validateResponse previousFetchData responseParseType proxy v ->
  exists w' added,
    waitAndRetryRequest requestUrl requestMethod requestHeaders requestBody
      timeout onErrorInResponse validateResponse previousFetchData maxRetries
      backOffStrategy onRetry retryOn observability currentFetchData
      responseParseType proxy w = (Ret v, w')
    /\ trace w' = (trace w ++ added)%list
    /\ requests added = repeat request (S n)
    /\ length (delays added) = n.
Proof.
  intros Hn Hretry Hfail Hok.
  unfold waitAndRetryRequest, bind at 1, now at 1.
  set (w0 := mkWorld (trace w) (storage w) (S (ticks w))).
  set (st0 := mkRetryState 0 0 (clock (ticks w)) 0).
  replace (S (Z.to_nat maxRetries))
    with (n + S (Z.to_nat maxRetries - n))%nat by lia.
  destruct (loop_retries n (S (Z.to_nat maxRetries - n)) st0
              (clock (ticks w)) w0)
    as (contexts & st' & w' & added & Hloop & Ht & Hreq & Hdel & Hlen & _
        & Hr'); try assumption; [cbn; lia | ].
  rewrite Hloop, loop_turn by (apply Z.ltb_lt; rewrite Hr'; cbn; lia).
  assert (Hcount : fetches (trace w') = (fetches (trace w) + n)%nat).
  { rewrite Ht, fetches_app. cbn [trace w0]. f_equal.
    clear - Hreq. revert n Hreq. unfold fetches, requests.
    induction added as [ | ev t IHt]; intros [ | n] Hreq; cbn in *;
      try reflexivity; try discriminate.
    - destruct ev; cbn in *; try discriminate;
        now apply (IHt 0%nat).
    - destruct ev; cbn in *;
        try (now apply (IHt (S n)));
        injection Hreq as _ Hreq; f_equal; now apply IHt. }
  rewrite Hcount.
  match goal with
  | |- context [settle _ _ _ _ _ _ ?wx] =>
      destruct (Hok wx) as (w3 & Hsettle)
  end.
  rewrite Hsettle.
  apply settle_reports in Hsettle. destruct Hsettle as (added2 & Ht2 & Hrep).
  cbn [trace] in Ht2.
  exists w3, (added ++ (startEvents observability currentFetchData
                        ++ [Fetched request]) ++ added2)%list.
  split; [reflexivity | ].
  split; [rewrite Ht2, Ht; cbn [trace w0]; now rewrite <- !app_assoc | ].
  split.
  - rewrite !requests_app, Hreq,
      (requests_quiet added2 (Forall_impl _ report_quiet Hrep)).
    replace (S n) with (n + 1)%nat by lia. rewrite repeat_app.
    unfold startEvents. destruct (onRequestStart observability); reflexivity.
  - rewrite !delays_app, Hdel, (delays_reports added2 Hrep), length_app,
      length_map, Hlen.
    unfold startEvents. destruct (onRequestStart observability); cbn; lia.
Qed.

(** X3. When the retry predicate accepts every failure and every attempt
    fails, the executor awaits a delay after each attempt, the last one
    included, before it returns [{error: "Max Retries Reached"}]: the
    [i]-th delay is what [backOffStrategy] returns for attempt [i] and a
    context that carries the delay awaited before (0 at first). *)
Theorem waitAndRetryRequest_waits_after_every_failure (w : World) :
  (0 <= maxRetries)%Z ->
  (forall e statusCode, retryOn e statusCode = true) ->
  (forall k, fails (network k request) onErrorInResponse validateResponse
               previousFetchData responseParseType proxy) ->
  exists w' added contexts,
    waitAndRetryRequest requestUrl requestMethod requestHeaders requestBody
      timeout onErrorInResponse validateResponse previousFetchData maxRetries
      backOffStrategy onRetry retryOn observability currentFetchData
      responseParseType proxy w =
    (Ret (Obj [("error", Str "Max Retries Reached")]), w')
    /\ trace w' = (trace w ++ added)%list
    /\ length contexts = Z.to_nat maxRetries
    /\ chained backOffStrategy maxRetries previousFetchData 1 0 contexts
    /\ delays added =
       map (fun context => backOffStrategy (attemptNumber context) context)
         contexts.
Proof.
  intros Hmax Hretry Hfail.
  unfold waitAndRetryRequest, bind at 1, now at 1.
  set (w0 := mkWorld (trace w) (storage w) (S (ticks w))).
  set (st0 := mkRetryState 0 0 (clock (ticks w)) 0).
  replace (S (Z.to_nat maxRetries)) with (Z.to_nat maxRetries + 1)%nat by lia.
  destruct (loop_retries (Z.to_nat maxRetries) 1 st0 (clock (ticks w)) w0)
    as (contexts & st' & w' & added & Hloop & Ht & _ & Hdel & Hlen & Hchain
        & Hr'); try assumption; [cbn; lia | intros k _; apply Hfail | ].
  rewrite Hloop. cbn [retryLoop].
  replace (retries st' <? maxRetries)%Z with false
    by (symmetry; apply Z.ltb_ge; rewrite Hr'; cbn; lia).
  exists w', added, contexts.
  split; [reflexivity | ].
  split; [exact Ht | ]. split; [exact Hlen | ].
  split; [exact Hchain | exact Hdel].
Qed.

(** *** Failures that are not retried *)

(** X4. A request that is rejected (network failure, or the timeout that aborts
    it) before any response came has no status code: the retry predicate is
    asked with the error and the status code 0. When it declines, the error
    is reported to the handler and thrown after that single request. *)
Theorem waitAndRetryRequest_rejected_first_request (e : Error) (w : World) :
  (0 < maxRetries)%Z ->
  network (fetches (trace w)) request = Rejected e ->
  retryOn e 0 = false ->
  exists context w',
    waitAndRetryRequest requestUrl requestMethod requestHeaders requestBody
      timeout onErrorInResponse validateResponse previousFetchData maxRetries
      backOffStrategy onRetry retryOn observability currentFetchData
      responseParseType proxy w =
    (Throw (raised onErrorInResponse (error_text e) (error_text e)), w')
    /\ trace w' =
       (trace w ++ startEvents observability currentFetchData
        ++ [Fetched request; BackOffAsked 1 context; RetryOnAsked e 0;
            HandlerCalled (h_label onErrorInResponse)
              (new_Error (error_text e)) (error_text e)])%list.
Proof.
  intros Hmax Hnet Hdecline.
  unfold waitAndRetryRequest, bind at 1, now at 1.
  rewrite loop_turn by (apply Z.ltb_lt; exact Hmax).
  cbn [trace storage ticks]. rewrite Hnet. cbn [settle settled throw].
  unfold bind.
  match goal with
  | |- context [afterFailure e ?st ?t0 _ _ _ _ _ _ ?w0] =>
      destruct (afterFailure_fatal e st t0 w0 Hdecline) as (context & Hcatch)
  end.
  rewrite Hcatch. exists context. eexists. split; [reflexivity | ].
  cbn [trace retries lastRequestStatusCode]. rewrite <- !app_assoc.
  reflexivity.
Qed.

(** X5. A response whose status is not 2xx is reported to the handler as
    ["Response has some error:{}"]; the retry predicate is then asked with
    the error that report left thrown and with the status code of the
    response. When it declines, the handler is called a second time, with
    the text of that error, and the call throws: one request, two reports. *)
Theorem waitAndRetryRequest_bad_status_reported_twice (r : Response)
    (w : World) :
  (0 < maxRetries)%Z ->
  network (fetches (trace w)) request = Responded r ->
  ok r = false ->
  retryOn
    (raised onErrorInResponse "Response has some error:{}"
       "Response has some error:{}")
    (status r) = false ->
  let first :=
    raised onErrorInResponse "Response has some error:{}"
      "Response has some error:{}" in
  exists context w',
    waitAndRetryRequest requestUrl requestMethod requestHeaders requestBody
      timeout onErrorInResponse validateResponse previousFetchData maxRetries
      backOffStrategy onRetry retryOn observability currentFetchData
      responseParseType proxy w =
    (Throw (raised onErrorInResponse (error_text first) (error_text first)),
     w')
    /\ trace w' =
       (trace w ++ startEvents observability currentFetchData
        ++ [Fetched request;
            HandlerCalled (h_label onErrorInResponse)
              (new_Error "Response has some error:{}")
              "Response has some error:{}";
            BackOffAsked 1 context; RetryOnAsked first (status r);
            HandlerCalled (h_label onErrorInResponse)
              (new_Error (error_text first)) (error_text first)])%list.
Proof.
  intros Hmax Hnet Hbad Hdecline first.
  unfold waitAndRetryRequest, bind at 1, now at 1.
  rewrite loop_turn by (apply Z.ltb_lt; exact Hmax).
  cbn [trace storage ticks]. rewrite Hnet. cbn [settle settled].
  rewrite Hbad. cbn [negb]. unfold bind at 1.
  rewrite throwError_reports. cbn [nullish].
  unfold bind.
  match goal with
  | |- context [afterFailure ?err ?st ?t0 _ _ _ _ _ _ ?w0] =>
      destruct (afterFailure_fatal err st t0 w0 Hdecline)
        as (context & Hcatch)
  end.
  rewrite Hcatch. exists context. eexists. split; [reflexivity | ].
  unfold reported.
  cbn [trace retries lastRequestStatusCode]. rewrite <- !app_assoc.
  reflexivity.
Qed.

(** *** The answer of a proxy *)

Lemma runValidators_pass (validators : list Validator) :
  forall (index : nat) (w : World),
    Forall (fun validator => validator previousFetchData Undefined = true)
      validators ->
    exists w',
      runValidators index validators previousFetchData onErrorInResponse w =
      (Ret tt, w').
Proof.
  induction validators as [ | v rest IH]; intros index w Hpass;
    cbn [runValidators].
  - now eexists.
  - inversion Hpass as [ | ? ? Hv Hrest]; subst.
    unfold bind at 1, emit at 1. unfold bind at 1. rewrite Hv.
    cbn [negb ret]. apply IH. exact Hrest.
Qed.

(** X6. Through a proxy the executor reads the answer as JSON, whatever parse
    type the step asks for, and unwraps it: when the answer is an object
    whose own [status] is ["success"], the call returns its [data] after
    one request. An answer without [data] yields [undefined], and nothing
    is reported. *)
Theorem waitAndRetryRequest_unwraps_proxy_envelope (p : string)
    (r : Response) (answer : object) (w : World) :
  (0 < maxRetries)%Z ->
  in_use proxy = Some p ->
  network (fetches (trace w)) request = Responded r ->
  ok r = true ->
  JSON_parse (body_text r) = Some (Obj answer) ->
  lookup "status" answer = Some (Str "success") ->
  Forall (fun validator => validator previousFetchData Undefined = true)
    validateResponse ->
  exists w',
    waitAndRetryRequest requestUrl requestMethod requestHeaders requestBody
      timeout onErrorInResponse validateResponse previousFetchData maxRetries
      backOffStrategy onRetry retryOn observability currentFetchData
      responseParseType proxy w =
    (Ret (nullish (lookup "data" answer)
            (nullish (chain (Obj answer) "data") Undefined)), w')
    /\ req_url request = p
    /\ req_method request = "POST".
Proof.
  intros Hmax Hproxy Hnet Hok Hparse Hstatus Hpass.
  unfold waitAndRetryRequest, bind at 1, now at 1.
  rewrite loop_turn by (apply Z.ltb_lt; exact Hmax).
  cbn [trace storage ticks]. rewrite Hnet. unfold settle.
  rewrite Hok, Hproxy. cbn [negb].
  unfold bind at 1. cbn [ret]. unfold bind at 1.
  unfold parseRequest, JSON_parse_or_throw. cbn [String.eqb Ascii.eqb Bool.eqb].
  rewrite Hparse. cbn [ret typeof String.eqb Ascii.eqb Bool.eqb own].
  rewrite Hstatus. unfold member at 1. cbn [own]. rewrite Hstatus.
  cbn [is_string String.eqb Ascii.eqb Bool.eqb andb].
  unfold bind at 1. cbn [ret]. unfold bind at 1.
  match goal with
  | |- context [runValidators 0 validateResponse _ _ ?wx] =>
      destruct (runValidators_pass validateResponse 0 wx Hpass)
        as (w' & Hvalid)
  end.
  rewrite Hvalid. cbn [ret]. exists w'.
  split; [unfold member; cbn [own]; now destruct (lookup "data" answer) | ].
  unfold attemptRequest. rewrite Hproxy. split; reflexivity.
Qed.

End Executor.

(** *** The ledger of a run *)





(** *** Local storage and the redirect bridge *)

Lemma lookup_remove (k k' : string) (l : list (string * string)) :
  lookup k (remove k' l) = if k =? k' then None else lookup k l.
Proof.
  unfold remove. induction l as [ | [k0 v0] l IH]; cbn.
  - now destruct (k =? k').
  - destruct (k0 =? k') eqn:E0; cbn.
    + apply String.eqb_eq in E0. subst k0. rewrite IH.
      now destruct (k =? k').
    + destruct (k =? k0) eqn:E1.
      * apply String.eqb_eq in E1. subst k0. now rewrite E0.
      * exact IH.
Qed.

Lemma append_nonempty (a b : string) : b <> EmptyString -> a ++ b <> EmptyString.
Proof. destruct a; cbn; [trivial | discriminate]. Qed.

Lemma sextet_nonempty (n : nat) : (n < 64)%nat -> sextet n <> EmptyString.
Proof.
  intros H.
  do 64 (destruct n as [ | n]; [discriminate | ]). lia.
Qed.

Lemma base64_nonempty (a : nat) (rest : list nat) :
  (a < 256)%nat -> base64 (a :: rest) <> EmptyString.
Proof.
  intros Ha.
  assert (Hs : sextet (a / 4) <> EmptyString).
  { apply sextet_nonempty. apply Nat.Div0.div_lt_upper_bound. lia. }
  destruct rest as [ | b [ | c rest]]; cbn [base64];
    (destruct (sextet (a / 4)); [contradiction | discriminate]).
Qed.

Lemma btoa_nonempty (c : ascii) (s : string) : btoa (String c s) <> EmptyString.
Proof.
  unfold btoa. cbn [list_ascii_of_string map].
  apply base64_nonempty. apply nat_ascii_bounded.
Qed.

Lemma stored_object_nonempty (o : object) :
  encodeToBase64 (JSON_stringify (Obj o)) <> EmptyString.
Proof.
  unfold encodeToBase64, JSON_stringify. cbn [json_text].
  exact (btoa_nonempty "{"%char _).
Qed.

(** The redirect returns, having stored the ledger with the record of the
    redirect step under the first key and the accumulator under the second. *)
Lemma redirect_stores (requestMethod : string) (params : initializedParamsType)
    (url : string) (ledger : object) (k1 k2 : string) (acc : object)
    (storeState : bool) (state : value) (w : World) :
  k1 <> k2 -> k1 <> "state" -> k2 <> "state" ->
  exists w',
    redirectOnCustomProviderButtonClick requestMethod params url ledger k1 k2
      acc storeState state w = (Ret tt, w')
    /\ lookup k1 (storage w') =
       Some (encodeToBase64
               (JSON_stringify
                  (Obj (set (p_name params)
                          (redirectRecord requestMethod params) ledger))))
    /\ lookup k2 (storage w') =
       Some (encodeToBase64 (JSON_stringify (Obj acc))).
Proof.
  intros H12 H1 H2.
  apply String.eqb_neq in H12, H1, H2.
  unfold redirectOnCustomProviderButtonClick.
  unfold bind, emit, localStorage_setItem, ret.
  cbn -[encodeToBase64 JSON_stringify set lookup remove createFormWithParams
        redirectRecord truthy prop entries assign].
  destruct (storeState && truthy state);
    destruct (negb _);
    cbn -[encodeToBase64 JSON_stringify set remove createFormWithParams
          redirectRecord truthy prop entries assign];
    eexists; (split; [reflexivity | ]);
    cbn -[encodeToBase64 JSON_stringify set remove createFormWithParams
          redirectRecord truthy prop entries assign];
    rewrite ?lookup_remove; cbn -[encodeToBase64 JSON_stringify set remove];
    rewrite ?lookup_remove; cbn -[encodeToBase64 JSON_stringify set remove];
    rewrite ?H12, ?H1, ?H2, ?String.eqb_refl; cbn -[encodeToBase64 JSON_stringify set remove];
    rewrite ?lookup_remove, ?H12, ?H1, ?H2, ?String.eqb_refl;
    try (rewrite (String.eqb_sym k2 k1), H12); auto.
Qed.

(** Reading back: when both entries are there and decode, the stored values
    are merged into the globals and both entries are removed. *)
Lemma restore_reads (globals : globalInitializedParamsType) (h : Handler)
    (w : World) (raw1 raw2 text1 text2 : string) (v1 v2 : value) :
  lookup (storeFetchesAs globals) (storage w) = Some raw1 ->
  lookup (storeToReturnAs globals) (storage w) = Some raw2 ->
  raw1 <> EmptyString -> raw2 <> EmptyString ->
  atob raw1 = Some text1 -> JSON_parse text1 = Some v1 ->
  atob raw2 = Some text2 -> JSON_parse text2 = Some v2 ->
  restoreStoredData globals h w =
  (Ret (Some (with_toReturnObject
                (with_previousFetchData globals
                   (assign (previousFetchData globals) (entries v1)))
                (assign (toReturnObject globals) (entries v2)))),
   mkWorld (trace w)
     (remove (storeToReturnAs globals)
        (remove (storeFetchesAs globals) (storage w)))
     (ticks w)).
Proof.
  intros Hk1 Hk2 Hn1 Hn2 Ha1 Hp1 Ha2 Hp2.
  unfold restoreStoredData, try_catch, bind, localStorage_getItem,
    localStorage_removeItem, decodeFromBase64, JSON_parse_or_throw, ret.
  rewrite Hk1. destruct raw1 as [ | c1 r1]; [contradiction | ].
  rewrite Hk2. destruct raw2 as [ | c2 r2]; [contradiction | ].
  rewrite Ha1. cbn. rewrite Hp1. cbn. rewrite Ha2. cbn. rewrite Hp2. cbn.
  reflexivity.
Qed.

Lemma assign_fresh (entries : object) :
  forall o : object,
    NoDup (keys o ++ keys entries) -> assign o entries = (o ++ entries)%list.
Proof.
  unfold assign.
  induction entries as [ | [k v] rest IH]; intros o Hnd; cbn.
  - now rewrite app_nil_r.
  - cbn in Hnd. rewrite set_new.
    + rewrite IH.
      * now rewrite <- app_assoc.
      * unfold keys. rewrite map_app. cbn. now rewrite <- app_assoc.
    + apply NoDup_remove_2 in Hnd. intros Hin. apply Hnd.
      apply in_or_app. now left.
Qed.

(** C4, as amended. The redirect stores the ledger (with the record of the
    redirect step) and the accumulator as base64-encoded JSON under the keys
    ["fetch data before redirect: "] and ["values to return: "]. For a ledger
    and an accumulator that the platform's decoders give back from their
    stored text, reading them back in any world with that storage merges
    identical values into the fresh globals, and afterwards both entries are
    gone from local storage. *)
Theorem bridge_round_trip (config : configType)
    (configProvider : customProviderType) (globalErrorHandler : Handler)
    (requestMethod : string) (params : initializedParamsType) (url : string)
    (ledger acc : object) (storeState : bool) (state : value) (w : World) :
  let globals :=
    initGlobalParams config configProvider globalErrorHandler beforeRedirect in
  let stored :=
    set (p_name params) (redirectRecord requestMethod params) ledger in
  NoDup (keys stored) ->
  NoDup (keys acc) ->
  atob (btoa (JSON_stringify (Obj stored))) = Some (JSON_stringify (Obj stored)) ->
  JSON_parse (JSON_stringify (Obj stored)) = Some (Obj stored) ->
  atob (btoa (JSON_stringify (Obj acc))) = Some (JSON_stringify (Obj acc)) ->
  JSON_parse (JSON_stringify (Obj acc)) = Some (Obj acc) ->
  exists w1,
    redirectOnCustomProviderButtonClick requestMethod params url ledger
      (storeFetchesAs globals) (storeToReturnAs globals) acc storeState state
      w = (Ret tt, w1)
    /\ lookup "fetch data before redirect: " (storage w1) =
       Some (btoa (JSON_stringify (Obj stored)))
    /\ lookup "values to return: " (storage w1) =
       Some (btoa (JSON_stringify (Obj acc)))
    /\ forall w2,
         storage w2 = storage w1 ->
         exists globals' w3,
           restoreStoredData globals globalErrorHandler w2 =
           (Ret (Some globals'), w3)
           /\ previousFetchData globals' = stored
           /\ toReturnObject globals' = acc
           /\ lookup "fetch data before redirect: " (storage w3) = None
           /\ lookup "values to return: " (storage w3) = None.
Proof.
  intros globals stored Hnd1 Hnd2 Ha1 Hp1 Ha2 Hp2.
  destruct (redirect_stores requestMethod params url ledger
              (storeFetchesAs globals) (storeToReturnAs globals) acc
              storeState state w) as (w1 & Hrun & Hk1 & Hk2);
    try (cbn; discriminate).
  exists w1. split; [exact Hrun | ]. split; [exact Hk1 | ].
  split; [exact Hk2 | ].
  intros w2 Hsame. rewrite <- Hsame in Hk1, Hk2.
  do 2 eexists. split.
  - eapply restore_reads; try eassumption; apply stored_object_nonempty.
  - unfold globals, initGlobalParams, with_toReturnObject,
      with_previousFetchData.
    cbn [previousFetchData toReturnObject storeFetchesAs storeToReturnAs
         entries storage].
    rewrite !assign_fresh by assumption.
    split; [reflexivity | ]. split; [reflexivity | ].
    rewrite !lookup_remove. split; reflexivity.
Qed.

(** *** The ledger of a run in the browser *)





(** *** The resolver, entry by entry *)

Lemma bind_assoc {A B C} (m : M A) (k : A -> M B) (k' : B -> M C) (w : World) :
  bind (bind m k) k' w = bind m (fun a => bind (k a) k') w.
Proof.
  unfold bind. destruct (m w) as [[a | e | ] w1]; reflexivity.
Qed.

Lemma resolveEntries_app (isServer : bool) (givenParams ledger : object)
    (record : value) (h : Handler) (parser : option object)
    (before after : requestParamsType) :
  forall (acc : object) (w : World),
    resolveEntries isServer givenParams ledger record h parser
      (before ++ after)%list acc w =
    bind (resolveEntries isServer givenParams ledger record h parser before acc)
      (fun mid =>
         resolveEntries isServer givenParams ledger record h parser after mid)
      w.
Proof.
  induction before as [ | [key spec] before IH]; intros acc w.
  - reflexivity.
  - cbn [app resolveEntries]. rewrite bind_assoc.
    unfold bind at 1. unfold bind at 1.
    destruct (resolveEntry _ _ _ _ _ _ _ _ _ w) as [[next | e | ] w1];
      [apply IH | reflexivity | reflexivity].
Qed.

(** An entry that throws ends [getAllParams]: nothing is returned, and the
    entries after it are not looked at. *)
Lemma getAllParams_throws_at (isServer : bool) (paramName : string)
    (givenParams ledger : object) (record : value) (h : Handler)
    (parser : option object) (before after : requestParamsType)
    (key : string) (spec : ParamSpec) (acc : object) (w w1 : World)
    (e : Error) (w2 : World) :
  resolveEntries isServer givenParams ledger record h parser before [] w =
  (Ret acc, w1) ->
  resolveEntry isServer givenParams ledger record h parser acc key spec w1 =
  (Throw e, w2) ->
  getAllParams isServer paramName givenParams
    (before ++ (key, spec) :: after)%list ledger record h parser w =
  (Throw e, w2).
Proof.
  intros Hbefore Hentry. unfold getAllParams.
  unfold bind at 1. rewrite resolveEntries_app.
  erewrite bind_Ret by exact Hbefore.
  cbn [resolveEntries]. erewrite bind_Throw by exact Hentry. reflexivity.
Qed.

Lemma removeNestedObjects_flat (o : object) :
  forall acc : object,
    NoDup (keys acc ++ keys o) ->
    Forall (fun kv => typeof (snd kv) <> "object") o ->
    fold_left
      (fun finalObj kv =>
         if negb (typeof (snd kv) =? "object")
         then set (fst kv) (snd kv) finalObj
         else finalObj) o acc = (acc ++ o)%list.
Proof.
  induction o as [ | [k v] o IH]; intros acc Hnd Hflat; cbn.
  - now rewrite app_nil_r.
  - inversion Hflat as [ | ? ? Hv Hrest]; subst. cbn in Hv.
    apply String.eqb_neq in Hv. rewrite Hv. cbn [negb].
    cbn in Hnd. rewrite set_new.
    + rewrite IH; [now rewrite <- app_assoc | | assumption].
      unfold keys. rewrite map_app. cbn. now rewrite <- app_assoc.
    + apply NoDup_remove_2 in Hnd. intros Hin. apply Hnd.
      apply in_or_app. now left.
Qed.

(** X10. Static parameters pass through unchanged: a map whose entries are all
    strings is returned as it is given, in its order, and nobody is called
    and nothing is sent. *)
Theorem getAllParams_literals_pass_through (isServer : bool)
    (paramName : string) (givenParams : object)
    (literals : list (string * string)) (ledger : object) (record : value)
    (h : Handler) (parser : option object) (w : World) :
  NoDup (keys literals) ->
  getAllParams isServer paramName givenParams
    (map (fun kv => (fst kv, Literal (snd kv))) literals) ledger record h
    parser w =
  (Ret (map (fun kv => (fst kv, Str (snd kv))) literals), w).
Proof.
  intros Hnd. unfold getAllParams.
  assert (Hloop : forall acc,
             NoDup (keys acc ++ keys literals) ->
             resolveEntries isServer givenParams ledger record h parser
               (map (fun kv => (fst kv, Literal (snd kv))) literals) acc w =
             (Ret (acc ++ map (fun kv => (fst kv, Str (snd kv))) literals)%list,
              w)).
  { clear Hnd. induction literals as [ | [k s] rest IH]; intros acc Hacc.
    - cbn. now rewrite app_nil_r.
    - cbn [map resolveEntries fst snd resolveEntry]. unfold bind, ret.
      cbn in Hacc. rewrite set_new.
      + rewrite IH; [now rewrite <- app_assoc | ].
        unfold keys. rewrite map_app. cbn. now rewrite <- app_assoc.
      + apply NoDup_remove_2 in Hacc. intros Hin. apply Hacc.
        apply in_or_app. now left. }
  erewrite bind_Ret by (apply (Hloop []); exact Hnd).
  cbn [app]. unfold ret, removeNestedObjects.
  rewrite removeNestedObjects_flat; [reflexivity | | ].
  - cbn [app keys map]. unfold keys in *. rewrite map_map. exact Hnd.
  - apply Forall_forall. intros kv Hin. apply in_map_iff in Hin.
    destruct Hin as (x & <- & _). cbn. discriminate.
Qed.

(** X11. With an override map (the parameters the provider sent back, on the
    server) a reference is looked up in that map, and the ledger is not
    consulted: one-segment references to non-empty strings of the map
    resolve to them. *)
Theorem getAllParams_reads_override_map (isServer : bool)
    (paramName : string) (givenParams : object)
    (named : list (string * (string * string))) (ledger : object)
    (record : value) (h : Handler) (parser : object) (w : World) :
  NoDup (keys named) ->
  Forall (fun entry =>
            lookup (fst (snd entry)) parser = Some (Str (snd (snd entry)))
            /\ snd (snd entry) <> EmptyString) named ->
  getAllParams isServer paramName givenParams
    (map (fun entry => (fst entry, Reference [fst (snd entry)])) named)
    ledger record h (Some parser) w =
  (Ret (map (fun entry => (fst entry, Str (snd (snd entry)))) named), w).
Proof.
  intros Hnd Hfound. unfold getAllParams.
  assert (Hloop : forall acc,
             NoDup (keys acc ++ keys named) ->
             resolveEntries isServer givenParams ledger record h
               (Some parser)
               (map (fun entry => (fst entry, Reference [fst (snd entry)]))
                  named) acc w =
             (Ret (acc ++ map (fun entry => (fst entry, Str (snd (snd entry))))
                           named)%list, w)).
  { clear Hnd. induction named as [ | [key [k s]] rest IH]; intros acc Hacc.
    - cbn. now rewrite app_nil_r.
    - inversion Hfound as [ | ? ? [Hk Hs] Hrest]; subst. cbn in Hk, Hs.
      cbn [map resolveEntries fst snd resolveEntry].
      unfold resolveReference. cbn [length Nat.ltb Nat.leb andb].
      unfold bind at 1. unfold bind at 1. cbn [ret].
      unfold bind at 1. unfold bind at 1. cbn [ret truthy negb].
      unfold bind at 1. cbn [follow]. unfold bind at 1, try_catch, read, get.
      unfold member. cbn [own]. rewrite Hk. cbn [ret truthy].
      apply String.eqb_neq in Hs. rewrite Hs. cbn [negb].
      cbn in Hacc. rewrite set_new.
      + unfold ret. rewrite (IH Hrest); [now rewrite <- app_assoc | ].
        unfold keys. rewrite map_app. cbn. now rewrite <- app_assoc.
      + apply NoDup_remove_2 in Hacc. intros Hin. apply Hacc.
        apply in_or_app. now left. }
  erewrite bind_Ret by (apply (Hloop []); exact Hnd).
  cbn [app]. unfold ret, removeNestedObjects.
  rewrite removeNestedObjects_flat; [reflexivity | | ].
  - cbn [app keys map]. unfold keys in *. rewrite map_map. exact Hnd.
  - apply Forall_forall. intros kv Hin. apply in_map_iff in Hin.
    destruct Hin as (x & <- & _). cbn. discriminate.
Qed.

(** X12. With an override map, a one-segment reference that the map does not
    hold (or holds as an empty value) is not reported: building the message
    for the error handler reads [previousFetchData[k][undefined]], and when
    the ledger has no entry [k] either, that read throws a [TypeError]. The
    handler is not called. *)
Theorem getAllParams_override_map_miss (isServer : bool) (paramName : string)
    (givenParams ledger : object) (record : value) (h : Handler)
    (parser : object) (before after : requestParamsType) (key k : string)
    (acc : object) (w w1 : World) :
  resolveEntries isServer givenParams ledger record h (Some parser) before []
    w = (Ret acc, w1) ->
  truthy (member (Obj parser) k) = false ->
  member (Obj ledger) k = Undefined ->
  getAllParams isServer paramName givenParams
    (before ++ (key, Reference [k]) :: after)%list ledger record h
    (Some parser) w =
  (Throw (TypeError Undefined "undefined"), w1).
Proof.
  intros Hbefore Hmiss Hledger.
  eapply getAllParams_throws_at; [exact Hbefore | ].
  cbn [resolveEntry]. unfold resolveReference.
  cbn [length Nat.ltb Nat.leb andb].
  unfold bind at 1. unfold bind at 1. cbn [ret].
  unfold bind at 1. unfold bind at 1. cbn [ret truthy negb].
  unfold bind at 1. cbn [follow]. unfold bind at 1, try_catch, read, get.
  cbn [ret]. rewrite Hmiss.
  unfold bind at 1. cbn [key_at nth]. rewrite Hledger. reflexivity.
Qed.

(** X13. A resolver function is given the parameters resolved so far, objects
    included, and must return a truthy value: when it returns [undefined],
    [null], [false], [0] or the empty string, the handler is called with
    ["Function returned nothing"] and [getAllParams] throws. *)
Theorem getAllParams_resolver_must_return (isServer : bool)
    (paramName : string) (givenParams ledger : object) (record : value)
    (h : Handler) (parser : option object)
    (before after : requestParamsType) (key : string) (f : Resolver)
    (acc : object) (w w1 : World) :
  resolveEntries isServer givenParams ledger record h parser before [] w =
  (Ret acc, w1) ->
  truthy (f givenParams acc ledger record) = false ->
  getAllParams isServer paramName givenParams
    (before ++ (key, Resolve f) :: after)%list ledger record h parser w =
  (Throw (raised h "Function returned nothing" "Function returned nothing"),
   reported h "Function returned nothing" "Function returned nothing" w1).
Proof.
  intros Hbefore Hfalsy.
  eapply getAllParams_throws_at; [exact Hbefore | ].
  cbn [resolveEntry]. rewrite Hfalsy. cbn [negb].
  unfold bind. rewrite throwError_reports. reflexivity.
Qed.

(** X14. Without an override map a reference needs at least two segments, and
    its second segment must be ["request"] or ["response"]: otherwise the
    handler is called and [getAllParams] throws, before the ledger is
    read. *)
Theorem getAllParams_reference_guards (isServer : bool) (paramName : string)
    (givenParams ledger : object) (record : value) (h : Handler)
    (before after : requestParamsType) (key : string) (path : list string)
    (acc : object) (w w1 : World) :
  resolveEntries isServer givenParams ledger record h None before [] w =
  (Ret acc, w1) ->
  let run :=
    getAllParams isServer paramName givenParams
      (before ++ (key, Reference path) :: after)%list ledger record h None w in
  let few :=
    "Too less parameters given to access the previous request or response. minimum 2 are required" in
  let hint :=
    "The first parameter should always be the name of the fetch operation (url by default) and the second parameter should be either 'response' or 'request'" in
  let half :=
    "The second Parameter of the array in the fromPreviousFetches should always be either 'request' or 'response'" in
  ((length path < 2)%nat ->
   run = (Throw (raised h few hint), reported h few hint w1))
  /\ ((2 <= length path)%nat ->
      segment_is 1 path "request" = false ->
      segment_is 1 path "response" = false ->
      run = (Throw (raised h half half), reported h half half w1)).
Proof.
  intros Hbefore run few hint half. subst run. split.
  - intros Hlen.
    eapply getAllParams_throws_at; [exact Hbefore | ].
    cbn [resolveEntry]. unfold resolveReference.
    apply Nat.ltb_lt in Hlen. rewrite Hlen. cbn [andb].
    unfold bind. rewrite throwError_reports. reflexivity.
  - intros Hlen Hrequest Hresponse.
    eapply getAllParams_throws_at; [exact Hbefore | ].
    cbn [resolveEntry]. unfold resolveReference.
    replace (length path <? 2)%nat with false
      by (symmetry; apply Nat.ltb_ge; exact Hlen).
    rewrite Hrequest, Hresponse. cbn [andb orb].
    unfold bind at 1. unfold bind at 1. cbn [ret].
    unfold bind at 1. cbn [ret truthy negb].
    unfold bind. rewrite throwError_reports. reflexivity.
Qed.

(** *** What [initParams] settles without resolving anything *)

Lemma initParams_fields (isServer : bool) (reqUrls : redirectUrlsObjectType)
    (url : string) (observing : observingFuncsType) (globalTimeout : Z)
    (givenParams ledger : object) (parser : option object) (w : World)
    (params : initializedParamsType) (w' : World) :
  initParams isServer reqUrls url observing globalTimeout givenParams ledger
    parser w = (Ret params, w') ->
  exists details,
    lookup url reqUrls = Some details
    /\ p_maxRetries params =
       match r_maxRetries
               (nullish (rq_retries (u_request details))
                  (mkRetries None None None None)) with
       | Some n => if (n =? 0)%Z then 2%Z else n
       | None => 2%Z
       end
    /\ p_retryOn params =
       match r_retryOn
               (nullish (rq_retries (u_request details))
                  (mkRetries None None None None)) with
       | Some f => f
       | None =>
           fun (_ : Error) (statusCode : Z) =>
             ((statusCode =? 429) || (statusCode =? 503))%Z
       end
    /\ p_onError params =
       nullish (rq_onError (u_request details)) (obs_onError observing)
    /\ p_onErrorInResponse params =
       nullish (rs_onError (u_response details))
         (nullish (rq_onError (u_request details)) (obs_onError observing)).
Proof.
  unfold initParams. destruct (lookup url reqUrls) as [details | ];
    [ | discriminate].
  intros H. do 3 bind_inv H. injection H as <- _. exists details.
  repeat split; reflexivity.
Qed.

(** X8. [maxRetries] is read with a truthiness test, so a configured 0 counts as
    left out: the step gets the default of 2 and its request is still sent.
    A step is never initialized with [maxRetries = 0]; any other configured
    number, a negative one included, is kept. *)
Theorem initParams_zero_maxRetries_is_default (isServer : bool)
    (reqUrls : redirectUrlsObjectType) (url : string)
    (observing : observingFuncsType) (globalTimeout : Z)
    (givenParams ledger : object) (parser : option object) (w : World)
    (details : UrlType) (params : initializedParamsType) (w' : World) :
  lookup url reqUrls = Some details ->
  initParams isServer reqUrls url observing globalTimeout givenParams ledger
    parser w = (Ret params, w') ->
  let configured :=
    match rq_retries (u_request details) with
    | Some policy => r_maxRetries policy
    | None => None
    end in
  p_maxRetries params <> 0%Z
  /\ (configured = Some 0%Z -> p_maxRetries params = 2%Z)
  /\ (forall n, configured = Some n -> n <> 0%Z -> p_maxRetries params = n).
Proof.
  intros Hurl Hinit configured.
  apply initParams_fields in Hinit.
  destruct Hinit as (details' & Hd & Hmax & _).
  rewrite Hurl in Hd. injection Hd as <-.
  subst configured. rewrite Hmax.
  destruct (rq_retries (u_request details)) as [policy | ]; cbn;
    [ | repeat split; try discriminate].
  destruct (r_maxRetries policy) as [n | ]; cbn;
    [ | repeat split; try discriminate].
  destruct (n =? 0)%Z eqn:Hz.
  - apply Z.eqb_eq in Hz. subst n. split; [discriminate | ].
    split; [reflexivity | ]. intros m Hm Hne. now injection Hm as <-.
  - apply Z.eqb_neq in Hz. split; [exact Hz | ].
    split; [intros Hm; now injection Hm as -> | ].
    intros m Hm _. now injection Hm as <-.
Qed.

(** X9. The error handler of a step: the step's [response.onError], else its
    [request.onError], else the provider's [observability.onError], else
    the global handler. Failures before the request is sent go to the
    same chain without its first link. *)
Theorem initParams_error_handler_precedence (config : configType)
    (configProvider : customProviderType) (globalErrorHandler : Handler)
    (eventName : eventNameType) (isServer : bool) (url : string)
    (givenParams ledger : object) (parser : option object) (w : World)
    (details : UrlType) (params : initializedParamsType) (w' : World) :
  let globals :=
    initGlobalParams config configProvider globalErrorHandler eventName in
  lookup url (reqUrls globals) = Some details ->
  initParams isServer (reqUrls globals) url (observingFuncs globals)
    (g_globalTimeout globals) givenParams ledger parser w = (Ret params, w') ->
  let ofProvider :=
    match cp_observability configProvider with
    | Some observability => nullish (ob_onError observability) globalErrorHandler
    | None => globalErrorHandler
    end in
  p_onError params = nullish (rq_onError (u_request details)) ofProvider
  /\ p_onErrorInResponse params =
     nullish (rs_onError (u_response details))
       (nullish (rq_onError (u_request details)) ofProvider).
Proof.
  intros globals Hurl Hinit ofProvider.
  apply initParams_fields in Hinit.
  destruct Hinit as (details' & Hd & _ & _ & Herr & Hresp).
  rewrite Hurl in Hd. injection Hd as <-.
  rewrite Herr, Hresp. subst globals ofProvider.
  unfold initGlobalParams. cbn [observingFuncs].
  destruct (cp_observability configProvider); split; reflexivity.
Qed.

(** X7. A step with no retry policy gives up on a request that is rejected
    before any response came (a timeout included): the default predicate
    retries on the status codes 429 and 503 only, and a rejected first
    request has the status code 0. The error is reported and thrown after
    one request. *)
Theorem default_policy_gives_up_on_rejected_request (isServer : bool)
    (reqUrls : redirectUrlsObjectType) (url : string)
    (observing : observingFuncsType) (globalTimeout : Z)
    (givenParams ledger : object) (parser : option object) (w0 w1 : World)
    (details : UrlType) (params : initializedParamsType)
    (requestUrl requestBody : string) (record : value)
    (proxy : option string) (e : Error) (w : World) :
  lookup url reqUrls = Some details ->
  rq_retries (u_request details) = None ->
  initParams isServer reqUrls url observing globalTimeout givenParams ledger
    parser w0 = (Ret params, w1) ->
  network (fetches (trace w))
    (attemptRequest requestUrl (p_method params) (p_headers params)
       requestBody (p_responseParseType params) proxy) = Rejected e ->
  exists added w',
    waitAndRetryRequest requestUrl (p_method params) (p_headers params)
      requestBody (p_timeout params) (p_onErrorInResponse params)
      (p_validateResponse params) ledger (p_maxRetries params)
      (p_backOffStrategy params) (Some (p_onRetry params)) (p_retryOn params)
      observing record (p_responseParseType params) proxy w =
    (Throw (raised (p_onErrorInResponse params) (error_text e) (error_text e)),
     w')
    /\ trace w' = (trace w ++ added)%list
    /\ requests added =
       [attemptRequest requestUrl (p_method params) (p_headers params)
          requestBody (p_responseParseType params) proxy]
    /\ delays added = [].
Proof.
  intros Hurl Hpolicy Hinit Hnet.
  apply initParams_fields in Hinit.
  destruct Hinit as (details' & Hd & Hmax & Hretry & _).
  rewrite Hurl in Hd. injection Hd as <-.
  rewrite Hpolicy in Hmax, Hretry. cbn in Hmax, Hretry.
  rewrite Hmax, Hretry.
  unfold waitAndRetryRequest, bind at 1, now at 1.
  rewrite loop_turn by reflexivity.
  cbn [trace storage ticks]. rewrite Hnet. cbn [settle settled throw].
  unfold bind.
  match goal with
  | |- context [afterFailure e ?st ?t0 ?h ?l ?m ?b ?r ?p ?wx] =>
      destruct (afterFailure_fatal h l m b r p e st t0 wx eq_refl)
        as (context & Hcatch)
  end.
  rewrite Hcatch. do 2 eexists. split; [reflexivity | ].
  cbn [trace]. split; [rewrite <- !app_assoc; reflexivity | ].
  rewrite !requests_app, !delays_app. unfold startEvents.
  destruct (onRequestStart observing); split; reflexivity.
Qed.

(** *** The runners *)

(** What [initGlobalParams] does with a value that the prototype chain
    gave: it throws when the value has no [urls]. *)
Lemma initGlobalParams_inherited_reads (configProvider : value)
    (eventName : eventNameType) (w : World) :
  initGlobalParams_inherited configProvider eventName w =
  match get (member configProvider "urls") (eventKey eventName) with
  | Some reqUrls =>
      (Ret (member configProvider "paramsList",
            member configProvider "serverEndPoint", reqUrls), w)
  | None =>
      (Throw (TypeError (member configProvider "urls") (eventKey eventName)),
       w)
  end.
Proof.
  unfold initGlobalParams_inherited, read, bind.
  destruct (get _ _); reflexivity.
Qed.




(** X16. A provider for which [config.customProviders[provider]] is falsy
    (there are no custom providers, or the name is no own key and the
    prototype chain holds nothing truthy under it), or whose description
    lacks its params list, its server end point or the steps of the stage,
    is refused by both runners before anything else happens: the global
    error handler (a no-op when there is none) is called once and the call
    throws; nothing is sent, stored or redirected. A name that is no own
    key but that the prototype chain answers with a truthy value without
    [urls] ([toString], [constructor]) passes the guard and is not
    reported: [initGlobalParams] reads [urls[eventName]] and throws a
    [TypeError], and the handler is not called. *)
Theorem runners_refuse_misconfigured_provider (config : configType)
    (provider : string) (allParams : object) (w : World) :
  let handler := nullish (cfg_globalErrorHandler config) silent in
  let urls := member (inheritedProvider config provider) "urls" in
  (misconfigured config provider afterRedirect ->
   exists message details,
     getCustomProviderUserInfo config provider allParams w =
     (Throw (raised handler message details),
      reported handler message details w))
  /\ (misconfigured config provider beforeRedirect ->
      exists message details,
        handleCustomProvidersLoginButtonClick config provider w =
        (Throw (raised handler message details),
         reported handler message details w))
  /\ (match cfg_customProviders config with
      | Some providers => lookup provider providers
      | None => None
      end = None ->
      truthy (inheritedProvider config provider) = true ->
      urls = Undefined \/ urls = Null ->
      getCustomProviderUserInfo config provider allParams w =
      (Throw (TypeError urls "afterRedirect"), w)
      /\ handleCustomProvidersLoginButtonClick config provider w =
         (Throw (TypeError urls "beforeRedirect"), w)).
Proof.
  intros handler urls. unfold misconfigured.
  unfold getCustomProviderUserInfo, handleCustomProvidersLoginButtonClick.
  fold handler.
  destruct (match cfg_customProviders config with
            | Some providers => lookup provider providers
            | None => None
            end) as [configProvider | ].
  - unfold initGlobalParams. cbn [givenParams g_serverEndPoint reqUrls].
    split; [ | split; [ | discriminate]];
      intros [Hparams | [Hpoint | Hsteps]].
    + rewrite Hparams. unfold bind. rewrite throwError_reports.
      do 2 eexists. reflexivity.
    + destruct (cp_paramsList configProvider);
        [rewrite Hpoint; cbn [String.eqb] | ];
        unfold bind; rewrite throwError_reports; do 2 eexists; reflexivity.
    + destruct (cp_paramsList configProvider);
        [destruct (cp_serverEndPoint configProvider =? EmptyString);
         [ | rewrite Hsteps] | ];
        unfold bind; rewrite throwError_reports; do 2 eexists; reflexivity.
    + rewrite Hparams. rewrite throwError_reports.
      do 2 eexists. reflexivity.
    + destruct (cp_paramsList configProvider);
        [rewrite Hpoint; cbn [String.eqb] | ];
        rewrite throwError_reports; do 2 eexists; reflexivity.
    + destruct (cp_paramsList configProvider);
        [destruct (cp_serverEndPoint configProvider =? EmptyString);
         [ | rewrite Hsteps; unfold bind] | ];
        rewrite throwError_reports; do 2 eexists; reflexivity.
  - split; [ | split].
    + intros ->. cbn [negb]. unfold bind. rewrite throwError_reports.
      do 2 eexists. reflexivity.
    + intros ->. cbn [negb]. rewrite throwError_reports.
      do 2 eexists. reflexivity.
    + intros _ -> Hurls. cbn [negb].
      unfold getCustomProviderUserInfo_inherited,
        handleCustomProvidersLoginButtonClick_inherited, bind.
      rewrite !initGlobalParams_inherited_reads. fold urls.
      destruct Hurls as [-> | ->]; split; reflexivity.
Qed.

(** Closes the case of a restore that failed: the reports are read off the
    run [H]. *)
Ltac restore_failed H Hevent :=
  repeat (rewrite throwError_reports in H; cbv beta iota in H);
  injection H as <- <-; right; do 2 eexists;
  split; [reflexivity | ];
  split; [reflexivity | ];
  split; [unfold reported; cbn [trace]; rewrite <- ?app_assoc; reflexivity | ];
  split; [repeat constructor; apply Hevent | reflexivity].

(** X17. Reading the stored ledger and accumulator back either succeeds, and
    then both entries are removed from local storage and nobody was called,
    or it throws, and then local storage is left as it was: a failed
    restore removes nothing. The failure is reported to the handler once
    when a stored text does not decode, and twice when an entry is missing
    or empty: the report of the missing entry is thrown inside the [try]
    block, caught, and reported again by the [catch] block. The function
    never returns without a result. *)
Theorem restoreStoredData_restores_or_keeps
    (globals : globalInitializedParamsType) (h : Handler) (w : World) :
  let run := restoreStoredData globals h w in
  (exists globals',
      fst run = Ret (Some globals')
      /\ trace (snd run) = trace w
      /\ storage (snd run) =
         remove (storeToReturnAs globals)
           (remove (storeFetchesAs globals) (storage w)))
  \/ (exists e added,
        fst run = Throw e
        /\ storage (snd run) = storage w
        /\ trace (snd run) = (trace w ++ added)%list
        /\ Forall (fun event =>
                     exists error details,
                       event = HandlerCalled (h_label h) error details) added
        /\ length added =
           if present (storeFetchesAs globals) (storage w)
              && present (storeToReturnAs globals) (storage w)
           then 1%nat else 2%nat).
Proof.
  intros run. subst run.
  destruct (restoreStoredData globals h w) as [r w'] eqn:H. cbn [fst snd].
  unfold restoreStoredData, present, try_catch, bind, localStorage_getItem,
    localStorage_removeItem, decodeFromBase64, JSON_parse_or_throw, ret,
    throw in *.
  assert (Hevent : forall message : string,
             exists error details,
               HandlerCalled (h_label h) (new_Error message) message =
               HandlerCalled (h_label h) error details)
    by (intros message; now do 2 eexists).
  destruct (lookup (storeFetchesAs globals) (storage w)) as [[ | c1 raw1] | ];
    [restore_failed H Hevent | | restore_failed H Hevent].
  destruct (lookup (storeToReturnAs globals) (storage w)) as [[ | c2 raw2] | ];
    [restore_failed H Hevent | | restore_failed H Hevent].
  destruct (atob (String c1 raw1)) as [text1 | ];
    [ | restore_failed H Hevent].
  destruct (JSON_parse text1) as [v1 | ]; [ | restore_failed H Hevent].
  destruct (atob (String c2 raw2)) as [text2 | ];
    [ | restore_failed H Hevent].
  destruct (JSON_parse text2) as [v2 | ]; [ | restore_failed H Hevent].
  injection H as <- <-. left. eexists. repeat split.
Qed.

(** *** Strings *)

Lemma append_assoc (a b c : string) : (a ++ b) ++ c = a ++ b ++ c.
Proof. induction a as [ | x a IH]; cbn; [reflexivity | now rewrite IH]. Qed.

Lemma append_empty (a : string) : a ++ EmptyString = a.
Proof. induction a as [ | x a IH]; cbn; [reflexivity | now rewrite IH]. Qed.

Lemma drop_last_append (a b : string) :
  b <> EmptyString -> drop_last (a ++ b) = a ++ drop_last b.
Proof.
  intros Hb. induction a as [ | x a IH]; [reflexivity | ].
  cbn [append drop_last].
  destruct (a ++ b) eqn:E.
  - destruct a; [cbn in E; contradiction | discriminate].
  - now rewrite <- IH.
Qed.

Lemma chars_append (a b : string) :
  list_ascii_of_string (a ++ b) =
  (list_ascii_of_string a ++ list_ascii_of_string b)%list.
Proof. induction a as [ | x a IH]; cbn; [reflexivity | now rewrite IH]. Qed.

(** *** Query strings and percent encoding *)

(** X23. The query string of a parameter map: the empty string for the empty
    map, so that a URL without parameters gets no dangling [?]; otherwise
    [?] and the pairs [key=value], each value encoded, joined by [&]. *)
Theorem convertToUrlParams_joins_pairs (urlParams : object) (pe : bool) :
  let encoded (kv : string * value) :=
    fst kv ++ "="
    ++ (if pe then pE (to_string (snd kv))
        else encodeURIComponent (to_string (snd kv))) in
  convertToUrlParams urlParams pe =
  match urlParams with
  | [] => EmptyString
  | _ :: _ => "?" ++ join "&" (map encoded urlParams)
  end.
Proof.
  intros encoded. unfold convertToUrlParams.
  set (pieces := fold_right
                   (fun kv rest => encoded kv ++ "&" ++ rest) EmptyString).
  assert (Hfold : forall (l : object) (start : string),
             fold_left
               (fun finalUrl kv =>
                  finalUrl ++ fst kv ++ "="
                  ++ (if pe then pE (to_string (snd kv))
                      else encodeURIComponent (to_string (snd kv)))
                  ++ "&") l start =
             start ++ pieces l).
  { induction l as [ | kv l IH]; intros start; cbn [fold_left].
    - subst pieces. cbn. now rewrite append_empty.
    - rewrite IH. subst pieces encoded. cbn [fold_right].
      now rewrite !append_assoc. }
  assert (Hsome : forall (l : object) (kv0 : string * value),
             pieces (kv0 :: l) <> EmptyString).
  { intros l kv0. subst pieces. cbn [fold_right].
    apply append_nonempty. discriminate. }
  assert (Hjoin : forall (l : object) (kv0 : string * value),
             drop_last (pieces (kv0 :: l)) = join "&" (map encoded (kv0 :: l))).
  { induction l as [ | kv1 l IH]; intros kv0.
    - subst pieces. cbn [fold_right map join append].
      rewrite drop_last_append by discriminate.
      cbn. now rewrite append_empty.
    - specialize (IH kv1). specialize (Hsome l kv1).
      change (pieces (kv0 :: kv1 :: l))
        with (encoded kv0 ++ String "&" (pieces (kv1 :: l))).
      rewrite drop_last_append by discriminate.
      cbn [drop_last].
      destruct (pieces (kv1 :: l)) eqn:E; [contradiction | ].
      rewrite IH. reflexivity. }
  rewrite Hfold. destruct urlParams as [ | kv rest]; [reflexivity | ].
  rewrite drop_last_append by apply Hsome.
  now rewrite Hjoin.
Qed.

Lemma pE_char_unreserved (c x : ascii) :
  In x (list_ascii_of_string (pE_char c)) ->
  ~ In x ["!"; "*"; "'"; "("; ")"]%char.
Proof.
  unfold pE_char.
  destruct (nat_of_ascii c =? 33)%nat eqn:E1;
    [cbn; intros [<- | [<- | [<- | []]]] Hr;
     repeat (destruct Hr as [Hr | Hr]; [discriminate | ]); exact Hr | ].
  destruct (nat_of_ascii c =? 42)%nat eqn:E2;
    [cbn; intros [<- | [<- | [<- | []]]] Hr;
     repeat (destruct Hr as [Hr | Hr]; [discriminate | ]); exact Hr | ].
  destruct (nat_of_ascii c =? 39)%nat eqn:E3;
    [cbn; intros [<- | [<- | [<- | []]]] Hr;
     repeat (destruct Hr as [Hr | Hr]; [discriminate | ]); exact Hr | ].
  destruct (nat_of_ascii c =? 40)%nat eqn:E4;
    [cbn; intros [<- | [<- | [<- | []]]] Hr;
     repeat (destruct Hr as [Hr | Hr]; [discriminate | ]); exact Hr | ].
  destruct (nat_of_ascii c =? 41)%nat eqn:E5;
    [cbn; intros [<- | [<- | [<- | []]]] Hr;
     repeat (destruct Hr as [Hr | Hr]; [discriminate | ]); exact Hr | ].
  cbn. intros [<- | []] Hr.
  apply Nat.eqb_neq in E1, E2, E3, E4, E5.
  destruct Hr as [<- | [<- | [<- | [<- | [<- | []]]]]];
    [apply E1 | apply E2 | apply E3 | apply E4 | apply E5]; reflexivity.
Qed.

(** X24. [pE] leaves none of the characters [! * ' ( )] in its result, whatever
    [encodeURIComponent] returns; and it returns the result of
    [encodeURIComponent] unchanged when that holds none of them. *)
Theorem pE_leaves_no_reserved_character (str : string) :
  (forall x,
      In x (list_ascii_of_string (pE str)) ->
      ~ In x ["!"; "*"; "'"; "("; ")"]%char)
  /\ ((forall x,
         In x (list_ascii_of_string (encodeURIComponent str)) ->
         ~ In x ["!"; "*"; "'"; "("; ")"]%char) ->
      pE str = encodeURIComponent str).
Proof.
  unfold pE. generalize (encodeURIComponent str) as text. intros text.
  assert (Hconcat : forall l : list string,
             String.concat EmptyString l =
             fold_right append EmptyString l).
  { induction l as [ | a l IH]; [reflexivity | ].
    destruct l as [ | b l].
    - cbn. now rewrite append_empty.
    - change (String.concat EmptyString (a :: b :: l))
        with (a ++ EmptyString ++ String.concat EmptyString (b :: l)).
      rewrite IH. reflexivity. }
  rewrite Hconcat. split.
  - induction text as [ | c text IH]; cbn [list_ascii_of_string map fold_right].
    + intros x [].
    + intros x Hin. rewrite chars_append in Hin.
      apply in_app_or in Hin. destruct Hin as [Hin | Hin].
      * exact (pE_char_unreserved c x Hin).
      * exact (IH x Hin).
  - induction text as [ | c text IH]; cbn [list_ascii_of_string map fold_right];
      intros Hfree; [reflexivity | ].
    rewrite IH by (intros x Hx; apply Hfree; now right).
    assert (Hc : ~ In c ["!"; "*"; "'"; "("; ")"]%char)
      by (apply Hfree; now left).
    unfold pE_char.
    destruct (nat_of_ascii c =? 33)%nat eqn:E1.
    { exfalso. apply Hc. apply Nat.eqb_eq in E1. left.
      rewrite <- (ascii_nat_embedding c), E1. reflexivity. }
    destruct (nat_of_ascii c =? 42)%nat eqn:E2.
    { exfalso. apply Hc. apply Nat.eqb_eq in E2. right. left.
      rewrite <- (ascii_nat_embedding c), E2. reflexivity. }
    destruct (nat_of_ascii c =? 39)%nat eqn:E3.
    { exfalso. apply Hc. apply Nat.eqb_eq in E3. do 2 right. left.
      rewrite <- (ascii_nat_embedding c), E3. reflexivity. }
    destruct (nat_of_ascii c =? 40)%nat eqn:E4.
    { exfalso. apply Hc. apply Nat.eqb_eq in E4. do 3 right. left.
      rewrite <- (ascii_nat_embedding c), E4. reflexivity. }
    destruct (nat_of_ascii c =? 41)%nat eqn:E5.
    { exfalso. apply Hc. apply Nat.eqb_eq in E5. do 4 right. left.
      rewrite <- (ascii_nat_embedding c), E5. reflexivity. }
    reflexivity.
Qed.

(** *** The library functions a descriptor asks for *)

Lemma libraryFunctions_known (type name : string) :
  In name (keys (libraryFunctions type)) ->
  exists label,
    lookup name (libraryFunctions type) = Some (Fun label)
    /\ member (Obj (libraryFunctions type)) name = Fun label.
Proof.
  unfold libraryFunctions, member. cbn [keys map fst own].
  intros Hin.
  repeat (destruct Hin as [<- | Hin];
          [eexists; split; cbn; reflexivity | ]).
  destruct Hin.
Qed.

Lemma requiredFunctions_known (type : string) (names : list string) :
  forall (acc : object) (w : World),
    (forall name, In name names -> In name (keys (libraryFunctions type))) ->
    exists functions,
      requiredFunctions_from type names acc w = (Ret functions, w)
      /\ (forall name, In name names ->
                       lookup name functions =
                       lookup name (libraryFunctions type))
      /\ (forall name, ~ In name names ->
                       lookup name functions = lookup name acc).
Proof.
  induction names as [ | n names IH]; intros acc w Hknown.
  - exists acc. cbn. repeat split; intros name []; reflexivity.
  - destruct (libraryFunctions_known type n (Hknown n (or_introl eq_refl)))
      as (label & Hlookup & Hmember).
    cbn [requiredFunctions_from]. rewrite Hmember. cbn [truthy].
    unfold bind at 1. cbn [ret].
    destruct (IH (set n (Fun label) acc) w) as (functions & Hrun & Hin & Hout).
    { intros name Hname. apply Hknown. now right. }
    exists functions. split; [exact Hrun | ]. split.
    + intros name [<- | Hname].
      * destruct (in_dec string_dec n names) as [Hn | Hn].
        -- now apply Hin.
        -- rewrite (Hout n Hn), lookup_set, String.eqb_refl.
           now rewrite Hlookup.
      * now apply Hin.
    + intros name Hname. rewrite Hout by (intros Hn; apply Hname; now right).
      rewrite lookup_set.
      destruct (name =? n) eqn:E; [ | reflexivity].
      apply String.eqb_eq in E. subst name. exfalso. apply Hname. now left.
Qed.

(** X22. [getRequiredFunctions] hands out the functions of its catalogue and
    nothing else. When every name asked for is in the catalogue, it returns
    an object that binds exactly those names, each to its catalogue entry
    (for [getSignature], the variant of the side it runs on), and nobody is
    called. When a name is neither in the catalogue nor inherited, it never
    returns: it throws ["config not set"] when no configuration is
    installed, and otherwise reports ["Function not found"], which does not
    name the function, to the global handler and throws. *)
Theorem getRequiredFunctions_catalogue (names : list string) (type : string)
    (w : World) :
  ((forall name, In name names -> In name (keys (libraryFunctions type))) ->
   exists functions,
     getRequiredFunctions names type w = (Ret functions, w)
     /\ (forall name, In name names ->
                      lookup name functions =
                      lookup name (libraryFunctions type))
     /\ (forall name, In name (keys functions) -> In name names))
  /\ (forall name,
        In name names ->
        truthy (member (Obj (libraryFunctions type)) name) = false ->
        exists e w',
          getRequiredFunctions names type w = (Throw e, w')
          /\ match installed with
             | None => e = new_Error "config not set" /\ w' = w
             | Some config =>
                 match cfg_globalErrorHandler config with
                 | Some h =>
                     e = raised h "Function not found" "Function not found"
                     /\ w' = reported h "Function not found"
                               "Function not found" w
                 | None =>
                     e = mkError "Error" "Function not found" None /\ w' = w
                 end
             end).
Proof.
  unfold getRequiredFunctions. split.
  - intros Hknown.
    destruct (requiredFunctions_known type names [] w Hknown)
      as (functions & Hrun & Hin & Hout).
    exists functions. split; [exact Hrun | ]. split; [exact Hin | ].
    intros name Hname.
    destruct (in_dec string_dec name names) as [Hn | Hn]; [exact Hn | ].
    apply Hout in Hn. cbn in Hn.
    apply lookup_None_keys in Hn. contradiction.
  - intros name Hname Hunknown. generalize (@nil (string * value)) as acc.
    induction names as [ | n names IH]; intros acc; [destruct Hname | ].
    cbn [requiredFunctions_from].
    destruct (truthy (member (Obj (libraryFunctions type)) n)) eqn:Hn.
    + unfold bind at 1. cbn [ret].
      destruct Hname as [-> | Hname]; [congruence | ].
      apply IH. exact Hname.
    + unfold bind at 1. unfold bind at 1. unfold getConfig.
      destruct installed as [config | ]; cbn [ret throw].
      * destruct (cfg_globalErrorHandler config) as [h | ].
        -- unfold bind. rewrite throwError_reports.
           do 2 eexists. split; [reflexivity | now split].
        -- unfold bind, throwError, throw. cbn.
           do 2 eexists. split; [reflexivity | now split].
      * do 2 eexists. split; [reflexivity | now split].
Qed.

(** *** The redirect of the browser stage *)
















(** *** The URLs of the built-in providers *)

Lemma throwError_throws (message : string) (h : option Handler)
    (custom : option string) (w : World) :
  exists e w', throwError message h custom true w = (Throw e, w').
Proof.
  destruct h as [h | ].
  - rewrite throwError_reports. now do 2 eexists.
  - unfold throwError, bind, throw. cbn. now do 2 eexists.
Qed.

(** X21. [getProviderUrl] needs its [configProvider]: called without one, as
    the server does for the token and profile URLs, it never returns a URL.
    For a provider other than microsoft it does not even report: building
    the table of URLs reads [configProvider.tenant] and throws a
    [TypeError]. *)
Theorem getProviderUrl_needs_configProvider (provider : string)
    (urlType : option string) (w : World) :
  let run := getProviderUrl provider urlType None w in
  (exists e, fst run = Throw e)
  /\ (forall config,
        installed = Some config ->
        provider <> EmptyString ->
        provider <> "microsoft" ->
        run = (Throw (TypeError Undefined "tenant"), w)).
Proof.
  intros run. subst run. unfold getProviderUrl, getConfig. split.
  - destruct installed as [config | ]; [ | now eexists].
    unfold bind at 1. cbn [ret]. unfold bind at 1.
    destruct (provider =? EmptyString).
    + destruct (throwError_throws "Provider not found!"
                  (cfg_globalErrorHandler config)
                  (Some "Specify a provider name existing in the config file!")
                  w) as (e & w' & ->).
      now eexists.
    + cbn [ret]. destruct (provider =? "microsoft").
      * unfold bind.
        destruct (throwError_throws "Tenant not found!"
                    (cfg_globalErrorHandler config)
                    (Some "A tenant name is required for microsoft oauth!")
                    w) as (e & w' & ->).
        now eexists.
      * now eexists.
  - intros config -> Hsome Hother.
    apply String.eqb_neq in Hsome, Hother.
    unfold bind at 1. cbn [ret]. unfold bind at 1.
    rewrite Hsome, Hother. reflexivity.
Qed.

(** *** The browser's call of the server *)

(** X19. [handleRedirect] never throws. Without parameters it answers
    ["Access token not found"] and sends nothing. Otherwise it posts them
    once, with the provider, as JSON to the server: a rejected request and
    a body that is not JSON are answered as errors, and any body that is
    JSON is answered as a success, whatever the status of the response. *)
Theorem handleRedirect_never_throws (provider serverUrl : string)
    (extraParams : object) (w : World) :
  let run := handleRedirect provider serverUrl extraParams w in
  let posted :=
    mkRequest serverUrl "POST" [("Content-Type", Str "application/json")]
      (Some (JSON_stringify
               (Obj (assign [("provider", Str provider)] extraParams)))) in
  exists answer,
    fst run = Ret answer
    /\ (extraParams = [] ->
        answer = Failure "Access token not found" None /\ snd run = w)
    /\ (extraParams <> [] ->
        trace (snd run) = (trace w ++ [Fetched posted])%list
        /\ match network (fetches (trace w)) posted with
           | Rejected e =>
               answer = Failure "Error response from server:" (Some e)
           | Responded r =>
               match JSON_parse (body_text r) with
               | Some response => answer = Success response
               | None =>
                   answer =
                   Failure "Error response from server:"
                     (Some (mkError "SyntaxError" EmptyString None))
               end
           end).
Proof.
  intros run posted. subst run. unfold handleRedirect.
  destruct extraParams as [ | kv rest].
  - eexists. split; [reflexivity | ]. split; [now split | ].
    intros H. now contradiction H.
  - fold posted. unfold bind, fetch.
    destruct (network (fetches (trace w)) posted) as [e | r] eqn:Hnet;
      [ | destruct (JSON_parse (body_text r)) as [response | ] eqn:Hparse];
      cbn [ret fst snd trace]; eexists;
      (split; [reflexivity | ]);
      (split; [discriminate | ]); intros _; split; reflexivity.
Qed.

(** *** The proxy *)


(** *** Splitting *)

Lemma split_nonempty (c : ascii) (s : string) : split c s <> [].
Proof.
  induction s as [ | x s IH]; cbn [split]; [discriminate | ].
  destruct (x =? c)%char; [discriminate | ].
  destruct (split c s); [contradiction | discriminate].
Qed.

Lemma free_cons (c x : ascii) (s : string) :
  free c (String x s) -> (x =? c)%char = false /\ free c s.
Proof.
  unfold free. cbn. intros H. split.
  - apply Ascii.eqb_neq. intros ->. apply H. now left.
  - intros Hin. apply H. now right.
Qed.

Lemma free_append (c : ascii) (a b : string) :
  free c a -> free c b -> free c (a ++ b).
Proof.
  unfold free. rewrite chars_append. intros Ha Hb Hin.
  apply in_app_or in Hin. now destruct Hin.
Qed.

Lemma split_free (c : ascii) (s : string) : free c s -> split c s = [s].
Proof.
  induction s as [ | x s IH]; intros Hfree; [reflexivity | ].
  apply free_cons in Hfree. destruct Hfree as (Hx & Hs).
  cbn [split]. rewrite Hx, (IH Hs). reflexivity.
Qed.

Lemma split_at (c : ascii) (a b : string) :
  free c a -> split c (a ++ String c b) = a :: split c b.
Proof.
  induction a as [ | x a IH]; intros Hfree; cbn [append split].
  - now rewrite Ascii.eqb_refl.
  - apply free_cons in Hfree. destruct Hfree as (Hx & Ha).
    rewrite Hx, (IH Ha). reflexivity.
Qed.

Lemma split_join (c : ascii) (pieces : list string) :
  pieces <> [] ->
  Forall (free c) pieces ->
  split c (join (String c EmptyString) pieces) = pieces.
Proof.
  induction pieces as [ | p pieces IH]; intros Hne Hfree; [contradiction | ].
  inversion Hfree as [ | ? ? Hp Hrest]; subst.
  destruct pieces as [ | q pieces].
  - cbn [join]. now apply split_free.
  - change (join (String c EmptyString) (p :: q :: pieces))
      with (p ++ String c (join (String c EmptyString) (q :: pieces))).
    rewrite split_at by exact Hp. rewrite IH; [reflexivity | discriminate | ].
    exact Hrest.
Qed.

(** X25. [parseToken] reads a form-encoded text [k1=v1&k2=v2...]: it returns
    the value of the first pair whose key is the one searched, and [null]
    when there is none. A value is cut at its first [=]. *)
Theorem parseToken_reads_form_encoded (pairs : list (string * string))
    (toSearch : string) :
  pairs <> [] ->
  Forall (fun kv =>
            free "&" (fst kv) /\ free "=" (fst kv) /\ free "&" (snd kv))
    pairs ->
  parseToken (join "&" (map formPair pairs)) (Some toSearch) =
  match lookup toSearch pairs with
  | Some v => Str (nth 0 (split "=" v) EmptyString)
  | None => Null
  end.
Proof.
  intros Hne Hfree. unfold parseToken. cbn [nullish].
  rewrite split_join.
  - clear Hne. induction pairs as [ | [k v] pairs IH]; [reflexivity | ].
    inversion Hfree as [ | ? ? (_ & Hk & _) Hrest]; subst. cbn in Hk.
    cbn [map parseToken_from lookup]. unfold pairOf, formPair.
    cbn [fst snd]. change (k ++ "=" ++ v) with (k ++ String "=" v).
    rewrite split_at by exact Hk. cbn [nth nth_error fst snd].
    rewrite (String.eqb_sym k toSearch).
    destruct (toSearch =? k); [ | exact (IH Hrest)].
    pose proof (split_nonempty "=" v) as Hsome.
    destruct (split "=" v); [contradiction | reflexivity].
  - destruct pairs; [contradiction | discriminate].
  - apply Forall_forall. intros piece Hin. apply in_map_iff in Hin.
    destruct Hin as ([k v] & <- & Hin).
    rewrite Forall_forall in Hfree.
    destruct (Hfree _ Hin) as (Hk & _ & Hv). cbn in Hk, Hv.
    unfold formPair. cbn [fst snd]. apply free_append; [exact Hk | ].
    change ("=" ++ v) with (String "=" v). unfold free. cbn.
    intros [H | H]; [discriminate | contradiction].
Qed.

(** *** Cleaning and sorting objects *)

(** X29. [cleanObject] keeps the properties whose value is truthy, in their
    order: besides [null] and [undefined] it drops the empty string, [0]
    and [false]. *)
Theorem cleanObject_keeps_truthy_values (obj : object) :
  NoDup (keys obj) ->
  cleanObject obj = filter (fun kv => truthy (snd kv)) obj.
Proof.
  intros Hnd. unfold cleanObject.
  assert (Hfold : forall acc : object,
             NoDup (keys acc ++ keys obj) ->
             fold_left
               (fun result kv =>
                  if truthy (snd kv) then set (fst kv) (snd kv) result
                  else result) obj acc =
             (acc ++ filter (fun kv => truthy (snd kv)) obj)%list).
  { clear Hnd. induction obj as [ | [k v] obj IH]; intros acc Hacc;
      cbn [fold_left filter fst snd].
    - now rewrite app_nil_r.
    - cbn in Hacc. destruct (truthy v).
      + rewrite set_new.
        * rewrite IH; [now rewrite <- app_assoc | ].
          unfold keys. rewrite map_app. cbn. now rewrite <- app_assoc.
        * apply NoDup_remove_2 in Hacc. intros Hin. apply Hacc.
          apply in_or_app. now left.
      + apply IH. now apply NoDup_remove_1 in Hacc. }
  exact (Hfold [] Hnd).
Qed.

Lemma insert_sorted_permutation (k : string) (l : list string) :
  Permutation (insert_sorted k l) (k :: l).
Proof.
  induction l as [ | a l IH]; cbn [insert_sorted]; [reflexivity | ].
  destruct (String.leb k a); [reflexivity | ].
  rewrite IH. apply perm_swap.
Qed.

Lemma Array_sort_permutation (l : list string) :
  Permutation (Array_sort l) l.
Proof.
  induction l as [ | a l IH]; cbn; [reflexivity | ].
  rewrite insert_sorted_permutation. now constructor.
Qed.

Lemma insert_sorted_ascending (k : string) (l : list string) :
  Sorted (fun a b => String.leb a b = true) l ->
  Sorted (fun a b => String.leb a b = true) (insert_sorted k l).
Proof.
  induction l as [ | a l IH]; intros Hsorted; cbn [insert_sorted].
  - repeat constructor.
  - destruct (String.leb k a) eqn:Hka.
    + constructor; [exact Hsorted | now constructor].
    + inversion Hsorted as [ | ? ? Hl Hhd]; subst.
      constructor; [now apply IH | ].
      assert (Hak : String.leb a k = true).
      { destruct (String.leb_total a k) as [H | H]; [exact H | congruence]. }
      destruct l as [ | b l]; cbn [insert_sorted].
      * now constructor.
      * inversion Hhd; subst.
        destruct (String.leb k b); now constructor.
Qed.

Lemma Array_sort_ascending (l : list string) :
  Sorted (fun a b => String.leb a b = true) (Array_sort l).
Proof.
  induction l as [ | a l IH]; cbn; [constructor | ].
  now apply insert_sorted_ascending.
Qed.

Lemma fold_set_fresh (read : string -> value) (names : list string) :
  forall acc : object,
    NoDup (keys acc ++ names) ->
    fold_left (fun sorted key => set key (read key) sorted) names acc =
    (acc ++ map (fun key => (key, read key)) names)%list.
Proof.
  induction names as [ | k names IH]; intros acc Hnd; cbn [fold_left map].
  - now rewrite app_nil_r.
  - rewrite set_new.
    + rewrite IH; [now rewrite <- app_assoc | ].
      unfold keys. rewrite map_app. cbn. now rewrite <- app_assoc.
    + apply NoDup_remove_2 in Hnd. intros Hin. apply Hnd.
      apply in_or_app. now left.
Qed.

(** X28. [sortObject] returns an object that binds the same keys to the same
    values, its keys in ascending order of their code units (for keys that
    are not array indices, whose place in an object JavaScript fixes
    itself). *)
Theorem sortObject_orders_keys (obj : object) :
  NoDup (keys obj) ->
  (forall k, In k (keys obj) -> array_index k = None) ->
  Sorted (fun a b => String.leb a b = true) (keys (sortObject obj))
  /\ Permutation (keys (sortObject obj)) (keys obj)
  /\ (forall k, lookup k (sortObject obj) = lookup k obj).
Proof.
  intros Hnd _. unfold sortObject.
  rewrite fold_set_fresh
    by (cbn [keys map app];
        exact (Permutation_NoDup
                 (Permutation_sym (Array_sort_permutation (keys obj))) Hnd)).
  cbn [app].
  assert (Hkeys : keys (map (fun key => (key, member (Obj obj) key))
                          (Array_sort (keys obj))) = Array_sort (keys obj)).
  { unfold keys at 1. rewrite map_map. cbn [fst]. apply map_id. }
  rewrite Hkeys. split; [apply Array_sort_ascending | ].
  split; [apply Array_sort_permutation | ].
  intros k.
  assert (Hmap : forall l : list string,
             lookup k (map (fun key => (key, member (Obj obj) key)) l) =
             if in_dec string_dec k l then Some (member (Obj obj) k)
             else None).
  { induction l as [ | a l IH]; cbn [map lookup]; [reflexivity | ].
    destruct (k =? a) eqn:E.
    - apply String.eqb_eq in E. subst a.
      destruct (in_dec string_dec k (k :: l)) as [_ | Hout];
        [reflexivity | exfalso; apply Hout; now left].
    - apply String.eqb_neq in E. rewrite IH.
      destruct (in_dec string_dec k l) as [Hin | Hout],
               (in_dec string_dec k (a :: l)) as [Hin' | Hout'];
        try reflexivity.
      + exfalso. apply Hout'. now right.
      + exfalso. destruct Hin' as [-> | Hin']; [now apply E | now apply Hout]. }
  rewrite Hmap.
  destruct (in_dec string_dec k (Array_sort (keys obj))) as [Hin | Hout].
  - apply (Permutation_in _ (Array_sort_permutation (keys obj))) in Hin.
    destruct (lookup k obj) as [v | ] eqn:Hv.
    + unfold member. cbn [own]. now rewrite Hv.
    + apply lookup_None_keys in Hv. contradiction.
  - symmetry. apply lookup_None_keys. intros Hin. apply Hout.
    exact (Permutation_in _
             (Permutation_sym (Array_sort_permutation (keys obj))) Hin).
Qed.

(** *** The strings that OAuth 1.0a signs *)

Lemma pE_characters (str : string) (x : ascii) :
  In x (list_ascii_of_string (pE str)) ->
  In x (list_ascii_of_string (encodeURIComponent str))
  \/ In x (list_ascii_of_string "%21%2A%27%28%29").
Proof.
  unfold pE. generalize (encodeURIComponent str) as text.
  assert (Hconcat : forall l : list string,
             String.concat EmptyString l =
             fold_right append EmptyString l).
  { induction l as [ | a l IH]; [reflexivity | ].
    destruct l as [ | b l].
    - cbn. now rewrite append_empty.
    - change (String.concat EmptyString (a :: b :: l))
        with (a ++ EmptyString ++ String.concat EmptyString (b :: l)).
      rewrite IH. reflexivity. }
  intros text. rewrite Hconcat.
  induction text as [ | c text IH]; cbn [list_ascii_of_string map fold_right].
  - intros [].
  - rewrite chars_append. intros Hin. apply in_app_or in Hin.
    destruct Hin as [Hin | Hin].
    + unfold pE_char in Hin.
      repeat match type of Hin with
             | context [if ?b then _ else _] => destruct b
             end;
        try (right; cbn in Hin |- *;
             repeat (destruct Hin as [<- | Hin];
                     [solve [repeat (first [left; reflexivity | right])] | ]);
             contradiction).
      left. cbn in Hin. destruct Hin as [<- | []]. now left.
    + destruct (IH Hin) as [H | H]; [left; now right | now right].
Qed.

(** X27. The two strings that an OAuth 1.0a signature is computed from are
    unambiguous, given that [encodeURIComponent] leaves no [&] in its
    result (it writes [%26]): the signing key splits at its single [&] into
    the encoded consumer secret and the encoded token secret, and a base
    string splits into exactly three parts, the method, the encoded base
    URL and the encoded parameter string. *)
Theorem oauth1_strings_have_fixed_parts (token_secret consumer_secret : string)
    (method url : string) (oauth_data : object) (w : World) (text : string)
    (w' : World) :
  (forall str, free "&" (encodeURIComponent str)) ->
  free "&" method ->
  baseString method url oauth_data w = (Ret text, w') ->
  split "&" (signingKey token_secret consumer_secret) =
  [pE consumer_secret; pE token_secret]
  /\ exists parameters,
      parameterString oauth_data url w = (Ret parameters, w')
      /\ split "&" text = [method; baseUrl url; parameters].
Proof.
  intros Hencoded Hmethod Hrun.
  assert (HpE : forall str, free "&" (pE str)).
  { intros str Hin. apply pE_characters in Hin.
    destruct Hin as [Hin | Hin]; [exact (Hencoded str Hin) | ].
    cbn in Hin.
    repeat (destruct Hin as [Hin | Hin]; [discriminate | ]).
    exact Hin. }
  split.
  - unfold signingKey.
    change (pE consumer_secret ++ "&" ++ pE token_secret)
      with (pE consumer_secret ++ String "&" (pE token_secret)).
    rewrite split_at by apply HpE.
    rewrite (split_free "&") by apply HpE. reflexivity.
  - unfold baseString in Hrun. bind_inv Hrun. injection Hrun as <- <-.
    exists a. split; [exact Hrun0 | ].
    change (method ++ "&" ++ baseUrl url ++ "&" ++ a)
      with (method ++ String "&" (baseUrl url ++ String "&" a)).
    rewrite split_at by exact Hmethod.
    rewrite (split_at "&" (baseUrl url)) by apply HpE.
    unfold parameterString in Hrun0. bind_inv Hrun0.
    injection Hrun0 as <- _.
    rewrite (split_free "&") by apply HpE. reflexivity.
Qed.

(** X26. [decodeQueryParams] returns the empty object for a URL without [?].
    For a URL with a query of pairs with distinct keys (none of them
    inherited by an object) it returns the object of the pairs, in their
    order, each value decoded. *)
Theorem decodeQueryParams_reads_query (base : string)
    (pairs : list (string * string)) (decoded : list string) (w : World) :
  free "?" base ->
  NoDup (keys pairs) ->
  Forall (fun kv =>
            plain (fst kv) /\ plain (snd kv)
            /\ forall o, chain (Obj o) (fst kv) = None) pairs ->
  Forall2 (fun kv text => decodeURIComponent (snd kv) = Some text) pairs
    decoded ->
  decodeQueryParams base w = (Ret [], w)
  /\ (pairs <> [] ->
      decodeQueryParams (base ++ "?" ++ join "&" (map formPair pairs)) w =
      (Ret (combine (keys pairs) (map Str decoded)), w)).
Proof.
  intros Hbase Hnd Hplain Hdecoded. unfold decodeQueryParams. split.
  { rewrite split_free by exact Hbase. reflexivity. }
  intros Hne.
  assert (Hpieces : Forall (free "&") (map formPair pairs)).
  { apply Forall_forall. intros piece Hin. apply in_map_iff in Hin.
    destruct Hin as ([k v] & <- & Hin). rewrite Forall_forall in Hplain.
    destruct (Hplain _ Hin) as ((_ & Hk & _) & (_ & Hv & _) & _).
    unfold formPair. cbn [fst snd] in *. apply free_append; [exact Hk | ].
    change ("=" ++ v) with (String "=" v). unfold free. cbn.
    intros [H | H]; [discriminate | contradiction]. }
  assert (Hquery : free "?" (join "&" (map formPair pairs))).
  { clear Hne Hnd Hdecoded Hpieces.
    induction pairs as [ | [k v] rest IH]; [intros [] | ].
    inversion Hplain as [ | ? ? ((Hk & _) & (Hv & _) & _) Hrest]; subst.
    cbn [fst snd] in *.
    assert (Hpair : free "?" (formPair (k, v))).
    { unfold formPair. cbn [fst snd]. apply free_append; [exact Hk | ].
      change ("=" ++ v) with (String "=" v). unfold free. cbn.
      intros [H | H]; [discriminate | contradiction]. }
    destruct rest as [ | kv rest]; [exact Hpair | ].
    change (join "&" (map formPair ((k, v) :: kv :: rest)))
      with (formPair (k, v) ++ String "&" (join "&" (map formPair (kv :: rest)))).
    apply free_append; [exact Hpair | ].
    unfold free. cbn [list_ascii_of_string].
    intros [H | H]; [discriminate | exact (IH Hrest H)]. }
  change (base ++ "?" ++ join "&" (map formPair pairs))
    with (base ++ String "?" (join "&" (map formPair pairs))).
  rewrite (split_at "?") by exact Hbase.
  rewrite (split_free "?") by exact Hquery. cbn [nth].
  replace (join "&" (map formPair pairs) =? EmptyString) with false.
  2: { symmetry. apply String.eqb_neq.
       destruct pairs as [ | [k v] rest]; [contradiction | ].
       destruct rest; cbn [map join]; unfold formPair; cbn [fst snd];
         apply append_nonempty; discriminate. }
  rewrite split_join; [ | destruct pairs; [contradiction | discriminate]
                        | exact Hpieces].
  clear Hne Hpieces Hquery.
  assert (Hloop : forall (acc : object),
             NoDup (keys acc ++ keys pairs) ->
             decodeQueryParams_from (map formPair pairs) acc w =
             (Ret (acc ++ combine (keys pairs) (map Str decoded))%list, w)).
  { clear Hnd. revert decoded Hdecoded.
    induction pairs as [ | [k v] rest IH]; intros decoded Hdecoded acc Hacc.
    - inversion Hdecoded; subst. cbn. now rewrite app_nil_r.
    - inversion Hdecoded as [ | ? text ? texts Htext Htexts]; subst.
      inversion Hplain as [ | ? ? ((_ & _ & Hk) & (_ & _ & Hv) & Hchain) Hrest];
        subst.
      cbn [fst snd] in *.
      cbn [map decodeQueryParams_from]. unfold pairOf, formPair.
      cbn [fst snd]. change (k ++ "=" ++ v) with (k ++ String "=" v).
      rewrite (split_at "=") by exact Hk.
      rewrite (split_free "=") by exact Hv.
      cbn [nth nth_error fst snd].
      unfold decodeURIComponent_or_throw. cbn [to_string].
      rewrite Htext. unfold bind at 1. cbn [ret].
      assert (Hfresh : ~ In k (keys acc)).
      { cbn in Hacc. apply NoDup_remove_2 in Hacc. intros Hin.
        apply Hacc. apply in_or_app. now left. }
      unfold member. cbn [own].
      replace (lookup k acc) with (@None value)
        by (symmetry; now apply lookup_None_keys).
      rewrite Hchain. cbn [nullish truthy].
      rewrite set_new by exact Hfresh.
      rewrite (IH Hrest texts Htexts).
      + cbn [keys map combine fst]. now rewrite <- app_assoc.
      + cbn in Hacc. unfold keys in *. rewrite map_app. cbn.
        now rewrite <- app_assoc. }
  exact (Hloop [] Hnd).
Qed.

(** X30. [convertStringsToObject] keeps a key exactly when its string starts
    with [{], ends with [}] and parses as JSON, and binds it to the parsed
    value: every other string is dropped from the result, not copied. *)
Theorem convertStringsToObject_keeps_parsed_objects
    (obj : list (string * string)) (w : World) :
  NoDup (keys obj) ->
  exists result,
    convertStringsToObject (map (fun kv => (fst kv, Str (snd kv))) obj) w =
    (Ret result, w)
    /\ forall key,
        lookup key result =
        match lookup key obj with
        | Some text =>
            if startsWith "{" text && endsWith "}" text then JSON_parse text
            else None
        | None => None
        end.
Proof.
  intros Hnd. unfold convertStringsToObject.
  assert (Hloop : forall acc : object,
             NoDup (keys acc ++ keys obj) ->
             exists result,
               convertStrings_from
                 (map (fun kv => (fst kv, Str (snd kv))) obj) acc w =
               (Ret result, w)
               /\ forall key,
                   lookup key result =
                   match lookup key acc with
                   | Some v => Some v
                   | None =>
                       match lookup key obj with
                       | Some text =>
                           if startsWith "{" text && endsWith "}" text
                           then JSON_parse text
                           else None
                       | None => None
                       end
                   end).
  { clear Hnd. induction obj as [ | [k text] obj IH]; intros acc Hacc.
    - exists acc. split; [reflexivity | ].
      intros key. now destruct (lookup key acc).
    - cbn [map convertStrings_from fst snd].
      assert (Hfresh : lookup k acc = None).
      { apply lookup_None_keys. cbn in Hacc.
        apply NoDup_remove_2 in Hacc. intros Hin. apply Hacc.
        apply in_or_app. now left. }
      assert (Hlater : lookup k obj = None).
      { apply lookup_None_keys. cbn in Hacc.
        apply NoDup_remove_2 in Hacc. intros Hin. apply Hacc.
        apply in_or_app. now right. }
      assert (Hrest : NoDup (keys acc ++ keys obj))
        by (cbn in Hacc; now apply NoDup_remove_1 in Hacc).
      set (next := if startsWith "{" text && endsWith "}" text
                   then match JSON_parse text with
                        | Some parsed => set k parsed acc
                        | None => acc
                        end
                   else acc).
      assert (Hnext : next = acc
                      /\ (if startsWith "{" text && endsWith "}" text
                          then JSON_parse text else None) = None
                      \/ exists parsed,
                          next = set k parsed acc
                          /\ (if startsWith "{" text && endsWith "}" text
                              then JSON_parse text else None) = Some parsed).
      { subst next. destruct (startsWith "{" text && endsWith "}" text);
          [destruct (JSON_parse text) as [parsed | ] | ];
          try (left; now split).
        right. now exists parsed. }
      destruct (IH next) as (result & Hrun & Hlookup).
      { destruct Hnext as [(-> & _) | (parsed & -> & _)]; [exact Hrest | ].
        rewrite set_new by (now apply lookup_None_keys).
        unfold keys in *. rewrite map_app. cbn. rewrite <- app_assoc.
        exact Hacc. }
      exists result. split; [exact Hrun | ].
      intros key. rewrite Hlookup. cbn [lookup].
      destruct Hnext as [(-> & Hnone) | (parsed & -> & Hsome)].
      + destruct (key =? k) eqn:E.
        * apply String.eqb_eq in E. subst key.
          now rewrite Hfresh, Hlater, Hnone.
        * reflexivity.
      + rewrite lookup_set. destruct (key =? k) eqn:E.
        * apply String.eqb_eq in E. subst key. now rewrite Hfresh, Hsome.
        * reflexivity. }
  destruct (Hloop [] Hnd) as (result & Hrun & Hlookup).
  exists result. split; [exact Hrun | exact Hlookup].
Qed.

End Engine.

(** ** Closed instances *)

(** C1 fails on the code. [getAllParams] picks the response half of the
    ledger entry ["s"] and then walks every segment of the reference, the
    first two included: on the ledger [{s: {response: {f: "v"}}}] the
    reference [["s", "response", "f"]] reads [response["s"]], which is
    [undefined], then [undefined["response"]], which throws; the handler is
    called and the error thrown, and the key is not bound to ["v"]. On a
    ledger with no entry ["s"] the read [previousFetchData["s"]["response"]]
    throws a [TypeError] outside any [try]: the handler is not called. *)
Theorem getAllParams_reference_walks_all_segments :
  getAllParams Sample.chain Sample.type_error_message None false "urlParams"
    [] [("p", Reference ["s"; "response"; "f"])] Sample.ledger emptyFetchData
    Sample.logging None Sample.w0 =
  (Throw
     (new_Error
        "Parameter response not found in previous fetches: undefined, error: TypeError: Cannot read properties of undefined (reading 'response')"),
   reported Sample.logging
     "Parameter response not found in previous fetches: undefined, error: TypeError: Cannot read properties of undefined (reading 'response')"
     "Parameter response not found in previous fetches: undefined, error: TypeError: Cannot read properties of undefined (reading 'response')"
     Sample.w0)
  /\ getAllParams Sample.chain Sample.type_error_message None false
       "urlParams" [] [("p", Reference ["s"; "response"; "f"])] []
       emptyFetchData Sample.logging None Sample.w0 =
     (Throw
        (mkError "TypeError"
           "Cannot read properties of undefined (reading 'response')" None),
      Sample.w0).
Proof. split; reflexivity. Qed.

(** The reference resolves as documented only when the response half holds
    the whole path again. *)
Example getAllParams_reference_needs_nested_copy :
  getAllParams Sample.chain Sample.type_error_message None false "urlParams"
    [] [("p", Reference ["s"; "response"; "f"])]
    [("s", fetchRecord "GET" "https://provider/s" [] [] (Obj [])
             (Obj [("s", Obj [("response", Obj [("f", Str "v")])])]))]
    emptyFetchData Sample.logging None Sample.w0 =
  (Ret [("p", Str "v")], Sample.w0).
Proof. reflexivity. Qed.

(** C9 fails on the code. [removeNestedObjects] keeps a value unless its
    [typeof] is ["object"], and the [typeof] of a function is ["function"]:
    a resolver that hands on a member of the params list that is a function
    (the members of a params list are strings or functions) leaves that
    function in the map [getAllParams] returns, while the object another
    resolver returns is dropped. The map handed onward holds a value that
    is no primitive. *)
Theorem getAllParams_keeps_function_values :
  getAllParams Sample.chain Sample.type_error_message None true "urlParams"
    [("client_id", Str "abc"); ("nonce", Fun "() => crypto.randomUUID()")]
    [("client_id", Literal "abc");
     ("previous", Resolve (fun _ _ ledger _ => Obj ledger));
     ("nonce",
      Resolve (fun paramsList _ _ _ =>
                 nullish (lookup "nonce" paramsList) Undefined))]
    Sample.ledger emptyFetchData Sample.logging None Sample.w0 =
  (Ret [("client_id", Str "abc");
        ("nonce", Fun "() => crypto.randomUUID()")],
   Sample.w0)
  /\ typeof (Fun "() => crypto.randomUUID()") = "function"
  /\ primitive (Fun "() => crypto.randomUUID()") = false.
Proof. repeat split; reflexivity. Qed.

Lemma encodeBody_by_format_witness :
  (typeof (Obj [("code", Str "4/P7q7W91")]) <> "string"
   /\ encodeBody Sample.URLSearchParams_toString
        (Obj [("code", Str "4/P7q7W91")]) "text" Sample.logging Sample.w0 =
      (Throw (new_Error "Invalid body encoding format specified"),
       reported Sample.logging "Invalid body encoding format specified"
         "The bodyEncodingFormat field have either one from 'json', 'url' or 'text' as its value"
         Sample.w0))
  /\ encodeBody Sample.URLSearchParams_toString (Str "code=4") "xml"
       Sample.strict Sample.w0 =
     (Throw (mkError "Fatal" "Invalid body encoding format specified" None),
      reported Sample.strict "Invalid body encoding format specified"
        "The bodyEncodingFormat field have either one from 'json', 'url' or 'text' as its value"
        Sample.w0).
Proof.
  split; [split; [discriminate | ] | ].
  - apply (encodeBody_by_format Sample.URLSearchParams_toString
             (Obj [("code", Str "4/P7q7W91")]) "text" Sample.logging Sample.w0).
    left. split; [reflexivity | discriminate].
  - apply (encodeBody_by_format Sample.URLSearchParams_toString
             (Str "code=4") "xml" Sample.strict Sample.w0).
    right. repeat split; discriminate.
Defined.

Lemma storeValuesToReturn_projects_witness :
  storeValuesToReturn Sample.chain Sample.type_error_message
    [("out", Path ["a"; "b"])] Sample.nested Sample.logging Sample.w0 =
  (Ret [("out", Str "x")], Sample.w0)
  /\ storeValuesToReturn Sample.chain Sample.type_error_message
       [("out", All)] Sample.nested Sample.logging Sample.w0 =
     (Ret [("out", Sample.nested)], Sample.w0)
  /\ storeValuesToReturn Sample.chain Sample.type_error_message
       [("out", Path ["a"; "b"; "c"])] Sample.nested Sample.logging Sample.w0 =
     (Throw (new_Error (access_error "c")),
      reported Sample.logging (access_error "c") (access_error "c") Sample.w0)
  /\ storeValuesToReturn Sample.chain Sample.type_error_message
       [("id", Path ["user"; "id"])] Sample.nested Sample.logging Sample.w0 =
     (Throw (new_Error (access_error "id")),
      reported Sample.logging (access_error "id") (access_error "id") Sample.w0).
Proof.
  destruct (storeValuesToReturn_projects Sample.chain
              Sample.type_error_message Sample.nested Sample.logging Sample.w0)
    as (Hall & Hpath & Hdead & _ & _).
  split; [ | split; [ | split]].
  - apply Hpath. reflexivity.
  - apply Hall.
  - apply (Hdead "out" ["a"; "b"] "c" [] (Str "x")); [reflexivity | ].
    left. reflexivity.
  - apply (Hdead "id" ["user"] "id" [] Undefined); [reflexivity | ].
    right. reflexivity.
Defined.

Lemma getAllParams_drops_objects_witness :
  exists resolved,
    resolveEntries Sample.chain Sample.type_error_message None true []
      Sample.ledger emptyFetchData Sample.logging None
      [("client_id", Literal "abc");
       ("previous", Resolve (fun _ _ ledger _ => Obj ledger));
       ("count", Resolve (fun _ _ ledger _ => Num (Z.of_nat (length ledger))))]
      [] Sample.w0 = (Ret resolved, Sample.w0)
    /\ [("client_id", Str "abc"); ("count", Num 1)] =
       removeNestedObjects resolved
    /\ (forall k v,
          lookup k [("client_id", Str "abc"); ("count", Num 1)] = Some v <->
          lookup k resolved = Some v /\ typeof v <> "object")
    /\ (forall k v,
          lookup k [("client_id", Str "abc"); ("count", Num 1)] = Some v ->
          typeof v <> "object").
Proof.
  apply (getAllParams_drops_objects Sample.chain Sample.type_error_message
           None true "urlParams" [] _ Sample.ledger emptyFetchData
           Sample.logging None Sample.w0).
  reflexivity.
Defined.

Lemma initParams_retry_defaults_witness :
  exists params w',
    initParams Sample.chain Sample.type_error_message None true
      (urls_afterRedirect (cp_urls Sample.provider)) "https://provider/token"
      Sample.observing 5000 [] [] None Sample.w0 = (Ret params, w')
    /\ p_timeout params = 5000%Z
    /\ p_maxRetries params = 2%Z
    /\ (forall error statusCode,
          p_retryOn params error statusCode = true <->
          statusCode = 429%Z \/ statusCode = 503%Z)
    /\ (forall attempt context,
          p_backOffStrategy params attempt context = p_timeout params).
Proof.
  do 2 eexists. split; [reflexivity | ].
  destruct (initParams_retry_defaults Sample.chain Sample.type_error_message
              None true (urls_afterRedirect (cp_urls Sample.provider))
              "https://provider/token" Sample.observing 5000 [] [] None
              Sample.w0 (Sample.step (Some "token")) _ _ eq_refl eq_refl)
    as (Htimeout & _ & Hnone).
  split; [exact Htimeout | ].
  exact (Hnone eq_refl).
Defined.

Lemma waitAndRetryRequest_gives_up_after_three_witness :
  exists w',
    waitAndRetryRequest Sample.chain Sample.type_error_message
      Sample.JSON_parse Sample.always500 Sample.clock "https://provider/token"
      "POST" [] "{}" 5000 Sample.logging [] Sample.ledger 3
      (fun attempt _ => 1000 * attempt)%Z (Some "onRetry") (fun _ _ => true)
      Sample.observing emptyFetchData "json" None Sample.w0 =
    (Ret (Obj [("error", Str "Max Retries Reached")]), w')
    /\ fetches (trace w') = (fetches (trace Sample.w0) + 3)%nat.
Proof.
  apply (waitAndRetryRequest_gives_up_after_three Sample.chain
           Sample.type_error_message Sample.JSON_parse Sample.always500
           Sample.clock).
  - reflexivity.
  - intros e statusCode. reflexivity.
  - intros k w. do 2 eexists. reflexivity.
Defined.

Lemma waitAndRetryRequest_without_attempts_witness :
  waitAndRetryRequest Sample.chain Sample.type_error_message Sample.JSON_parse
    Sample.always200 Sample.clock "https://provider/token" "POST" [] "{}" 5000
    Sample.logging [fun _ _ => true] Sample.ledger (-1)
    (fun attempt _ => 1000 * attempt)%Z (Some "onRetry") (fun _ _ => true)
    Sample.observing emptyFetchData "json" None Sample.w0 =
  (Ret (Obj [("error", Str "Max Retries Reached")]),
   mkWorld (trace Sample.w0) (storage Sample.w0) (S (ticks Sample.w0))).
Proof.
  apply (waitAndRetryRequest_without_attempts Sample.chain
           Sample.type_error_message Sample.JSON_parse Sample.always200
           Sample.clock).
  lia.
Defined.

Lemma waitAndRetryRequest_fatal_without_retry_witness :
  exists failure w' before,
    waitAndRetryRequest Sample.chain Sample.type_error_message
      Sample.JSON_parse Sample.alwaysAborted Sample.clock
      "https://provider/token" "POST" [] "{}" 5000 Sample.logging []
      Sample.ledger 2 (fun attempt _ => 1000 * attempt)%Z (Some "onRetry")
      (fun _ _ => false) Sample.observing emptyFetchData "json" None Sample.w0 =
    (Throw (raised Sample.logging (error_text failure) (error_text failure)),
     w')
    /\ trace w' =
       (trace Sample.w0 ++ before
        ++ [HandlerCalled (h_label Sample.logging)
              (new_Error (error_text failure)) (error_text failure)])%list
    /\ fetches before = 1%nat
    /\ (forall ms, ~ In (Slept ms) before)
    /\ (forall hook context, ~ In (Retried hook context) before).
Proof.
  apply (waitAndRetryRequest_fatal_without_retry Sample.chain
           Sample.type_error_message Sample.JSON_parse Sample.alwaysAborted
           Sample.clock).
  - lia.
  - intros e statusCode. reflexivity.
  - intros w. do 2 eexists. reflexivity.
Defined.

(** C4 fails as stated. A key that [storeValuesToReturn] bound to
    [undefined] (here the path [email] on a response without it) has no JSON
    text: the accumulator [{email: undefined}] is stored as the text of
    [{}], and what is read back after the redirect is the empty
    accumulator. *)
Lemma bridge_drops_undefined_members :
  storeValuesToReturn Sample.chain Sample.type_error_message
    [("email", Path ["email"])] (Obj [("id", Num 7)]) Sample.logging
    Sample.w0 = (Ret [("email", Undefined)], Sample.w0)
  /\ exists w1 globals' w3,
      redirectOnCustomProviderButtonClick "GET" Sample.redirectParams
        "https://provider/authorize" Sample.ledger
        "fetch data before redirect: " "values to return: "
        [("email", Undefined)] false Null Sample.w0 = (Ret tt, w1)
      /\ lookup "values to return: " (storage w1) = Some (btoa "{}")
      /\ restoreStoredData Sample.JSON_parse Sample.atob
           (initGlobalParams Sample.config Sample.provider Sample.logging
              beforeRedirect)
           Sample.logging w1 = (Ret (Some globals'), w3)
      /\ previousFetchData globals' = Sample.storedLedger
      /\ toReturnObject globals' = []
      /\ toReturnObject globals' <> [("email", Undefined)].
Proof.
  split; [reflexivity | ].
  do 3 eexists.
  split; [cbv; reflexivity | ].
  split; [reflexivity | ].
  split; [cbv; reflexivity | ].
  split; [reflexivity | ].
  split; [reflexivity | discriminate].
Qed.

Lemma bridge_round_trip_witness :
  exists w1,
    redirectOnCustomProviderButtonClick "GET" Sample.redirectParams
      "https://provider/authorize" Sample.ledger
      "fetch data before redirect: " "values to return: " Sample.accumulator
      true (Str "opaque") Sample.w0 = (Ret tt, w1)
    /\ lookup "fetch data before redirect: " (storage w1) =
       Some (btoa (JSON_stringify (Obj Sample.storedLedger)))
    /\ lookup "values to return: " (storage w1) =
       Some (btoa (JSON_stringify (Obj Sample.accumulator)))
    /\ forall w2,
         storage w2 = storage w1 ->
         exists globals' w3,
           restoreStoredData Sample.JSON_parse Sample.atob
             (initGlobalParams Sample.config Sample.provider Sample.logging
                beforeRedirect)
             Sample.logging w2 = (Ret (Some globals'), w3)
           /\ previousFetchData globals' = Sample.storedLedger
           /\ toReturnObject globals' = Sample.accumulator
           /\ lookup "fetch data before redirect: " (storage w3) = None
           /\ lookup "values to return: " (storage w3) = None.
Proof.
  apply (bridge_round_trip Sample.JSON_parse Sample.atob Sample.config
           Sample.provider Sample.logging "GET" Sample.redirectParams
           "https://provider/authorize" Sample.ledger Sample.accumulator true
           (Str "opaque") Sample.w0).
  - vm_compute. constructor; [intros [H | []]; discriminate | ].
    constructor; [intros [] | constructor].
  - vm_compute. constructor; [intros [] | constructor].
  - vm_compute. reflexivity.
  - vm_compute. reflexivity.
  - vm_compute. reflexivity.
  - vm_compute. reflexivity.
Defined.


(** *** Instances of the properties X1 to X30 *)

(** [c] is none of the characters of a closed string, and the keys of a
    closed list are distinct. *)
Ltac absent :=
  cbv;
  let H := fresh in
  intros H; repeat (destruct H as [H | H]; [discriminate H | ]); exact H.

Ltac distinct :=
  repeat (constructor; [absent | ]); constructor.

Lemma waitAndRetryRequest_succeeds_after_retries_witness :
  exists w' added,
    waitAndRetryRequest Sample.chain Sample.type_error_message
      Sample.JSON_parse Sample.flaky Sample.clock "https://provider/token"
      "POST" [] "{}" 5000 Sample.logging [] Sample.ledger 3
      (fun attempt _ => 1000 * attempt)%Z (Some "onRetry") (fun _ _ => true)
      Sample.observing emptyFetchData "json" None Sample.w0 =
    (Ret (Obj []), w')
    /\ trace w' = (trace Sample.w0 ++ added)%list
    /\ requests added =
       repeat
         (attemptRequest "https://provider/token" "POST" [] "{}" "json" None)
         2
    /\ length (delays added) = 1%nat.
Proof.
  apply (waitAndRetryRequest_succeeds_after_retries Sample.chain
           Sample.type_error_message Sample.JSON_parse Sample.flaky
           Sample.clock).
  - lia.
  - intros e statusCode. reflexivity.
  - intros k Hk w. destruct k as [ | k]; [ | lia].
    do 2 eexists. reflexivity.
  - intros w. eexists. reflexivity.
Defined.

Lemma waitAndRetryRequest_waits_after_every_failure_witness :
  exists w' added contexts,
    waitAndRetryRequest Sample.chain Sample.type_error_message
      Sample.JSON_parse Sample.always500 Sample.clock "https://provider/token"
      "POST" [] "{}" 5000 Sample.logging [] Sample.ledger 2
      (fun attempt _ => 1000 * attempt)%Z (Some "onRetry") (fun _ _ => true)
      Sample.observing emptyFetchData "json" None Sample.w0 =
    (Ret (Obj [("error", Str "Max Retries Reached")]), w')
    /\ trace w' = (trace Sample.w0 ++ added)%list
    /\ length contexts = 2%nat
    /\ chained (fun attempt _ => 1000 * attempt)%Z 2 Sample.ledger 1 0
         contexts
    /\ delays added = [1000; 2000]%Z.
Proof.
  destruct (waitAndRetryRequest_waits_after_every_failure Sample.chain
              Sample.type_error_message Sample.JSON_parse Sample.always500
              Sample.clock "https://provider/token" "POST" [] "{}" 5000
              Sample.logging [] Sample.ledger 2
              (fun attempt _ => 1000 * attempt)%Z (Some "onRetry")
              (fun _ _ => true) Sample.observing emptyFetchData "json" None
              Sample.w0)
    as (w' & added & contexts & Hrun & Htrace & Hlength & Hchain & Hdelays).
  - lia.
  - intros e statusCode. reflexivity.
  - intros k w. do 2 eexists. reflexivity.
  - exists w', added, contexts.
    split; [exact Hrun | ]. split; [exact Htrace | ].
    split; [exact Hlength | ]. split; [exact Hchain | ].
    rewrite Hdelays. clear Hrun Htrace Hdelays.
    destruct contexts as [ | c1 [ | c2 [ | c3 rest]]];
      try discriminate Hlength.
    destruct Hchain as (H1 & _ & _ & _ & H2 & _).
    cbn [map]. rewrite H2, H1. reflexivity.
Defined.

Lemma waitAndRetryRequest_rejected_first_request_witness :
  exists context w',
    waitAndRetryRequest Sample.chain Sample.type_error_message
      Sample.JSON_parse Sample.alwaysAborted Sample.clock
      "https://provider/token" "POST" [] "{}" 5000 Sample.logging []
      Sample.ledger 2 (fun attempt _ => 1000 * attempt)%Z (Some "onRetry")
      (fun _ statusCode => (statusCode =? 429)%Z) Sample.observing
      emptyFetchData "json" None Sample.w0 =
    (Throw
       (new_Error "AbortError: The operation was aborted."), w')
    /\ trace w' =
       [RequestStarted "onRequestStart" emptyFetchData;
        Fetched
          (attemptRequest "https://provider/token" "POST" [] "{}" "json" None);
        BackOffAsked 1 context;
        RetryOnAsked
          (mkError "AbortError" "The operation was aborted." None) 0;
        HandlerCalled "onError"
          (new_Error "AbortError: The operation was aborted.")
          "AbortError: The operation was aborted."].
Proof.
  apply (waitAndRetryRequest_rejected_first_request Sample.chain
           Sample.type_error_message Sample.JSON_parse Sample.alwaysAborted
           Sample.clock "https://provider/token" "POST" [] "{}" 5000
           Sample.logging [] Sample.ledger 2
           (fun attempt _ => 1000 * attempt)%Z (Some "onRetry")
           (fun _ statusCode => (statusCode =? 429)%Z) Sample.observing
           emptyFetchData "json" None
           (mkError "AbortError" "The operation was aborted." None)
           Sample.w0).
  - lia.
  - reflexivity.
  - reflexivity.
Defined.

Lemma waitAndRetryRequest_bad_status_reported_twice_witness :
  exists context w',
    waitAndRetryRequest Sample.chain Sample.type_error_message
      Sample.JSON_parse Sample.always500 Sample.clock "https://provider/token"
      "POST" [] "{}" 5000 Sample.logging [] Sample.ledger 2
      (fun attempt _ => 1000 * attempt)%Z (Some "onRetry")
      (fun _ statusCode => (statusCode =? 429)%Z) Sample.observing
      emptyFetchData "json" None Sample.w0 =
    (Throw (new_Error "Error: Response has some error:{}"), w')
    /\ trace w' =
       [RequestStarted "onRequestStart" emptyFetchData;
        Fetched
          (attemptRequest "https://provider/token" "POST" [] "{}" "json" None);
        HandlerCalled "onError" (new_Error "Response has some error:{}")
          "Response has some error:{}";
        BackOffAsked 1 context;
        RetryOnAsked (new_Error "Response has some error:{}") 500;
        HandlerCalled "onError"
          (new_Error "Error: Response has some error:{}")
          "Error: Response has some error:{}"].
Proof.
  apply (waitAndRetryRequest_bad_status_reported_twice Sample.chain
           Sample.type_error_message Sample.JSON_parse Sample.always500
           Sample.clock "https://provider/token" "POST" [] "{}" 5000
           Sample.logging [] Sample.ledger 2
           (fun attempt _ => 1000 * attempt)%Z (Some "onRetry")
           (fun _ statusCode => (statusCode =? 429)%Z) Sample.observing
           emptyFetchData "json" None
           (mkResponse 500 "Internal Server Error" "oops") Sample.w0).
  - lia.
  - reflexivity.
  - reflexivity.
  - reflexivity.
Defined.

Lemma waitAndRetryRequest_unwraps_proxy_envelope_witness :
  exists w',
    waitAndRetryRequest Sample.chain Sample.type_error_message
      Sample.JSON_parse_proxy Sample.proxied Sample.clock
      "https://provider/token" "POST" [] "{}" 5000 Sample.logging []
      Sample.ledger 2 (fun attempt _ => 1000 * attempt)%Z (Some "onRetry")
      (fun _ _ => false) Sample.observing emptyFetchData "text"
      (Some "https://app/proxy") Sample.w0 =
    (Ret (Obj [("id", Num 7)]), w')
    /\ req_url
         (attemptRequest "https://provider/token" "POST" [] "{}" "text"
            (Some "https://app/proxy")) = "https://app/proxy"
    /\ req_method
         (attemptRequest "https://provider/token" "POST" [] "{}" "text"
            (Some "https://app/proxy")) = "POST".
Proof.
  apply (waitAndRetryRequest_unwraps_proxy_envelope Sample.chain
           Sample.type_error_message Sample.JSON_parse_proxy Sample.proxied
           Sample.clock "https://provider/token" "POST" [] "{}" 5000
           Sample.logging [] Sample.ledger 2
           (fun attempt _ => 1000 * attempt)%Z (Some "onRetry")
           (fun _ _ => false) Sample.observing emptyFetchData "text"
           (Some "https://app/proxy") "https://app/proxy"
           (mkResponse 200 "OK" (JSON_stringify (Obj Sample.proxyAnswer)))
           Sample.proxyAnswer Sample.w0).
  - lia.
  - reflexivity.
  - reflexivity.
  - reflexivity.
  - reflexivity.
  - reflexivity.
  - constructor.
Defined.

Lemma default_policy_gives_up_on_rejected_request_witness :
  exists params w1,
    initParams Sample.chain Sample.type_error_message None true
      (urls_afterRedirect (cp_urls Sample.provider)) "https://provider/token"
      Sample.observing 5000 [] Sample.ledger None Sample.w0 = (Ret params, w1)
    /\ exists added w',
        waitAndRetryRequest Sample.chain Sample.type_error_message
          Sample.JSON_parse Sample.alwaysAborted Sample.clock
          "https://provider/token" (p_method params) (p_headers params) "{}"
          (p_timeout params) (p_onErrorInResponse params)
          (p_validateResponse params) Sample.ledger (p_maxRetries params)
          (p_backOffStrategy params) (Some (p_onRetry params))
          (p_retryOn params) Sample.observing emptyFetchData
          (p_responseParseType params) None Sample.w0 =
        (Throw (new_Error "AbortError: The operation was aborted."), w')
        /\ trace w' = (trace Sample.w0 ++ added)%list
        /\ requests added =
           [attemptRequest "https://provider/token" (p_method params)
              (p_headers params) "{}" (p_responseParseType params) None]
        /\ delays added = [].
Proof.
  do 2 eexists. split; [reflexivity | ].
  apply (default_policy_gives_up_on_rejected_request Sample.chain
           Sample.type_error_message Sample.JSON_parse Sample.alwaysAborted
           Sample.clock None true
           (urls_afterRedirect (cp_urls Sample.provider))
           "https://provider/token" Sample.observing 5000 [] Sample.ledger
           None Sample.w0 _ (Sample.step (Some "token")) _
           "https://provider/token" "{}" emptyFetchData None
           (mkError "AbortError" "The operation was aborted." None)
           Sample.w0 eq_refl eq_refl eq_refl eq_refl).
Defined.

Lemma initParams_zero_maxRetries_is_default_witness :
  exists params w',
    initParams Sample.chain Sample.type_error_message None true
      [("https://provider/token", Sample.impatient)] "https://provider/token"
      Sample.observing 5000 [] [] None Sample.w0 = (Ret params, w')
    /\ p_maxRetries params <> 0%Z
    /\ p_maxRetries params = 2%Z.
Proof.
  do 2 eexists. split; [reflexivity | ].
  destruct (initParams_zero_maxRetries_is_default Sample.chain
              Sample.type_error_message None true
              [("https://provider/token", Sample.impatient)]
              "https://provider/token" Sample.observing 5000 [] [] None
              Sample.w0 Sample.impatient _ _ eq_refl eq_refl)
    as (Hnonzero & Hzero & _).
  split; [exact Hnonzero | exact (Hzero eq_refl)].
Defined.

Lemma initParams_error_handler_precedence_witness :
  exists params w',
    initParams Sample.chain Sample.type_error_message None true
      (reqUrls
         (initGlobalParams Sample.config Sample.guarded Sample.logging
            afterRedirect))
      "https://provider/token"
      (observingFuncs
         (initGlobalParams Sample.config Sample.guarded Sample.logging
            afterRedirect))
      (g_globalTimeout
         (initGlobalParams Sample.config Sample.guarded Sample.logging
            afterRedirect))
      [] [] None Sample.w0 = (Ret params, w')
    /\ p_onError params = Sample.strict
    /\ p_onErrorInResponse params = Sample.careful.
Proof.
  do 2 eexists. split; [reflexivity | ].
  apply (initParams_error_handler_precedence Sample.chain
           Sample.type_error_message None Sample.config Sample.guarded
           Sample.logging afterRedirect true "https://provider/token" [] []
           None Sample.w0 _ _ _ eq_refl eq_refl).
Defined.

Lemma getAllParams_literals_pass_through_witness :
  getAllParams Sample.chain Sample.type_error_message None true "urlParams"
    [("code", Str "4/P7q7W91")]
    [("client_id", Literal "abc"); ("grant_type", Literal "authorization_code")]
    Sample.ledger emptyFetchData Sample.logging None Sample.w0 =
  (Ret [("client_id", Str "abc"); ("grant_type", Str "authorization_code")],
   Sample.w0).
Proof.
  apply (getAllParams_literals_pass_through Sample.chain
           Sample.type_error_message None true "urlParams"
           [("code", Str "4/P7q7W91")]
           [("client_id", "abc"); ("grant_type", "authorization_code")]
           Sample.ledger emptyFetchData Sample.logging None Sample.w0).
  distinct.
Defined.

Lemma getAllParams_reads_override_map_witness :
  getAllParams Sample.chain Sample.type_error_message None true "body" []
    [("code", Reference ["code"]); ("session", Reference ["state"])]
    Sample.ledger emptyFetchData Sample.logging
    (Some [("code", Str "4/P7q7W91"); ("state", Str "xyz")]) Sample.w0 =
  (Ret [("code", Str "4/P7q7W91"); ("session", Str "xyz")], Sample.w0).
Proof.
  apply (getAllParams_reads_override_map Sample.chain
           Sample.type_error_message None true "body" []
           [("code", ("code", "4/P7q7W91")); ("session", ("state", "xyz"))]
           Sample.ledger emptyFetchData Sample.logging
           [("code", Str "4/P7q7W91"); ("state", Str "xyz")] Sample.w0).
  - distinct.
  - repeat constructor; discriminate.
Defined.

Lemma getAllParams_override_map_miss_witness :
  getAllParams Sample.chain Sample.type_error_message None true "body" []
    [("grant_type", Literal "authorization_code");
     ("code", Reference ["code"])]
    Sample.ledger emptyFetchData Sample.logging
    (Some [("state", Str "xyz")]) Sample.w0 =
  (Throw (TypeError Sample.type_error_message Undefined "undefined"),
   Sample.w0).
Proof.
  apply (getAllParams_override_map_miss Sample.chain
           Sample.type_error_message None true "body" [] Sample.ledger
           emptyFetchData Sample.logging [("state", Str "xyz")]
           [("grant_type", Literal "authorization_code")] [] "code" "code"
           [("grant_type", Str "authorization_code")] Sample.w0 Sample.w0).
  - reflexivity.
  - reflexivity.
  - reflexivity.
Defined.

Lemma getAllParams_resolver_must_return_witness :
  getAllParams Sample.chain Sample.type_error_message None true "urlParams"
    []
    [("client_id", Literal "abc");
     ("count", Resolve (fun _ acc _ _ => Num (Z.of_nat (length acc) - 1)))]
    Sample.ledger emptyFetchData Sample.logging None Sample.w0 =
  (Throw (new_Error "Function returned nothing"),
   reported Sample.logging "Function returned nothing"
     "Function returned nothing" Sample.w0).
Proof.
  apply (getAllParams_resolver_must_return Sample.chain
           Sample.type_error_message None true "urlParams" [] Sample.ledger
           emptyFetchData Sample.logging None
           [("client_id", Literal "abc")] [] "count"
           (fun _ acc _ _ => Num (Z.of_nat (length acc) - 1))
           [("client_id", Str "abc")] Sample.w0 Sample.w0).
  - reflexivity.
  - reflexivity.
Defined.

Lemma getAllParams_reference_guards_witness :
  getAllParams Sample.chain Sample.type_error_message None false "urlParams"
    [] [("p", Reference ["s"])] Sample.ledger emptyFetchData Sample.logging
    None Sample.w0 =
  (Throw
     (new_Error
        "Too less parameters given to access the previous request or response. minimum 2 are required"),
   reported Sample.logging
     "Too less parameters given to access the previous request or response. minimum 2 are required"
     "The first parameter should always be the name of the fetch operation (url by default) and the second parameter should be either 'response' or 'request'"
     Sample.w0)
  /\ getAllParams Sample.chain Sample.type_error_message None false
       "urlParams" [] [("p", Reference ["s"; "body"; "f"])] Sample.ledger
       emptyFetchData Sample.logging None Sample.w0 =
     (Throw
        (new_Error
           "The second Parameter of the array in the fromPreviousFetches should always be either 'request' or 'response'"),
      reported Sample.logging
        "The second Parameter of the array in the fromPreviousFetches should always be either 'request' or 'response'"
        "The second Parameter of the array in the fromPreviousFetches should always be either 'request' or 'response'"
        Sample.w0).
Proof.
  split.
  - apply (getAllParams_reference_guards Sample.chain
             Sample.type_error_message None false "urlParams" []
             Sample.ledger emptyFetchData Sample.logging [] [] "p" ["s"] []
             Sample.w0 Sample.w0 eq_refl).
    cbn. lia.
  - apply (getAllParams_reference_guards Sample.chain
             Sample.type_error_message None false "urlParams" []
             Sample.ledger emptyFetchData Sample.logging [] [] "p"
             ["s"; "body"; "f"] [] Sample.w0 Sample.w0 eq_refl).
    + cbn. lia.
    + reflexivity.
    + reflexivity.
Defined.


Lemma runners_refuse_misconfigured_provider_witness :
  (exists message details,
      getCustomProviderUserInfo Sample.chain Sample.type_error_message
        Sample.URLSearchParams_toString Sample.encodeURIComponent
        Sample.JSON_parse Sample.always200 Sample.clock None Sample.config
        "unknown" [("code", Str "4/P7q7W91")] Sample.w0 =
      (Throw (new_Error message),
       reported Sample.logging message details Sample.w0))
  /\ (exists message details,
        handleCustomProvidersLoginButtonClick Sample.chain
          Sample.type_error_message Sample.URLSearchParams_toString
          Sample.encodeURIComponent Sample.JSON_parse Sample.always200
          Sample.clock Sample.call None Sample.config "unknown" Sample.w0 =
        (Throw (new_Error message),
         reported Sample.logging message details Sample.w0))
  /\ getCustomProviderUserInfo Sample.chain Sample.type_error_message
       Sample.URLSearchParams_toString Sample.encodeURIComponent
       Sample.JSON_parse Sample.always200 Sample.clock None Sample.config
       "toString" [("code", Str "4/P7q7W91")] Sample.w0 =
     (Throw
        (mkError "TypeError"
           "Cannot read properties of undefined (reading 'afterRedirect')"
           None),
      Sample.w0)
  /\ handleCustomProvidersLoginButtonClick Sample.chain
       Sample.type_error_message Sample.URLSearchParams_toString
       Sample.encodeURIComponent Sample.JSON_parse Sample.always200
       Sample.clock Sample.call None Sample.config "toString" Sample.w0 =
     (Throw
        (mkError "TypeError"
           "Cannot read properties of undefined (reading 'beforeRedirect')"
           None),
      Sample.w0).
Proof.
  destruct (runners_refuse_misconfigured_provider Sample.chain
              Sample.type_error_message Sample.URLSearchParams_toString
              Sample.encodeURIComponent Sample.JSON_parse Sample.always200
              Sample.clock Sample.call None Sample.config "unknown"
              [("code", Str "4/P7q7W91")] Sample.w0)
    as (Hserver & Hclient & _).
  destruct (runners_refuse_misconfigured_provider Sample.chain
              Sample.type_error_message Sample.URLSearchParams_toString
              Sample.encodeURIComponent Sample.JSON_parse Sample.always200
              Sample.clock Sample.call None Sample.config "toString"
              [("code", Str "4/P7q7W91")] Sample.w0)
    as (_ & _ & Hinherited).
  split; [exact (Hserver eq_refl) | ].
  split; [exact (Hclient eq_refl) | ].
  apply Hinherited; [reflexivity | reflexivity | left; reflexivity].
Defined.



Lemma getProviderUrl_needs_configProvider_witness :
  (exists e,
      fst (getProviderUrl Sample.chain Sample.type_error_message
             (Some Sample.config) "google" (Some "token") None Sample.w0) =
      Throw e)
  /\ getProviderUrl Sample.chain Sample.type_error_message
       (Some Sample.config) "google" (Some "token") None Sample.w0 =
     (Throw (TypeError Sample.type_error_message Undefined "tenant"),
      Sample.w0).
Proof.
  destruct (getProviderUrl_needs_configProvider Sample.chain
              Sample.type_error_message (Some Sample.config) "google"
              (Some "token") Sample.w0)
    as (Hthrows & Hraw).
  split; [exact Hthrows | ].
  apply (Hraw Sample.config); [reflexivity | discriminate | discriminate].
Defined.

Lemma getRequiredFunctions_catalogue_witness :
  (exists functions,
      getRequiredFunctions Sample.chain (Some Sample.config)
        ["getSignature"; "pE"] "client" Sample.w0 = (Ret functions, Sample.w0)
      /\ (forall name,
            In name ["getSignature"; "pE"] ->
            lookup name functions = lookup name (libraryFunctions "client"))
      /\ (forall name,
            In name (keys functions) -> In name ["getSignature"; "pE"]))
  /\ (exists e w',
        getRequiredFunctions Sample.chain (Some Sample.config)
          ["pE"; "getUser"] "server" Sample.w0 = (Throw e, w')
        /\ e = new_Error "Function not found"
        /\ w' =
           reported Sample.logging "Function not found" "Function not found"
             Sample.w0).
Proof.
  split.
  - apply (getRequiredFunctions_catalogue Sample.chain (Some Sample.config)
             ["getSignature"; "pE"] "client" Sample.w0).
    intros name [<- | [<- | []]]; cbn; auto 25.
  - apply (proj2 (getRequiredFunctions_catalogue Sample.chain
                    (Some Sample.config) ["pE"; "getUser"] "server"
                    Sample.w0)
             "getUser").
    + right. left. reflexivity.
    + reflexivity.
Defined.

Lemma pE_leaves_no_reserved_character_witness :
  (forall x,
      In x (list_ascii_of_string (pE Sample.percentEncode "it's (a) test!*")) ->
      ~ In x ["!"; "*"; "'"; "("; ")"]%char)
  /\ pE Sample.percentEncode "a b&c" = Sample.percentEncode "a b&c".
Proof.
  destruct (pE_leaves_no_reserved_character Sample.percentEncode
              "it's (a) test!*") as (Hnone & _).
  destruct (pE_leaves_no_reserved_character Sample.percentEncode "a b&c")
    as (_ & Hsame).
  split; [exact Hnone | ].
  apply Hsame. intros x Hx.
  repeat (destruct Hx as [<- | Hx]; [absent | ]). destruct Hx.
Defined.

Lemma parseToken_reads_form_encoded_witness :
  parseToken "oauth_token=abc&oauth_token_secret=s=1&oauth_token=late"
    (Some "oauth_token") = Str "abc"
  /\ parseToken "oauth_token=abc&oauth_token_secret=s=1"
       (Some "oauth_token_secret") = Str "s"
  /\ parseToken "oauth_token=abc&oauth_token_secret=s=1"
       (Some "oauth_verifier") = Null.
Proof.
  split; [ | split].
  - apply (parseToken_reads_form_encoded
             [("oauth_token", "abc"); ("oauth_token_secret", "s=1");
              ("oauth_token", "late")]
             "oauth_token"); [discriminate | ].
    repeat constructor; absent.
  - apply (parseToken_reads_form_encoded
             [("oauth_token", "abc"); ("oauth_token_secret", "s=1")]
             "oauth_token_secret"); [discriminate | ].
    repeat constructor; absent.
  - apply (parseToken_reads_form_encoded
             [("oauth_token", "abc"); ("oauth_token_secret", "s=1")]
             "oauth_verifier"); [discriminate | ].
    repeat constructor; absent.
Defined.

Lemma decodeQueryParams_reads_query_witness :
  decodeQueryParams Sample.chain Sample.decodeURIComponent
    "https://api.provider/request" Sample.w0 = (Ret [], Sample.w0)
  /\ decodeQueryParams Sample.chain Sample.decodeURIComponent
       "https://api.provider/request?scope=email&lang=en" Sample.w0 =
     (Ret [("scope", Str "email"); ("lang", Str "en")], Sample.w0).
Proof.
  destruct (decodeQueryParams_reads_query Sample.chain
              Sample.decodeURIComponent "https://api.provider/request"
              [("scope", "email"); ("lang", "en")] ["email"; "en"] Sample.w0)
    as (Hnone & Hsome).
  - absent.
  - distinct.
  - repeat constructor; try absent; intros o; reflexivity.
  - repeat constructor.
  - split; [exact Hnone | ]. apply Hsome. discriminate.
Defined.

(** The sample encoder writes [&] as [%26]. *)
Lemma percentEncodeChar_free (c : ascii) :
  free "&" (Sample.percentEncodeChar c).
Proof.
  destruct c as [[] [] [] [] [] [] [] []]; absent.
Qed.

Lemma percentEncode_free (s : string) : free "&" (Sample.percentEncode s).
Proof.
  induction s as [ | c rest IH]; [intros [] | ].
  cbn [Sample.percentEncode]. apply free_append; [ | exact IH].
  apply percentEncodeChar_free.
Qed.

Lemma oauth1_strings_have_fixed_parts_witness :
  split "&" (signingKey Sample.percentEncode "t&s" "c s") =
  ["c%20s"; "t%26s"]
  /\ exists parameters,
      parameterString Sample.chain Sample.percentEncode
        Sample.decodeURIComponent
        [("oauth_nonce", Str "n&1"); ("oauth_consumer_key", Str "ck")]
        "https://api.provider/request?scope=a b" Sample.w0 =
      (Ret parameters, Sample.w0)
      /\ split "&"
           "POST&https%3A%2F%2Fapi.provider%2Frequest&oauth_consumer_key%3Dck%26oauth_nonce%3Dn%25261%26scope%3Da%2520b" =
         ["POST"; "https%3A%2F%2Fapi.provider%2Frequest"; parameters].
Proof.
  apply (oauth1_strings_have_fixed_parts Sample.chain Sample.percentEncode
           Sample.decodeURIComponent "t&s" "c s" "POST"
           "https://api.provider/request?scope=a b"
           [("oauth_nonce", Str "n&1"); ("oauth_consumer_key", Str "ck")]
           Sample.w0 _ Sample.w0).
  - exact percentEncode_free.
  - absent.
  - vm_compute. reflexivity.
Defined.

Lemma sortObject_orders_keys_witness :
  Sorted (fun a b => String.leb a b = true)
    (keys (sortObject Sample.chain
             [("oauth_nonce", Str "n1"); ("oauth_consumer_key", Str "ck");
              ("b", Str "2")]))
  /\ Permutation
       (keys (sortObject Sample.chain
                [("oauth_nonce", Str "n1"); ("oauth_consumer_key", Str "ck");
                 ("b", Str "2")]))
       ["oauth_nonce"; "oauth_consumer_key"; "b"]
  /\ (forall k,
        lookup k
          (sortObject Sample.chain
             [("oauth_nonce", Str "n1"); ("oauth_consumer_key", Str "ck");
              ("b", Str "2")]) =
        lookup k
          [("oauth_nonce", Str "n1"); ("oauth_consumer_key", Str "ck");
           ("b", Str "2")]).
Proof.
  apply (sortObject_orders_keys Sample.chain
           [("oauth_nonce", Str "n1"); ("oauth_consumer_key", Str "ck");
            ("b", Str "2")]).
  - distinct.
  - intros k [<- | [<- | [<- | []]]]; reflexivity.
Defined.

Lemma cleanObject_keeps_truthy_values_witness :
  cleanObject
    [("id", Num 7); ("nickname", Str EmptyString); ("age", Num 0);
     ("verified", Bool false); ("avatar", Null); ("email", Str "a@b.c")] =
  [("id", Num 7); ("email", Str "a@b.c")].
Proof.
  apply (cleanObject_keeps_truthy_values
           [("id", Num 7); ("nickname", Str EmptyString); ("age", Num 0);
            ("verified", Bool false); ("avatar", Null);
            ("email", Str "a@b.c")]).
  distinct.
Defined.

Lemma convertStringsToObject_keeps_parsed_objects_witness :
  exists result,
    convertStringsToObject Sample.type_error_message Sample.JSON_parse
      [("user", Str "{}"); ("code", Str "4/P7q7W91"); ("state", Str "{x")]
      Sample.w0 = (Ret result, Sample.w0)
    /\ lookup "user" result = Some (Obj [])
    /\ lookup "code" result = None
    /\ lookup "state" result = None.
Proof.
  destruct (convertStringsToObject_keeps_parsed_objects
              Sample.type_error_message Sample.JSON_parse
              [("user", "{}"); ("code", "4/P7q7W91"); ("state", "{x")]
              Sample.w0)
    as (result & Hrun & Hkeys).
  - distinct.
  - exists result. split; [exact Hrun | ].
    split; [ | split]; rewrite Hkeys; reflexivity.
Defined.
